(** * MMDET: detector dispatch, BFP necks, anchor targets and the block dataset

    A shallow embedding of four source files of the repository:

    - [mmdet/models/detectors/base.py]   (module [base])
    - [mmdet/models/necks/bfp.py]        (module [bfp])
    - [mmdet/core/anchor/anchor_target.py] (module [anchor_target])
    - [mmdet/datasets/custom_block.py]   (module [custom_block])

    Python calls either return a value or raise; they are modelled in the
    error monad [Py.result].  Code that mutates a list argument in place
    threads the list through a state monad on top of it.  Calls into the
    tensor framework and into parts of the package that are outside these
    four files are operations of a type class, so every statement holds for
    whatever the framework computes. *)

From Stdlib Require Import ZArith QArith Lia Lqa Ascii DecimalString
  DecimalFacts DecimalN.
From stdpp Require Import base option list strings.

Set Warnings "-register-all".
Open Scope Z_scope.
Open Scope nat_scope.

(* ===================================================================== *)
(** * Python outcomes *)
(* ===================================================================== *)

Module Py.

(** The exception classes the modelled code can end with. *)
Inductive exn : Set :=
| AssertionError
| TypeError
| ValueError
| IndexError
| AttributeError
| RuntimeError
| ZeroDivisionError
| KeyError
| NameError
| FileNotFoundError.

(** The outcome of a call: it returns a value or it raises. *)
Inductive result (A : Type) : Type :=
| Ok (a : A)
| Raise (e : exn).

Arguments Ok {A} a.
Arguments Raise {A} e.

Definition bind {A B : Type} (m : result A) (k : A -> result B) : result B :=
  match m with
  | Ok a => k a
  | Raise e => Raise e
  end.

#[export] Instance result_ret : MRet result := fun A a => Ok a.
#[export] Instance result_bind : MBind result := fun A B k m => bind m k.
#[export] Instance result_fmap : FMap result := fun A B f m =>
  bind m (fun a => Ok (f a)).

(** [assert b] *)
Definition assert (b : bool) : result unit :=
  if b then Ok tt else Raise AssertionError.

(** [l[i]] on a Python list. *)
Definition getitem {A : Type} (l : list A) (i : nat) : result A :=
  match l !! i with
  | Some a => Ok a
  | None => Raise IndexError
  end.

Definition raises {A : Type} (m : result A) : Prop :=
  match m with
  | Ok _ => False
  | Raise _ => True
  end.

Definition returns {A : Type} (m : result A) : Prop :=
  match m with
  | Ok _ => True
  | Raise _ => False
  end.

End Py.

Import Py.

(* ===================================================================== *)
(** * mmdet/models/detectors/base.py *)
(* ===================================================================== *)

Module base.

(** What the detector needs of an image tensor: [t.size()]. *)
Class TensorShape (Tensor : Type) := size : Tensor -> list nat.

Section detector.
Context {Tensor : Type} `{!TensorShape Tensor}.
(** [img_meta] entries, keyword arguments and detection results are opaque
    to the base class. *)
Context {Meta Kwargs Out : Type}.

(** The arguments [forward] and [forward_test] receive: a batch tensor, a
    list (of images, of metadata, or of lists of them), or another object. *)
Inductive value : Type :=
| VTensor (t : Tensor)
| VMeta (m : Meta)
| VList (l : list value)
| VNone.

(** [isinstance(var, list)] *)
Definition is_list (v : value) : bool :=
  match v with
  | VList _ => true
  | _ => false
  end.

(** [x.size(0)]: only a tensor has the method, and a tensor without
    dimensions has no dimension 0. *)
Definition size0 (v : value) : result nat :=
  match v with
  | VTensor t =>
      match size t with
      | n :: _ => Ok n
      | [] => Raise IndexError
      end
  | _ => Raise AttributeError
  end.

(** The abstract methods a concrete detector supplies, and the flag set by
    [__init__]. *)
Record BaseDetector : Type := {
  fp16_enabled : bool;
  forward_train : value -> value -> Kwargs -> result Out;
  simple_test : value -> value -> Kwargs -> result Out;
  aug_test : value -> value -> Kwargs -> result Out
}.

(** The loop of [forward_test] over [(imgs, 'imgs'), (img_metas,
    'img_metas')]. *)
Definition check_lists (vars : list value) : result unit :=
  foldl (fun acc var =>
           _ ← acc;
           if is_list var then Ok tt else Raise TypeError)
        (Ok tt) vars.

Definition forward_test (self : BaseDetector) (imgs img_metas : value)
    (kwargs : Kwargs) : result Out :=
  _ ← check_lists [imgs; img_metas];
  match imgs, img_metas with
  | VList imgs_l, VList img_metas_l =>
      let num_augs := length imgs_l in
      if negb (num_augs =? length img_metas_l) then Raise ValueError
      else
        img0 ← getitem imgs_l 0;
        imgs_per_gpu ← size0 img0;
        _ ← assert (imgs_per_gpu =? 1);
        if num_augs =? 1 then
          meta0 ← getitem img_metas_l 0;
          simple_test self img0 meta0 kwargs
        else
          aug_test self imgs img_metas kwargs
  | _, _ => Raise TypeError
  end.

(** The body of [forward].  The decorator [auto_fp16(apply_to=('img',))]
    lives outside this file; it decides in which precision [img] reaches
    the body and leaves the dispatch alone, so [img] below is the argument
    as the body sees it. *)
Definition forward (self : BaseDetector) (img img_meta : value)
    (return_loss : bool) (kwargs : Kwargs) : result Out :=
  if return_loss then forward_train self img img_meta kwargs
  else forward_test self img img_meta kwargs.

End detector.

Arguments value : clear implicits.
Arguments BaseDetector : clear implicits.

(** ** [vis_detections] *)

(** What the method takes from [numpy] and from Python's string
    formatting: the channel swap [im[:, :, (2, 1, 0)]] and ['%.2f' % x]. *)
Class Plot (Image : Type) : Type := {
  swap_channels : Image -> Image;
  fmt_2f : Q -> string
}.

(** [l[k]] for a Python integer [k]: a negative index counts from the
    end. *)
Definition index {A : Type} (l : list A) (k : Z) : result A :=
  if (0 <=? k)%Z then getitem l (Z.to_nat k)
  else if (- Z.of_nat (length l) <=? k)%Z
       then getitem l (Z.to_nat (Z.of_nat (length l) + k))
       else Raise IndexError.

Section drawing.
Context {Image : Type} `{!Plot Image}.

(** The calls made on the axes, in order: [ax.imshow(im)],
    [plt.gca().add_patch(plt.Rectangle(xy, w, h, edgecolor=clr, ..))] and
    [ax.text(x, y, s, bbox=dict(facecolor=clr, ..), ..)]. *)
Inductive call : Type :=
| imshow (im : Image)
| add_patch (xy : Q * Q) (w h : Q) (edgecolor : string)
| text (x y : Q) (s : string) (facecolor : string).

(** The calls one turn of the loop makes for row [i]; the class name is
    looked up before the score is compared. *)
Definition row_calls (bboxes : list (list Q)) (labels : list Z)
    (class_names : list string) (thresh : Q) (clr : string) (i : nat)
    : result (list call) :=
  bbox ← getitem bboxes i;
  score ← index bbox (-1);
  label ← getitem labels i;
  class_name ← index class_names label;
  if negb (Qle_bool score thresh) then
    b0 ← getitem bbox 0;
    b1 ← getitem bbox 1;
    b2 ← getitem bbox 2;
    b3 ← getitem bbox 3;
    Ok [add_patch (b0, b1) (b2 - b0)%Q (b3 - b1)%Q clr;
        text b0 (b1 + 11)%Q (class_name +:+ " " +:+ fmt_2f score) clr]
  else Ok [].

(** The loop over the rows [i], ..., [i + n - 1], after the calls [made]
    so far; an exception leaves the calls already made. *)
Fixpoint draw_loop (bboxes : list (list Q)) (labels : list Z)
    (class_names : list string) (thresh : Q) (clr : string) (i n : nat)
    (made : list call) : result unit * list call :=
  match n with
  | 0 => (Ok tt, made)
  | S n' =>
      match row_calls bboxes labels class_names thresh clr i with
      | Ok new =>
          draw_loop bboxes labels class_names thresh clr (S i) n'
            (made ++ new)
      | Raise e => (Raise e, made)
      end
  end.

(** [vis_detections]: the calls made on [ax], and how the method ended. *)
Definition vis_detections (im : Image) (bboxes : list (list Q))
    (labels : list Z) (class_names : list string) (thresh : Q)
    (clr : string) : result unit * list call :=
  let im := swap_channels im in
  draw_loop bboxes labels class_names thresh clr 0 (length bboxes)
    [imshow im].

End drawing.

Arguments call : clear implicits.

End base.

(* ===================================================================== *)
(** * mmdet/models/necks/bfp.py *)
(* ===================================================================== *)

Module bfp.

(** The tensor operations and layers the necks call.  They belong to the
    framework ([torch], [torch.nn.functional]) and to package modules outside
    this file ([ConvModule], [NonLocal2D]); the necks only compose them. *)
Class Framework (Tensor : Type) : Type := {
  (** [t.size()] *)
  size : Tensor -> list nat;
  (** [F.adaptive_max_pool2d(x, output_size=s)] *)
  adaptive_max_pool2d : Tensor -> list nat -> Tensor;
  (** [F.interpolate(x, size=s, mode='nearest')] *)
  interpolate : Tensor -> list nat -> Tensor;
  (** [x + y] *)
  add : Tensor -> Tensor -> Tensor;
  (** [k + x] for a Python integer [k] *)
  radd : Z -> Tensor -> Tensor;
  (** [x / k] for a Python integer [k] *)
  div : Tensor -> Z -> Tensor;
  (** [torch.cat(xs, dim=d)] *)
  cat : list Tensor -> nat -> Tensor;
  (** [ConvModule(cin, cout, k, padding=p, ...)] applied to a tensor *)
  ConvModule : nat -> nat -> nat -> nat -> Tensor -> Tensor;
  (** [NonLocal2D(c, reduction=1, use_scale=False, ...)] applied to a tensor *)
  NonLocal2D : nat -> Tensor -> Tensor;
  (** [nn.Conv2d(cin, cout, kernel_size=k, padding=p)] applied to a tensor *)
  Conv2d : nat -> nat -> nat * nat -> nat * nat -> Tensor -> Tensor
}.

(** [in_channels] is an integer for [BFP] and a list for [FRCNBFP] and for
    [BFP] with [output_single_lvl]. *)
Inductive channels : Set :=
| Chan (c : nat)
| Chans (cs : list nat).

Inductive refine_kind : Set := conv | non_local.

Section necks.
Context {Tensor : Type} `{!Framework Tensor}.

(** What [forward] hands back: a tuple of maps, a list of maps, or a list
    whose single element is itself a list. *)
Inductive output : Type :=
| OTuple (outs : list Tensor)
| OList (outs : list Tensor)
| ONested (outs : list (list Tensor)).


(** [x.size()[2:]] *)
Definition spatial (x : Tensor) : list nat := drop 2 (size x).

Record BFP : Type := {
  in_channels : channels;
  num_levels : nat;
  refine_level : nat;
  refine_type : option refine_kind;
  output_single_lvl : bool;
  out_channels : option nat;
  (** [self.refine], when [__init__] created it *)
  refine : option (Tensor -> Tensor)
}.

(** [sum(self.in_channels)] *)
Definition sum_channels (c : channels) : result nat :=
  match c with
  | Chan _ => Raise TypeError
  | Chans cs => Ok (foldl Nat.add 0 cs)
  end.

Definition int_channels (c : channels) : result nat :=
  match c with
  | Chan n => Ok n
  | Chans _ => Raise TypeError
  end.

(** [BFP.__init__].  [refine_type in [None, 'conv', 'non_local']] holds by
    the type of [refine_type]. *)
Definition BFP_init (in_channels : channels) (num_levels refine_level : nat)
    (refine_type : option refine_kind) (output_single_lvl : bool)
    (out_channels : option nat) : result BFP :=
  _ ← assert (refine_level <? num_levels);
  layer ←
    (if output_single_lvl then
       cin ← sum_channels in_channels;
       match out_channels with
       | Some cout => Ok (Some (ConvModule cin cout 3 1))
       | None => Raise TypeError
       end
     else
       match refine_type with
       | Some conv =>
           c ← int_channels in_channels;
           Ok (Some (ConvModule c c 3 1))
       | Some non_local =>
           c ← int_channels in_channels;
           Ok (Some (NonLocal2D c))
       | None => Ok None
       end);
  Ok {| in_channels := in_channels; num_levels := num_levels;
        refine_level := refine_level; refine_type := refine_type;
        output_single_lvl := output_single_lvl;
        out_channels := out_channels; refine := layer |}.

(** One turn of the gathering loop (step 1). *)
Definition gather (refine_level : nat) (gather_size : list nat) (i : nat)
    (x : Tensor) : Tensor :=
  if i <? refine_level then adaptive_max_pool2d x gather_size
  else interpolate x gather_size.

(** The gathering loop: [for i in range(num_levels): ... feats.append(..)]. *)
Fixpoint gather_loop (refine_level : nat) (gather_size : list nat)
    (inputs : list Tensor) (i n : nat) (feats : list Tensor)
    : result (list Tensor) :=
  match n with
  | 0 => Ok feats
  | S n' =>
      x ← getitem inputs i;
      gather_loop refine_level gather_size inputs (S i) n'
        (feats ++ [gather refine_level gather_size i x])
  end.

(** [sum(feats) / len(feats)]: Python's [sum] starts from the integer 0. *)
Definition average (feats : list Tensor) : result Tensor :=
  match feats with
  | [] => Raise ZeroDivisionError
  | f :: fs => Ok (div (foldl add (radd 0 f) fs) (Z.of_nat (length feats)))
  end.

(** [self.refine(x)] *)
Definition call_refine (self : BFP) (x : Tensor) : result Tensor :=
  match refine self with
  | Some layer => Ok (layer x)
  | None => Raise AttributeError
  end.

(** The feature [sum(feats) / len(feats)] of [feats = f0 :: fs], passed
    through [self.refine] when the module has the layer. *)
Definition integrated (self : BFP) (f0 : Tensor) (fs : list Tensor) : Tensor :=
  let mean := div (foldl add (radd 0 f0) fs) (Z.of_nat (S (length fs))) in
  match refine self with
  | Some layer => layer mean
  | None => mean
  end.

(** One turn of the scattering loop (step 3). *)
Definition scatter (refine_level : nat) (bsf : Tensor) (i : nat)
    (x : Tensor) : Tensor :=
  let out_size := spatial x in
  let residual :=
    if i <? refine_level then interpolate bsf out_size
    else adaptive_max_pool2d bsf out_size in
  add residual x.

Fixpoint scatter_loop (refine_level : nat) (bsf : Tensor)
    (inputs : list Tensor) (i n : nat) (outs : list Tensor)
    : result (list Tensor) :=
  match n with
  | 0 => Ok outs
  | S n' =>
      x ← getitem inputs i;
      scatter_loop refine_level bsf inputs (S i) n'
        (outs ++ [scatter refine_level bsf i x])
  end.

(** [BFP.forward] *)
Definition BFP_forward (self : BFP) (inputs : list Tensor) : result output :=
  _ ← assert (length inputs =? num_levels self);
  x_ref ← getitem inputs (refine_level self);
  let gather_size := spatial x_ref in
  feats ← gather_loop (refine_level self) gather_size inputs 0
             (num_levels self) [];
  if negb (output_single_lvl self) then
    bsf ← average feats;
    bsf ← (if refine_type self is Some _ then call_refine self bsf
            else Ok bsf);
    outs ← scatter_loop (refine_level self) bsf inputs 0
              (num_levels self) [];
    Ok (OTuple outs)
  else
    let feats := cat feats 1 in
    if refine_type self is Some _ then
      r ← call_refine self feats;
      Ok (ONested [[r]])
    else Ok (OList [feats]).

Record FRCNBFP : Type := {
  f_in_channels : channels;
  f_num_levels : nat;
  f_refine_level : nat;
  c_mid : nat;
  k : nat;
  channel_expansion : nat;
  ContextModuleList : list (Tensor -> Tensor)
}.

(** [len(self.in_channels)] *)
Definition len_channels (c : channels) : result nat :=
  match c with
  | Chan _ => Raise TypeError
  | Chans cs => Ok (length cs)
  end.

(** The [nn.Sequential] built for level [i]; [int((k-1)/2)] truncates. *)
Definition context_module (c_mid k channel_expansion : nat) (i cin : nat)
    : Tensor -> Tensor :=
  let pad := Z.to_nat ((Z.of_nat k - 1) ÷ 2) in
  fun x =>
    Conv2d c_mid ((i + 1) * 49 * channel_expansion) (1, k) (0, pad)
      (Conv2d cin c_mid (k, 1) (pad, 0) x).

(** [FRCNBFP.__init__] *)
Definition FRCNBFP_init (in_channels : channels) (num_levels refine_level : nat)
    (c_mid k channel_expansion : nat) : result FRCNBFP :=
  _ ← assert (refine_level <? num_levels);
  match in_channels with
  | Chan _ => Raise TypeError
  | Chans cs =>
      Ok {| f_in_channels := in_channels; f_num_levels := num_levels;
            f_refine_level := refine_level; c_mid := c_mid; k := k;
            channel_expansion := channel_expansion;
            ContextModuleList :=
              imap (context_module c_mid k channel_expansion) cs |}
  end.

(** The loop [for i in range(len(feats)): feats[i] = ContextModuleList[i](feats[i])]. *)
Fixpoint context_loop (mods : list (Tensor -> Tensor)) (i n : nat)
    (feats : list Tensor) : result (list Tensor) :=
  match n with
  | 0 => Ok feats
  | S n' =>
      m ← getitem mods i;
      f ← getitem feats i;
      context_loop mods (S i) n' (<[i := m f]> feats)
  end.

(** [FRCNBFP.forward] *)
Definition FRCNBFP_forward (self : FRCNBFP) (inputs : list Tensor)
    : result output :=
  _ ← assert (length inputs =? f_num_levels self);
  x_ref ← getitem inputs (f_refine_level self);
  let gather_size := spatial x_ref in
  feats ← gather_loop (f_refine_level self) gather_size inputs 0
             (f_num_levels self) [];
  feats ← context_loop (ContextModuleList self) 0 (length feats) feats;
  Ok (OList [cat feats 1]).

End necks.

Arguments output : clear implicits.
Arguments BFP : clear implicits.
Arguments FRCNBFP : clear implicits.


End bfp.

(* ===================================================================== *)
(** * mmdet/core/anchor/anchor_target.py *)
(* ===================================================================== *)

Module anchor_target.

(** A row of a [(K, 4)] float tensor: an anchor, a ground-truth box, a
    regression target or a row of box weights.  Floats are modelled by
    rationals: the code only copies, compares and sums them. *)
Record box : Set := Box { bx1 : Q; by1 : Q; bx2 : Q; by2 : Q }.

Definition zeros : box := Box 0 0 0 0.
Definition ones : box := Box 1 1 1 1.

(** What a sampler hands back ([SamplingResult]); indices refer to the
    anchors inside the border. *)
Record SamplingResult : Set := {
  pos_inds : list nat;
  neg_inds : list nat;
  pos_bboxes : list box;
  pos_gt_bboxes : list box;
  pos_assigned_gt_inds : list nat
}.

(** [img_meta]: only ['img_shape'] = (h, w, c) is read. *)
Record img_meta : Set := { img_shape : Z * Z * Z }.

(** The functions imported from [..bbox], which is outside this file.  A
    random sampler is a function here: one fixed draw per argument. *)
Class BBox : Type := {
  AssignerCfg : Type;
  SamplerCfg : Type;
  AssignResult : Type;
  (** [assign_and_sample(bboxes, gt_bboxes, gt_bboxes_ignore, gt_labels, cfg)]
      reads [cfg.assigner] and [cfg.sampler] *)
  assign_and_sample :
    list box -> list box -> option (list box) -> option (list Z) ->
    AssignerCfg -> SamplerCfg -> AssignResult * SamplingResult;
  (** [build_assigner(cfg.assigner).assign(...)] *)
  assign :
    AssignerCfg -> list box -> list box -> option (list box) ->
    option (list Z) -> AssignResult;
  (** [PseudoSampler().sample(assign_result, bboxes, gt_bboxes)] *)
  PseudoSampler_sample :
    AssignResult -> list box -> list box -> SamplingResult;
  (** [bbox2delta(proposals, gt, means, stds)] *)
  bbox2delta : list box -> list box -> list Q -> list Q -> list box
}.

(** ** Tensor indexing on lists *)

(** [a & b] on boolean tensors of one dimension, with broadcasting of a
    one-element tensor. *)
Definition band (a b : list bool) : result (list bool) :=
  if length a =? length b then Ok (zip_with andb a b)
  else match a, b with
       | [x], _ => Ok (andb x <$> b)
       | _, [y] => Ok ((fun x => andb x y) <$> a)
       | _, _ => Raise RuntimeError
       end.

(** [flags.any()] *)
Definition any (flags : list bool) : bool := existsb id flags.

(** The rows a mask keeps, in order. *)
Fixpoint select {A : Type} (mask : list bool) (data : list A) : list A :=
  match mask, data with
  | true :: mask', d :: data' => d :: select mask' data'
  | false :: mask', _ :: data' => select mask' data'
  | _, _ => []
  end.

(** [data[mask, :]]: the mask must be as long as the tensor. *)
Definition mask_select {A : Type} (data : list A) (mask : list bool)
    : result (list A) :=
  if length mask =? length data then Ok (select mask data)
  else Raise IndexError.

(** [mask.sum()]: the number of true flags. *)
Fixpoint count_true (mask : list bool) : nat :=
  match mask with
  | [] => 0
  | b :: mask' => (if b then 1 else 0) + count_true mask'
  end.

(** Writes [data], in order, at the true positions of [mask]. *)
Fixpoint scatter {A : Type} (ret : list A) (mask : list bool) (data : list A)
    : list A :=
  match ret, mask with
  | r :: ret', true :: mask' =>
      match data with
      | d :: data' => d :: scatter ret' mask' data'
      | [] => r :: ret'
      end
  | r :: ret', false :: mask' => r :: scatter ret' mask' data
  | _, _ => ret
  end.

(** [ret[mask] = data]: one value per true flag, or a single value for all
    of them. *)
Definition mask_put {A : Type} (ret : list A) (mask : list bool)
    (data : list A) : result (list A) :=
  if negb (length mask =? length ret) then Raise IndexError
  else if count_true mask =? length data then Ok (scatter ret mask data)
  else match data with
       | [d] => Ok (scatter ret mask (replicate (count_true mask) d))
       | _ => Raise RuntimeError
       end.

(** The rows [inds] overwritten with [v], one index after the other. *)
Definition fill {A : Type} (data : list A) (inds : list nat) (v : A) : list A :=
  foldl (fun acc i => <[i := v]> acc) data inds.

(** The rows [inds] overwritten with the values of [vals], in step. *)
Definition put {A : Type} (data : list A) (inds : list nat) (vals : list A)
    : list A :=
  foldl (fun acc iv => <[iv.1 := iv.2]> acc) data (zip inds vals).

(** All of [inds] index into [data]. *)
Definition in_range {A : Type} (data : list A) (inds : list nat) : bool :=
  forallb (fun i => i <? length data) inds.

(** [data[inds] = v] for an index tensor and one value. *)
Definition index_fill {A : Type} (data : list A) (inds : list nat) (v : A)
    : result (list A) :=
  if in_range data inds then Ok (fill data inds v) else Raise IndexError.

(** [data[inds] = vals] for an index tensor and one value per index (or a
    single value for all of them). *)
Definition index_put {A : Type} (data : list A) (inds : list nat)
    (vals : list A) : result (list A) :=
  if negb (in_range data inds) then Raise IndexError
  else if length vals =? length inds then Ok (put data inds vals)
  else match vals with
       | [v] => Ok (fill data inds v)
       | _ => Raise RuntimeError
       end.

(** [data[inds]] for an index tensor. *)
Fixpoint index_select {A : Type} (data : list A) (inds : list nat)
    : result (list A) :=
  match inds with
  | [] => Ok []
  | i :: inds' =>
      x ← getitem data i;
      xs ← index_select data inds';
      Ok (x :: xs)
  end.

(** [w.sum().item()] *)
Definition sum (w : list Q) : Q := foldr Qplus 0%Q w.

(** ** [unmap] *)

(** Both branches of [unmap] ([data.dim() == 1] or not) fill a tensor of
    [count] rows with [fill] and write [data] at the flagged rows; rows are
    elements of the list here. *)
Definition unmap {A : Type} (data : list A) (count : nat) (inds : list bool)
    (fill : A) : result (list A) :=
  let ret := replicate count fill in
  mask_put ret inds data.

(** ** [anchor_inside_flags] *)

Definition inside (allowed_border img_h img_w : Z) (a : box) : bool :=
  Qle_bool (inject_Z (- allowed_border)) (bx1 a) &&
  Qle_bool (inject_Z (- allowed_border)) (by1 a) &&
  negb (Qle_bool (inject_Z (img_w + allowed_border)) (bx2 a)) &&
  negb (Qle_bool (inject_Z (img_h + allowed_border)) (by2 a)).

Definition anchor_inside_flags (flat_anchors : list box)
    (valid_flags : list bool) (img_shape : Z * Z) (allowed_border : Z)
    : result (list bool) :=
  let '(img_h, img_w) := img_shape in
  if (0 <=? allowed_border)%Z then
    band valid_flags (inside allowed_border img_h img_w <$> flat_anchors)
  else Ok valid_flags.

Section targets.
Context `{!BBox}.

(** The training configuration: [cfg.allowed_border], [cfg.pos_weight],
    [cfg.assigner], [cfg.sampler]. *)
Record cfg : Type := {
  allowed_border : Z;
  pos_weight : Q;
  assigner : AssignerCfg;
  sampler : SamplerCfg
}.

(** The tuple [anchor_target_single] returns when it computed targets; the
    last two components are [None] on the path without ground truth. *)
Record single : Set := {
  labels : list Z;
  label_weights : list Q;
  bbox_targets : list box;
  bbox_weights : list box;
  s_pos_inds : option (list nat);
  s_neg_inds : option (list nat)
}.

(** The four calls of [unmap] that map the targets back to all anchors. *)
Definition unmap_all (num_total_anchors : nat) (inside_flags : list bool)
    (l : list Z) (lw : list Q) (bt bw : list box)
    : result (list Z * list Q * list box * list box) :=
  l ← unmap l num_total_anchors inside_flags 0%Z;
  lw ← unmap lw num_total_anchors inside_flags 0%Q;
  bt ← unmap bt num_total_anchors inside_flags zeros;
  bw ← unmap bw num_total_anchors inside_flags zeros;
  Ok (l, lw, bt, bw).

(** The sampling step: [assign_and_sample] when [sampling], the assigner
    followed by [PseudoSampler] otherwise. *)
Definition sample (c : cfg) (sampling : bool) (anchors gt_bboxes : list box)
    (gt_bboxes_ignore : option (list box)) (gt_labels : option (list Z))
    : SamplingResult :=
  if sampling then
    (assign_and_sample anchors gt_bboxes gt_bboxes_ignore None
       (assigner c) (sampler c)).2
  else
    let assign_result :=
      assign (assigner c) anchors gt_bboxes gt_bboxes_ignore gt_labels in
    PseudoSampler_sample assign_result anchors gt_bboxes.

(** The anchor, counted among those inside the border, that row [j] of the
    returned tensors stands for: the rows follow all anchors after
    [unmap], where the rank of a flagged anchor is the number of flagged
    anchors before it, and the inside anchors otherwise. *)
Definition row_anchor (unmap_outputs : bool) (inside_flags : list bool)
    (j : nat) : option nat :=
  if unmap_outputs then
    match inside_flags !! j with
    | Some true => Some (count_true (take j inside_flags))
    | _ => None
    end
  else Some j.

(** Rows as they are handed back: mapped to all [count] anchors, with
    [v] at the anchors outside the border, when [unmap_outputs]. *)
Definition back {A : Type} (unmap_outputs : bool) (count : nat)
    (inside_flags : list bool) (v : A) (rows : list A) : list A :=
  if unmap_outputs then scatter (replicate count v) inside_flags rows
  else rows.

(** How far [anchor_target_single] got before its last two statements:
    it returned early, without anchors inside the border or without
    ground truth, or it sampled and stands before the final assertion. *)
Inductive progress : Set :=
| NoValid
| NoGt (s : single)
| Sampled (s : single) (pos_inds neg_inds : list nat).

(** [anchor_target_single] up to its final assertion. *)
Definition targets_before_assert (flat_anchors : list box)
    (valid_flags : list bool) (gt_bboxes : option (list box))
    (gt_bboxes_ignore : option (list box)) (gt_labels : option (list Z))
    (meta : img_meta) (target_means target_stds : list Q) (c : cfg)
    (sampling unmap_outputs : bool) : result progress :=
  let '(img_h, img_w, _) := img_shape meta in
  inside_flags ← anchor_inside_flags flat_anchors valid_flags (img_h, img_w)
                    (allowed_border c);
  if negb (any inside_flags) then Ok NoValid
  else
    anchors ← mask_select flat_anchors inside_flags;
    let num_valid_anchors := length anchors in
    let bbox_targets := replicate num_valid_anchors zeros in
    let bbox_weights := replicate num_valid_anchors zeros in
    let labels := replicate num_valid_anchors 0%Z in
    let label_weights := replicate num_valid_anchors 0%Q in
    match gt_bboxes with
    | None | Some [] =>
        let label_weights := replicate num_valid_anchors 1%Q in
        let num_total_anchors := length flat_anchors in
        '(l, lw, bt, bw) ← unmap_all num_total_anchors inside_flags
                              labels label_weights bbox_targets bbox_weights;
        Ok (NoGt {| labels := l; label_weights := lw; bbox_targets := bt;
                    bbox_weights := bw; s_pos_inds := None;
                    s_neg_inds := None |})
    | Some gt =>
        let sampling_result :=
          sample c sampling anchors gt gt_bboxes_ignore gt_labels in
        let pos_inds := pos_inds sampling_result in
        let neg_inds := neg_inds sampling_result in
        '(labels, label_weights, bbox_targets, bbox_weights) ←
          (if 0 <? length pos_inds then
             let pos_bbox_targets :=
               bbox2delta (pos_bboxes sampling_result)
                 (pos_gt_bboxes sampling_result) target_means target_stds in
             bbox_targets ← index_put bbox_targets pos_inds pos_bbox_targets;
             bbox_weights ← index_fill bbox_weights pos_inds ones;
             labels ←
               match gt_labels with
               | None => index_fill labels pos_inds 1%Z
               | Some gl =>
                   vals ← index_select gl
                            (pos_assigned_gt_inds sampling_result);
                   index_put labels pos_inds vals
               end;
             _ ← assert (Qle_bool (pos_weight c) 0);
             label_weights ← index_fill label_weights pos_inds 1%Q;
             Ok (labels, label_weights, bbox_targets, bbox_weights)
           else Ok (labels, label_weights, bbox_targets, bbox_weights));
        label_weights ←
          (if 0 <? length neg_inds
           then index_fill label_weights neg_inds 1%Q
           else Ok label_weights);
        '(labels, label_weights, bbox_targets, bbox_weights) ←
          (if unmap_outputs then
             let num_total_anchors := length flat_anchors in
             unmap_all num_total_anchors inside_flags
               labels label_weights bbox_targets bbox_weights
           else Ok (labels, label_weights, bbox_targets, bbox_weights));
        Ok (Sampled {| labels := labels; label_weights := label_weights;
                       bbox_targets := bbox_targets;
                       bbox_weights := bbox_weights;
                       s_pos_inds := Some pos_inds;
                       s_neg_inds := Some neg_inds |} pos_inds neg_inds)
    end.

(** The condition of the final assertion:
    [label_weights.sum().item() == len(pos_inds) + len(neg_inds)]. *)
Definition weights_add_up (s : single) (pos_inds neg_inds : list nat) : bool :=
  Qeq_bool (sum (label_weights s))
           (inject_Z (Z.of_nat (length pos_inds + length neg_inds))).

(** [anchor_target_single]; [None] stands for the tuple of six [None]. *)
Definition anchor_target_single (flat_anchors : list box)
    (valid_flags : list bool) (gt_bboxes : option (list box))
    (gt_bboxes_ignore : option (list box)) (gt_labels : option (list Z))
    (meta : img_meta) (target_means target_stds : list Q) (c : cfg)
    (sampling unmap_outputs : bool) : result (option single) :=
  p ← targets_before_assert flat_anchors valid_flags gt_bboxes
         gt_bboxes_ignore gt_labels meta target_means target_stds c
         sampling unmap_outputs;
  match p with
  | NoValid => Ok None
  | NoGt s => Ok (Some s)
  | Sampled s pos_inds neg_inds =>
      _ ← assert (weights_add_up s pos_inds neg_inds);
      Ok (Some s)
  end.

(** ** [anchor_target]: the caller's lists are mutated in place *)

(** An element of [anchor_list] or [valid_flag_list]: the list of per-level
    tensors the caller passes, or the single tensor the function stores
    back. *)
Inductive entry (A : Type) : Type :=
| Levels (ls : list (list A))
| Flat (t : list A).

Arguments Levels {A} ls.
Arguments Flat {A} t.

(** The two list objects shared with the caller. *)
Record lists : Type := {
  anchor_list : list (entry box);
  valid_flag_list : list (entry bool)
}.

(** Calls that read and write the shared lists and may raise: the lists
    survive an exception as they were when it was raised. *)
Definition st (A : Type) : Type := lists -> result A * lists.

#[export] Instance st_ret : MRet st := fun A a s => (Ok a, s).
#[export] Instance st_bind : MBind st := fun A B k m s =>
  match m s with
  | (Ok a, s') => k a s'
  | (Raise e, s') => (Raise e, s')
  end.

Definition lift {A : Type} (m : result A) : st A := fun s => (m, s).

Definition get_anchor (i : nat) : st (entry box) :=
  fun s => (getitem (anchor_list s) i, s).
Definition get_flag (i : nat) : st (entry bool) :=
  fun s => (getitem (valid_flag_list s) i, s).

(** [anchor_list[i] = t] and [valid_flag_list[i] = t] *)
Definition set_anchor (i : nat) (t : list box) : st unit :=
  fun s => (Ok tt, {| anchor_list := <[i := Flat t]> (anchor_list s);
                      valid_flag_list := valid_flag_list s |}).
Definition set_flag (i : nat) (t : list bool) : st unit :=
  fun s => (Ok tt, {| anchor_list := anchor_list s;
                      valid_flag_list := <[i := Flat t]> (valid_flag_list s) |}).

(** [len(e)] *)
Definition len {A : Type} (e : entry A) : nat :=
  match e with
  | Levels ls => length ls
  | Flat t => length t
  end.

(** [torch.cat(e)]: a non-empty sequence of tensors, not a tensor. *)
Definition torch_cat {A : Type} (e : entry A) : result (list A) :=
  match e with
  | Levels [] => Raise RuntimeError
  | Levels ls => Ok (concat ls)
  | Flat _ => Raise TypeError
  end.

(** [[anchors.size(0) for anchors in e]]; iterating a [(K, 4)] tensor
    yields its rows, of size 4. *)
Definition level_sizes (e : entry box) : list nat :=
  match e with
  | Levels ls => length <$> ls
  | Flat t => (fun _ => 4) <$> t
  end.

(** The loop that concatenates the levels of every image. *)
Fixpoint concat_loop (i n : nat) : st unit :=
  match n with
  | 0 => mret tt
  | S n' =>
      a ← get_anchor i;
      v ← get_flag i;
      _ ← lift (assert (len a =? len v));
      ca ← lift (torch_cat a);
      _ ← set_anchor i ca;
      cv ← lift (torch_cat v);
      _ ← set_flag i cv;
      concat_loop (S i) n'
  end.

(** A per-level slice of the stacked per-image targets after
    [.squeeze(0)]: without the image dimension when there is one image. *)
Inductive level (A : Type) : Type :=
| Squeezed (t : list A)
| Stacked (ts : list (list A)).

Arguments Squeezed {A} t.
Arguments Stacked {A} ts.

(** [torch.stack(target, 0)] *)
Definition torch_stack {A : Type} (target : list (list A))
    : result (list (list A)) :=
  match target with
  | [] => Raise RuntimeError
  | t :: ts =>
      if forallb (fun u => length u =? length t) ts then Ok target
      else Raise RuntimeError
  end.

(** [target[:, start:end].squeeze(0)] *)
Definition level_slice {A : Type} (target : list (list A)) (start stop : nat)
    : level A :=
  let cut := (fun t => take (stop - start) (drop start t)) <$> target in
  match cut with
  | [t] => Squeezed t
  | _ => Stacked cut
  end.

Fixpoint level_loop {A : Type} (target : list (list A)) (start : nat)
    (num_level_anchors : list nat) : list (level A) :=
  match num_level_anchors with
  | [] => []
  | n :: rest =>
      let stop := start + n in
      level_slice target start stop :: level_loop target stop rest
  end.

(** [images_to_levels] *)
Definition images_to_levels {A : Type} (target : list (list A))
    (num_level_anchors : list nat) : result (list (level A)) :=
  target ← torch_stack target;
  Ok (level_loop target 0 num_level_anchors).

(** The rows of image [k] in a level: a squeezed level has the rows of the
    only image. *)
Definition level_row {A : Type} (lv : level A) (k : nat) : list A :=
  match lv with
  | Squeezed t => if k is 0 then t else []
  | Stacked ts => default [] (ts !! k)
  end.

(** The tuple [anchor_target] returns when every image has targets. *)
Record targets : Type := {
  labels_list : list (level Z);
  label_weights_list : list (level Q);
  bbox_targets_list : list (level box);
  bbox_weights_list : list (level box);
  num_total_pos : Q;
  num_total_neg : Q
}.

(** [multi_apply(anchor_target_single, ...)]: [map] over the six lists in
    step, as far as the shortest reaches; the first exception ends it. *)
Fixpoint multi_apply (f : entry box -> entry bool -> option (list box) ->
                          option (list box) -> option (list Z) -> img_meta ->
                          result (option single))
    (al : list (entry box)) (vl : list (entry bool))
    (gt : list (option (list box))) (ign : list (option (list box)))
    (lab : list (option (list Z))) (metas : list img_meta)
    : result (list (option single)) :=
  match al, vl, gt, ign, lab, metas with
  | a :: al', v :: vl', g :: gt', i :: ign', l :: lab', m :: metas' =>
      r ← f a v g i l m;
      rs ← multi_apply f al' vl' gt' ign' lab' metas';
      Ok (r :: rs)
  | _, _, _, _, _, _ => Ok []
  end.

(** [anchor_target_single] as [multi_apply] calls it, on elements of the
    two lists: a list where a tensor is expected cannot be indexed. *)
Definition single_call (target_means target_stds : list Q) (c : cfg)
    (sampling unmap_outputs : bool)
    (a : entry box) (v : entry bool) (g i : option (list box))
    (l : option (list Z)) (m : img_meta) : result (option single) :=
  match a, v with
  | Flat flat_anchors, Flat valid_flags =>
      anchor_target_single flat_anchors valid_flags g i l m
        target_means target_stds c sampling unmap_outputs
  | _, _ => Raise TypeError
  end.

(** [any([labels is None for labels in all_labels])] *)
Definition any_none (rs : list (option single)) : bool :=
  existsb (fun r => if r is None then true else false) rs.

(** The running sums [num_total] and [num_total_pos]. *)
Definition total (ws : list (list Q)) : Q :=
  foldl (fun num_total w => (sum w + num_total)%Q) 0%Q ws.

(** [anchor_target] from the call of [multi_apply] on, which reads the
    two lists and writes them no more. *)
Definition targets_of_lists (s : lists) (num_level_anchors : list nat)
    (gt_bboxes_list : list (option (list box)))
    (img_metas : list img_meta) (target_means target_stds : list Q) (c : cfg)
    (gt_bboxes_ignore_list : option (list (option (list box))))
    (gt_labels_list : option (list (option (list Z))))
    (sampling unmap_outputs : bool) : result (option targets) :=
  let num_imgs := length img_metas in
  let gt_bboxes_ignore_list :=
    default (replicate num_imgs None) gt_bboxes_ignore_list in
  let gt_labels_list := default (replicate num_imgs None) gt_labels_list in
  results ← multi_apply
               (single_call target_means target_stds c sampling unmap_outputs)
               (anchor_list s) (valid_flag_list s) gt_bboxes_list
               gt_bboxes_ignore_list gt_labels_list img_metas;
  _ ← (if results is [] then Raise ValueError else Ok tt);
  if any_none results then Ok None
  else
    let done := omap id results in
    let all_label_weights := label_weights <$> done in
    let all_bbox_weights := bbox_weights <$> done in
    labels_list ← images_to_levels (labels <$> done) num_level_anchors;
    label_weights_list ←
      images_to_levels all_label_weights num_level_anchors;
    bbox_targets_list ←
      images_to_levels (bbox_targets <$> done) num_level_anchors;
    bbox_weights_list ←
      images_to_levels all_bbox_weights num_level_anchors;
    let num_total := total all_label_weights in
    let num_total_pos := total ((fun w => bx1 <$> w) <$> all_bbox_weights) in
    let num_total_neg := (num_total - num_total_pos)%Q in
    Ok (Some {| labels_list := labels_list;
                label_weights_list := label_weights_list;
                bbox_targets_list := bbox_targets_list;
                bbox_weights_list := bbox_weights_list;
                num_total_pos := num_total_pos;
                num_total_neg := num_total_neg |}).

(** The current state of the two lists. *)
Definition get_lists : st lists := fun s => (Ok s, s).

(** [anchor_target]; [Ok None] is the [return None]. *)
Definition anchor_target (gt_bboxes_list : list (option (list box)))
    (img_metas : list img_meta) (target_means target_stds : list Q) (c : cfg)
    (gt_bboxes_ignore_list : option (list (option (list box))))
    (gt_labels_list : option (list (option (list Z))))
    (sampling unmap_outputs : bool) : st (option targets) :=
  let num_imgs := length img_metas in
  s ← get_lists;
  _ ← lift (assert ((length (anchor_list s) =? length (valid_flag_list s))
                    && (length (valid_flag_list s) =? num_imgs)));
  a0 ← get_anchor 0;
  let num_level_anchors := level_sizes a0 in
  _ ← concat_loop 0 num_imgs;
  s ← get_lists;
  lift (targets_of_lists s num_level_anchors gt_bboxes_list img_metas
          target_means target_stds c gt_bboxes_ignore_list gt_labels_list
          sampling unmap_outputs).

End targets.

Arguments Levels {A} ls.
Arguments Flat {A} t.
Arguments Squeezed {A} t.
Arguments Stacked {A} ts.

End anchor_target.

(* ===================================================================== *)
(** * mmdet/datasets/custom_block.py *)
(* ===================================================================== *)

Module custom_block.

(** ** Python's string built-ins used on file names *)

Definition is_digit (c : ascii) : bool :=
  let n := nat_of_ascii c in (48 <=? n) && (n <=? 57).

(** [s.isdigit()]: at least one character, all of them digits. *)
Definition isdigit (s : string) : bool :=
  match String.list_ascii_of_string s with
  | [] => false
  | cs => forallb is_digit cs
  end.

(** [int(s)] for a string of digits. *)
Definition int (s : string) : Z :=
  foldl (fun acc c => (10 * acc + Z.of_nat (nat_of_ascii c - 48))%Z) 0%Z
        (String.list_ascii_of_string s).

Fixpoint zeros (n : nat) : string :=
  match n with
  | 0 => ""
  | S n' => String "0" (zeros n')
  end.

(** ['%06d' % n]: width six, zero padded, the sign counted in. *)
Definition fmt_06d (n : Z) : string :=
  let digits := NilEmpty.string_of_uint (N.to_uint (Z.abs_N n)) in
  if (n <? 0)%Z
  then String "-" (zeros (5 - String.length digits) +:+ digits)
  else zeros (6 - String.length digits) +:+ digits.

(** [range(lo, hi)] *)
Definition range (lo hi : Z) : list Z :=
  (fun k => (lo + Z.of_nat k)%Z) <$> seq 0 (Z.to_nat (hi - lo)).

(** ** The environment: file system, image library, transforms, randomness *)

(** [os.path], [mmcv], [numpy] and the transforms of the package, none of
    them in this file. *)
Class Env : Type := {
  Image : Type;
  Batch : Type;
  Masks : Type;
  Scale : Type;
  Shape : Type;
  Factor : Type;
  ExtraAug : Type;
  Rng : Type;
  (** [osp.join], [osp.dirname], [osp.basename], [osp.splitext], [osp.exists] *)
  join : string -> string -> string;
  dirname : string -> string;
  basename : string -> string;
  splitext : string -> string * string;
  exists_ : string -> bool;
  (** [mmcv.imread(path)] and [mmcv.imread(path, flag='unchanged')] *)
  imread : string -> result Image;
  imread_unchanged : string -> result Image;
  (** [np.stack(imgs, axis=0)] and [torch.stack(imgs, dim=0)] *)
  np_stack : list Image -> result Batch;
  torch_stack : list Image -> result Batch;
  (** [int(s)] for a string that is not made of digits only *)
  int_other : string -> result Z;
  (** [np.random.rand()], [random_scale(scales, mode)], [np.random.choice(pool)] *)
  np_random_rand : Rng -> Q * Rng;
  random_scale : list Scale -> bool -> Rng -> Scale * Rng;
  np_random_choice : list nat -> Rng -> nat * Rng;
  (** [gt_seg.squeeze()], [mmcv.imrescale(.., interpolation='nearest')],
      [gt_seg[None, ...]] and [s.replace('jpg', 'png')] *)
  squeeze : Image -> Image;
  imrescale : Image -> Q -> Image;
  add_axis : Image -> Image;
  replace_jpg_png : string -> string
}.

(** A two-dimensional float array: proposals, boxes. *)
Definition array : Set := list (list Q).

Section dataset.
Context `{!Env}.

(** [img_info['ann']] *)
Record annotation : Type := {
  bboxes : array;
  ann_labels : list Z;
  bboxes_ignore : option array;
  masks : option Masks
}.

(** One entry of the annotation file.  The loader reads the key
    ['filename'] for the image and the key ['file_name'] for the
    segmentation map. *)
Record img_info : Type := {
  filename : string;
  file_name : option string;
  width : Z;
  height : Z;
  ann : annotation
}.

Record meta : Type := {
  ori_shape : Z * Z * Z;
  m_img_shape : Shape;
  pad_shape : Shape;
  scale_factor : Factor;
  flip : bool
}.

Record CustomBlockDataset : Type := {
  img_prefix : string;
  block_size : Z;
  block_gap : Z;
  img_infos : list img_info;
  proposals : option (list array);
  img_scales : list Scale;
  (** [multiscale_mode == 'range'] *)
  multiscale_range : bool;
  num_max_proposals : nat;
  flip_ratio : Q;
  with_mask : bool;
  with_crowd : bool;
  with_label : bool;
  with_seg : bool;
  seg_prefix : string;
  seg_scale_factor : Q;
  test_mode : bool;
  extra_aug : option ExtraAug;
  resize_keep_ratio : bool;
  skip_img_without_anno : bool;
  (** the group flag of every image, set by [_set_group_flag] *)
  flag : list nat;
  (** [self.img_transform(img, scale, flip, keep_ratio=..)] and the other
      transform objects built by [__init__] *)
  img_transform : Image -> Scale -> bool -> bool ->
                  Image * Shape * Shape * Factor;
  bbox_transform : array -> Shape -> Factor -> bool -> array;
  mask_transform : Masks -> Shape -> Factor -> bool -> Masks;
  seg_transform : Image -> Scale -> bool -> Image
}.

(** The training sample: the keys of the returned [dict], the optional
    ones present or not. *)
Record sample : Type := {
  imgs : Batch;
  img_meta : meta;
  gt_bboxes : array;
  s_proposals : option array;
  gt_labels : option (list Z);
  gt_bboxes_ignore : option array;
  gt_masks : option Masks;
  gt_semantic_seg : option Image
}.

(** ** The block of file names *)

(** The name appended for offset [i] by the first loop of
    [prepare_train_img]. *)
Definition block_entry (block_gap : Z) (dname fname ext : string)
    (fidx : option Z) (i : Z) : option string :=
  if (i =? 0)%Z then Some (join dname (fname +:+ ext))
  else
    let shift := (i * block_gap)%Z in
    match fidx with
    | Some fidx =>
        let fidx_other := (fidx + shift)%Z in
        let fname_other := join dname (fmt_06d fidx_other +:+ ext) in
        if negb (exists_ fname_other) then None else Some fname_other
    | None => None
    end.

(** [None in l] *)
Definition has_none {A : Type} (l : list (option A)) : bool :=
  existsb (fun x => if x is None then true else false) l.

(** [for i in range(hf_size): if l[hf_size-1-i] is None: l[hf_size-1-i] =
    l[hf_size-i]] *)
Definition fill_left {A : Type} (hf_size : nat) (l : list (option A))
    : list (option A) :=
  foldl (fun l i =>
           match l !! (hf_size - 1 - i) with
           | Some None =>
               <[hf_size - 1 - i := default None (l !! (hf_size - i))]> l
           | _ => l
           end) l (seq 0 hf_size).

(** [for i in range(hf_size): if l[hf_size+1+i] is None: l[hf_size+1+i] =
    l[hf_size+i]] *)
Definition fill_right {A : Type} (hf_size : nat) (l : list (option A))
    : list (option A) :=
  foldl (fun l i =>
           match l !! (hf_size + 1 + i) with
           | Some None =>
               <[hf_size + 1 + i := default None (l !! (hf_size + i))]> l
           | _ => l
           end) l (seq 0 hf_size).

(** The step both loops share: slot [pos (S i)], when it is empty, takes
    the entry of slot [pos i], one step nearer the centre. *)
Definition walk {A : Type} (pos : nat -> nat) (l : list (option A)) (i : nat)
    : list (option A) :=
  match l !! pos (S i) with
  | Some None => <[pos (S i) := default None (l !! pos i)]> l
  | _ => l
  end.

(** [int((self.block_size-1)/2)]: the conversion truncates toward zero. *)
Definition hf_size (self : CustomBlockDataset) : Z :=
  ((block_size self - 1) ÷ 2)%Z.

(** The directory, the stem and the extension of the annotated image,
    and the frame index when the stem is a number. *)
Definition name_parts (self : CustomBlockDataset) (info : img_info)
    : string * string * string * option Z :=
  let img_name := join (img_prefix self) (filename info) in
  let dname := dirname img_name in
  let '(fname, ext) := splitext (basename img_name) in
  let fidx := if isdigit fname then Some (int fname) else None in
  (dname, fname, ext, fidx).

(** The entry of the block at offset [i] from the annotated frame. *)
Definition offset_entry (self : CustomBlockDataset) (info : img_info) (i : Z)
    : option string :=
  let '(dname, fname, ext, fidx) := name_parts self info in
  block_entry (block_gap self) dname fname ext fidx i.

(** The names as the first loop leaves them, before missing neighbours are
    replaced. *)
Definition raw_names (self : CustomBlockDataset) (info : img_info)
    : list (option string) :=
  offset_entry self info <$> range (- hf_size self) (hf_size self + 1).

(** [img_name_list] when the images are read. *)
Definition img_name_list (self : CustomBlockDataset) (info : img_info)
    : result (list (option string)) :=
  let l := raw_names self info in
  let hf := Z.to_nat (hf_size self) in
  if has_none l then
    center ← getitem l hf;
    _ ← assert (if center is Some _ then true else false);
    Ok (fill_right hf (fill_left hf l))
  else Ok l.

(** [mmcv.imread(img_name)] on an entry of the list: [None] is no path. *)
Definition imread_entry (name : option string) : result Image :=
  match name with
  | Some path => imread path
  | None => Raise TypeError
  end.

(** [[f(x) for x in l]] for a call that may raise. *)
Fixpoint for_each {A B : Type} (f : A -> result B) (l : list A)
    : result (list B) :=
  match l with
  | [] => Ok []
  | x :: l' =>
      y ← f x;
      ys ← for_each f l';
      Ok (y :: ys)
  end.

(** ** [prepare_train_img] *)

(** The part on proposals: [None] on the outside is the early
    [return None]; inside, the proposals and their scores. *)
Definition split_proposals (self : CustomBlockDataset) (idx : nat)
    : result (option (option (array * option array))) :=
  match proposals self with
  | None => Ok (Some None)
  | Some all =>
      p ← getitem all idx;
      let p := take (num_max_proposals self) p in
      match p with
      | [] => Ok None
      | row :: _ =>
          let cols := length row in
          if negb ((cols =? 4) || (cols =? 5)) then Raise AssertionError
          else if cols =? 5
          then Ok (Some (Some (take 4 <$> p,
                               Some ((fun r => take 1 (drop 4 r)) <$> p))))
          else Ok (Some (Some (p, None)))
      end
  end.

(** [np.hstack([proposals, scores])] *)
Definition hstack (a b : array) : array := zip_with app a b.

(** The transforms applied to the frames: one scale and one flip for all
    of them. *)
Definition transform_frames (self : CustomBlockDataset) (img_scale : Scale)
    (flip : bool) (img_list : list Image)
    : list (Image * Shape * Shape * Factor) :=
  (fun im => img_transform self im img_scale flip (resize_keep_ratio self))
    <$> img_list.

(** Everything after the early returns, given the random draw. *)
Definition build_sample (self : CustomBlockDataset) (info : img_info)
    (img_list : list Image) (props : option (array * option array))
    (flip : bool) (img_scale : Scale) : result sample :=
  let a := ann info in
  let done := transform_frames self img_scale flip img_list in
  img ← np_stack ((fun r => r.1.1.1) <$> done);
  gt_seg ←
    (if with_seg self then
       name ← (if file_name info is Some n then Ok n else Raise KeyError);
       seg ← imread_unchanged (join (seg_prefix self) (replace_jpg_png name));
       Ok (Some (add_axis (imrescale
                   (seg_transform self (squeeze seg) img_scale flip)
                   (seg_scale_factor self))))
     else Ok None);
  (* [img_shape], [pad_shape] and [scale_factor] are the variables the last
     turn of the loop left behind *)
  '(_, img_shape, pad_shape, scale_factor) ←
      (if last done is Some r then Ok r else Raise NameError);
  let props :=
    (fun '(p, scores) =>
       let p := bbox_transform self p img_shape scale_factor flip in
       if scores is Some sc then hstack p sc else p) <$> props in
  let gt_b := bbox_transform self (bboxes a) img_shape scale_factor flip in
  gt_ign ←
    (if with_crowd self then
       ign ← (if bboxes_ignore a is Some b then Ok b else Raise KeyError);
       Ok (Some (bbox_transform self ign img_shape scale_factor flip))
     else Ok None);
  gt_m ←
    (if with_mask self then
       m ← (if masks a is Some m then Ok m else Raise KeyError);
       Ok (Some (mask_transform self m pad_shape scale_factor flip))
     else Ok None);
  Ok {| imgs := img;
        img_meta := {| ori_shape := (height info, width info, 3%Z);
                       m_img_shape := img_shape; pad_shape := pad_shape;
                       scale_factor := scale_factor; flip := flip |};
        gt_bboxes := gt_b;
        s_proposals := props;
        gt_labels := if with_label self then Some (ann_labels a) else None;
        gt_bboxes_ignore := gt_ign;
        gt_masks := gt_m;
        gt_semantic_seg := gt_seg |}.

(** [prepare_train_img]: [Ok None] is [return None]; the generator state
    comes back as the call left it. *)
Definition prepare_train_img (self : CustomBlockDataset) (idx : nat)
    (rng : Rng) : result (option sample) * Rng :=
  match
    info ← getitem (img_infos self) idx;
    names ← img_name_list self info;
    img_list ← for_each imread_entry names;
    props ← split_proposals self idx;
    match props with
    | None => Ok None
    | Some props =>
        _ ← (if with_crowd self
             then (if bboxes_ignore (ann info) is Some _ then Ok tt
                   else Raise KeyError)
             else Ok tt);
        if (length (bboxes (ann info)) =? 0) && skip_img_without_anno self
        then Ok None
        else
          _ ← (if extra_aug self is Some _ then Raise ValueError else Ok tt);
          Ok (Some (info, img_list, props))
    end
  with
  | Raise e => (Raise e, rng)
  | Ok None => (Ok None, rng)
  | Ok (Some (info, img_list, props)) =>
      let '(u, rng) := np_random_rand rng in
      let flip := negb (Qle_bool (flip_ratio self) u) in
      let '(img_scale, rng) :=
        random_scale (img_scales self) (multiscale_range self) rng in
      (Some <$> build_sample self info img_list props flip img_scale, rng)
  end.

(** ** [prepare_test_img] *)

(** What [prepare_test_img] returns: the keys ['img'], ['img_meta'] and,
    with proposals, ['proposals']. *)
Record test_data : Type := {
  t_img : list Batch;
  t_img_meta : list meta;
  t_proposals : option (list (option array))
}.

(** The names of the test block: every offset, the centre included, is
    formatted from the frame index. *)
Definition test_entry (block_gap : Z) (dname ext : string) (fidx : Z) (i : Z)
    : option string :=
  let shift := (i * block_gap)%Z in
  let fidx_other := (fidx + shift)%Z in
  let fname_other := join dname (fmt_06d fidx_other +:+ ext) in
  if negb (exists_ fname_other) then None else Some fname_other.

Definition test_name_list (self : CustomBlockDataset) (info : img_info)
    : result (list (option string)) :=
  let img_name := join (img_prefix self) (filename info) in
  let dname := dirname img_name in
  let '(fname, ext) := splitext (basename img_name) in
  fidx ← (if isdigit fname then Ok (int fname) else int_other fname);
  let l := test_entry (block_gap self) dname ext fidx
             <$> range (- hf_size self) (hf_size self + 1) in
  let hf := Z.to_nat (hf_size self) in
  if has_none l then
    center ← getitem l hf;
    _ ← assert (if center is Some _ then true else false);
    Ok (fill_right hf (fill_left hf l))
  else Ok l.

(** The local function [prepare_single] with [flip] and the proposal of
    the image. *)
Definition prepare_single (self : CustomBlockDataset) (info : img_info)
    (img : Image) (scale : Scale) (flip : bool) (proposal : option array)
    : Image * meta * option array :=
  let '(_img, img_shape, pad_shape, scale_factor) :=
    img_transform self img scale flip (resize_keep_ratio self) in
  let _img_meta :=
    {| ori_shape := (height info, width info, 3%Z);
       m_img_shape := img_shape; pad_shape := pad_shape;
       scale_factor := scale_factor; flip := flip |} in
  let _proposal :=
    (fun p =>
       let cols := if p is row :: _ then length row else 0 in
       let '(p, score) :=
         if cols =? 5
         then (take 4 <$> p, Some ((fun r => take 1 (drop 4 r)) <$> p))
         else (p, None) in
       let p := bbox_transform self p img_shape scale_factor flip in
       if score is Some sc then hstack p sc else p) <$> proposal in
  (_img, _img_meta, _proposal).

Definition prepare_test_img (self : CustomBlockDataset) (idx : nat)
    : result test_data :=
  info ← getitem (img_infos self) idx;
  names ← test_name_list self info;
  img_list ← for_each imread_entry names;
  proposal ←
    match proposals self with
    | Some all =>
        p ← getitem all idx;
        let p := take (num_max_proposals self) p in
        let ok := match p with
                  | row :: _ => (length row =? 4) || (length row =? 5)
                  | [] => true
                  end in
        if negb ok then Raise AssertionError else Ok (Some p)
    | None => Ok None
    end;
  _ ← assert (length (img_scales self) =? 1);
  scale ← getitem (img_scales self) 0;
  let done := (fun img => prepare_single self info img scale false proposal)
                <$> img_list in
  '(_, _img_meta, _proposal) ←
      (if last done is Some r then Ok r else Raise NameError);
  stacked ← torch_stack ((fun r => r.1.1) <$> done);
  Ok {| t_img := [stacked];
        t_img_meta := [_img_meta];
        t_proposals := if proposals self is Some _ then Some [_proposal]
                       else None |}.

(** ** [__getitem__] and its retry *)

(** [_rand_another]: an index drawn among the images of the same group. *)
Definition _rand_another (self : CustomBlockDataset) (idx : nat) (rng : Rng)
    : result nat * Rng :=
  match getitem (flag self) idx with
  | Raise e => (Raise e, rng)
  | Ok g =>
      let pool := filter (fun i => flag self !! i = Some g)
                         (seq 0 (length (flag self))) in
      let '(i, rng) := np_random_choice pool rng in
      (Ok i, rng)
  end.

Inductive item : Type :=
| Train (data : sample)
| Test (data : test_data).

(** The [while True] loop of [__getitem__], run for at most [fuel] calls of
    [prepare_train_img]; [None] when the fuel is used up. *)
Fixpoint train_loop (fuel : nat) (self : CustomBlockDataset) (idx : nat)
    (rng : Rng) : option (result item * Rng) :=
  match fuel with
  | 0 => None
  | S fuel' =>
      match prepare_train_img self idx rng with
      | (Raise e, rng) => Some (Raise e, rng)
      | (Ok (Some data), rng) => Some (Ok (Train data), rng)
      | (Ok None, rng) =>
          match _rand_another self idx rng with
          | (Raise e, rng) => Some (Raise e, rng)
          | (Ok idx', rng) => train_loop fuel' self idx' rng
          end
      end
  end.

Definition __getitem__ (fuel : nat) (self : CustomBlockDataset) (idx : nat)
    (rng : Rng) : option (result item * Rng) :=
  if test_mode self then Some (Test <$> prepare_test_img self idx, rng)
  else train_loop fuel self idx rng.

(** ** [__init__]: the images kept for training and their groups *)

(** [_filter_imgs]: the indices of the images whose shorter side is at
    least [min_size], appended in the order of the annotation file. *)
Definition _filter_imgs (self : CustomBlockDataset) (min_size : Z) : list nat :=
  foldl (fun valid_inds '(i, img_info) =>
           if (min_size <=? Z.min (width img_info) (height img_info))%Z
           then valid_inds ++ [i] else valid_inds)
        [] (imap pair (img_infos self)).

(** [self.flag = flag] *)
Definition with_flag (self : CustomBlockDataset) (flag : list nat)
    : CustomBlockDataset :=
  {| img_prefix := img_prefix self; block_size := block_size self;
     block_gap := block_gap self; img_infos := img_infos self;
     proposals := proposals self; img_scales := img_scales self;
     multiscale_range := multiscale_range self;
     num_max_proposals := num_max_proposals self;
     flip_ratio := flip_ratio self; with_mask := with_mask self;
     with_crowd := with_crowd self; with_label := with_label self;
     with_seg := with_seg self; seg_prefix := seg_prefix self;
     seg_scale_factor := seg_scale_factor self; test_mode := test_mode self;
     extra_aug := extra_aug self;
     resize_keep_ratio := resize_keep_ratio self;
     skip_img_without_anno := skip_img_without_anno self; flag := flag;
     img_transform := img_transform self;
     bbox_transform := bbox_transform self;
     mask_transform := mask_transform self;
     seg_transform := seg_transform self |}.

(** The loop of [_set_group_flag] over the images [i], ..., [i + n - 1]:
    [width / height] is the true division of two integers, which raises
    for a zero height. *)
Fixpoint group_loop (infos : list img_info) (flag : list nat) (i n : nat)
    : result (list nat) :=
  match n with
  | 0 => Ok flag
  | S n' =>
      img_info ← getitem infos i;
      _ ← (if (height img_info =? 0)%Z then Raise ZeroDivisionError
           else Ok tt);
      let ratio := (inject_Z (width img_info) / inject_Z (height img_info))%Q in
      let flag := if negb (Qle_bool ratio 1) then <[i := 1]> flag else flag in
      group_loop infos flag (S i) n'
  end.

(** [_set_group_flag] *)
Definition _set_group_flag (self : CustomBlockDataset)
    : result CustomBlockDataset :=
  let n := length (img_infos self) in
  flag ← group_loop (img_infos self) (replicate n 0) 0 n;
  Ok (with_flag self flag).

(** [__init__].  [args] holds the arguments under the attributes they are
    stored in, with what [mmcv.load] returned for [ann_file] and
    [proposal_file] as [img_infos] and [proposals], and the transform
    objects the constructor builds; [img_scale] is one scale or a list of
    scales (a scale is a tuple, so the check [is_list_of(.., tuple)]
    passes).  No group flag is set in test mode. *)
Definition __init__ (args : CustomBlockDataset) (img_scale : Scale + list Scale)
    (multiscale_mode : string) : result CustomBlockDataset :=
  '(infos, props) ←
     (if negb (test_mode args) then
        let valid_inds := _filter_imgs args 32 in
        infos ← for_each (getitem (img_infos args)) valid_inds;
        props ← match proposals args with
                | Some all => Some <$> for_each (getitem all) valid_inds
                | None => Ok None
                end;
        Ok (infos, props)
      else Ok (img_infos args, proposals args));
  let scales := match img_scale with inl x => [x] | inr l => l end in
  _ ← assert (String.eqb multiscale_mode "value"
              || String.eqb multiscale_mode "range");
  _ ← assert (Qle_bool 0 (flip_ratio args) && Qle_bool (flip_ratio args) 1);
  let self :=
    {| img_prefix := img_prefix args; block_size := block_size args;
       block_gap := block_gap args; img_infos := infos; proposals := props;
       img_scales := scales;
       multiscale_range := String.eqb multiscale_mode "range";
       num_max_proposals := num_max_proposals args;
       flip_ratio := flip_ratio args; with_mask := with_mask args;
       with_crowd := with_crowd args; with_label := with_label args;
       with_seg := with_seg args; seg_prefix := seg_prefix args;
       seg_scale_factor := seg_scale_factor args;
       test_mode := test_mode args; extra_aug := extra_aug args;
       resize_keep_ratio := resize_keep_ratio args;
       skip_img_without_anno := skip_img_without_anno args; flag := [];
       img_transform := img_transform args;
       bbox_transform := bbox_transform args;
       mask_transform := mask_transform args;
       seg_transform := seg_transform args |} in
  if negb (test_mode args) then _set_group_flag self else Ok self.

End dataset.

End custom_block.

(* ===================================================================== *)
(** * Concrete instances, for the examples *)
(* ===================================================================== *)

Module toy_detector.
Import base.

(** A tensor known by its shape only. *)
#[export] Instance shape_only : TensorShape (list nat) := fun t => t.

Inductive answer : Set := loss | single_scale | multi_scale.

(** A detector whose three methods say which of them ran. *)
Definition det : BaseDetector (list nat) nat unit answer :=
  {| fp16_enabled := false;
     forward_train := fun _ _ _ => Ok loss;
     simple_test := fun _ _ _ => Ok single_scale;
     aug_test := fun _ _ _ => Ok multi_scale |}.

Definition one_image : value (list nat) nat := VTensor [1; 3; 32; 32].
Definition two_images : value (list nat) nat := VTensor [2; 3; 32; 32].

(** Images by name for the drawing; a score is written as its
    hundredths. *)
#[export] Instance plot : base.Plot string := {|
  base.swap_channels := fun im => im +:+ "[rgb]";
  base.fmt_2f := fun x =>
    let h := (x * 100)%Q in
    NilEmpty.string_of_uint (N.to_uint (Z.to_N (Qnum h / Z.pos (Qden h))))
|}.

(** Three detections of five columns, the second below one half, and
    the names of two classes. *)
Definition detections : list (list Q) :=
  [[0; 0; 10; 10; 9 # 10]; [5; 5; 20; 20; 3 # 10]; [1; 2; 8; 9; 7 # 10]]%Q.
Definition names : list string := ["car"; "bus"].

End toy_detector.

Module symbolic.
Import bfp.

(** Tensors as the record of the framework calls that built them, with
    the shape each call gives its result. *)
Inductive sym : Type :=
| Input (name : nat) (shape : list nat)
| Pool (x : sym) (s : list nat)
| Nearest (x : sym) (s : list nat)
| Plus (x y : sym)
| IntPlus (k : Z) (x : sym)
| Over (x : sym) (k : Z)
| Concat (xs : list sym) (dim : nat)
| Conv (cin cout : nat) (kernel padding : nat * nat) (x : sym)
| NonLocal (c : nat) (x : sym).

(** The shape after a convolution with stride 1. *)
Definition conv_shape (cout : nat) (kernel padding : nat * nat)
    (s : list nat) : list nat :=
  match s with
  | [n; _; h; w] =>
      [n; cout; h + 2 * padding.1 + 1 - kernel.1;
                w + 2 * padding.2 + 1 - kernel.2]
  | _ => s
  end.

(** The shape after concatenation along [dim]. *)
Definition cat_shape (shapes : list (list nat)) (dim : nat) : list nat :=
  match shapes with
  | [] => []
  | s :: _ =>
      <[dim := foldr Nat.add 0 ((fun t => default 0 (t !! dim)) <$> shapes)]> s
  end.

Fixpoint shape_of (t : sym) : list nat :=
  match t with
  | Input _ s => s
  | Pool x s | Nearest x s => take 2 (shape_of x) ++ s
  | Plus x y => zip_with Nat.max (shape_of x) (shape_of y)
  | IntPlus _ x | Over x _ => shape_of x
  | Concat xs dim => cat_shape (map shape_of xs) dim
  | Conv _ cout kernel padding x => conv_shape cout kernel padding (shape_of x)
  | NonLocal _ x => shape_of x
  end.

#[export] Instance framework : Framework sym := {|
  size := shape_of;
  adaptive_max_pool2d := Pool;
  interpolate := Nearest;
  add := Plus;
  radd := IntPlus;
  div := Over;
  cat := Concat;
  ConvModule := fun cin cout k p => Conv cin cout (k, k) (p, p);
  NonLocal2D := NonLocal;
  Conv2d := Conv
|}.

(** A pyramid of three levels with 8 channels. *)
Definition c2 : sym := Input 0 [1; 8; 32; 32].
Definition c3 : sym := Input 1 [1; 8; 16; 16].
Definition c4 : sym := Input 2 [1; 8; 8; 8].
Definition pyramid : list sym := [c2; c3; c4].

(** The Libra R-CNN setting on the pyramid: refine at level 1 with a
    non-local block. *)
Definition libra : result (BFP sym) :=
  BFP_init (Chan 8) 3 1 (Some non_local) false None.

End symbolic.

Module toy_bbox.
Import anchor_target.
#[local] Open Scope Q_scope.

(** A stand-in for the assigner and sampler: an anchor is positive for the
    first ground-truth box that shares its top-left corner and negative
    when there is none; every anchor is sampled. *)
Definition same_corner (a g : box) : bool :=
  Qeq_bool (bx1 a) (bx1 g) && Qeq_bool (by1 a) (by1 g).

Fixpoint match_gt (gts : list box) (i : nat) (a : box) : option (nat * box) :=
  match gts with
  | [] => None
  | g :: gts' => if same_corner a g then Some (i, g) else match_gt gts' (S i) a
  end.

Definition corner_assign (anchors gts : list box)
    : list (nat * box * option (nat * box)) :=
  imap (fun k a => (k, a, match_gt gts 0 a)) anchors.

Definition corner_sample (assigned : list (nat * box * option (nat * box)))
    : SamplingResult :=
  let pos := omap (fun '(k, a, m) => (fun ig => (k, a, ig)) <$> m) assigned in
  {| pos_inds := (fun t => t.1.1) <$> pos;
     neg_inds := omap (fun '(k, _, m) => if m is None then Some k else None)
                      assigned;
     pos_bboxes := (fun t => t.1.2) <$> pos;
     pos_gt_bboxes := (fun t => t.2.2) <$> pos;
     pos_assigned_gt_inds := (fun t => t.2.1) <$> pos |}.

(** A stand-in for the encoding: the coordinate differences, shifted by the
    means and scaled by the deviations. *)
Definition offset (means stds : list Q) (p g : box) : box :=
  let enc i d := (d - default 0 (means !! i)) / default 1 (stds !! i) in
  Box (enc 0%nat (bx1 g - bx1 p)) (enc 1%nat (by1 g - by1 p))
      (enc 2%nat (bx2 g - bx2 p)) (enc 3%nat (by2 g - by2 p)).

#[export] Instance corners : BBox := {|
  AssignerCfg := unit;
  SamplerCfg := unit;
  AssignResult := list (nat * box * option (nat * box));
  assign_and_sample := fun anchors gts _ _ _ _ =>
    (corner_assign anchors gts, corner_sample (corner_assign anchors gts));
  assign := fun _ anchors gts _ _ => corner_assign anchors gts;
  PseudoSampler_sample := fun assigned _ _ => corner_sample assigned;
  bbox2delta := fun ps gs means stds => zip_with (offset means stds) ps gs
|}.

(** A 32 x 32 image, four anchors on two levels (the third reaches outside
    the image), one ground-truth box at the corner of the fourth. *)
Definition image : img_meta := {| img_shape := (32, 32, 3)%Z |}.
Definition a0 : box := Box 0 0 15 15.
Definition a1 : box := Box 8 8 23 23.
Definition a2 : box := Box 24 24 40 40.
Definition a3 : box := Box 16 16 31 31.
Definition flat : list box := [a0; a1; a2; a3].
Definition all_valid : list bool := [true; true; true; true].
Definition truth : list box := [Box 16 16 29 30].
Definition means : list Q := [0; 0; 0; 0].
Definition stds : list Q := [1; 1; 2; 2].

(** The training configuration of an RPN head, and one that weighs
    positives. *)
Definition rpn : cfg :=
  {| allowed_border := 0; pos_weight := -1; assigner := tt; sampler := tt |}.
Definition weighted : cfg :=
  {| allowed_border := 0; pos_weight := 2; assigner := tt; sampler := tt |}.

(** The lists a caller passes for one image, and for two images of which
    the second has only the anchor that leaves the image. *)
Definition one_image : lists :=
  {| anchor_list := [Levels [[a0; a1]; [a2; a3]]];
     valid_flag_list := [Levels [[true; true]; [true; true]]] |}.
Definition two_images : lists :=
  {| anchor_list := [Levels [[a0; a1]; [a2; a3]]; Levels [[a2]; [a2]]];
     valid_flag_list := [Levels [[true; true]; [true; true]];
                         Levels [[true]; [true]]] |}.

(** Two images of which the second comes with flags for one level only. *)
Definition ragged : lists :=
  {| anchor_list := [Levels [[a0; a1]; [a2; a3]]; Levels [[a2]; [a2]]];
     valid_flag_list := [Levels [[true; true]; [true; true]];
                         Levels [[true]]] |}.

(** One class label per ground-truth box. *)
Definition classes : list Z := [7%Z].

End toy_bbox.

Module toy_disk.
Import custom_block.

(** Images as the record of what was done to them. *)
Inductive picture : Set :=
| File (path : string)
| Resized (p : picture) (scale : nat * nat) (flip keep_ratio : bool)
| Derived (p : picture).

(** The frames on disk: frame 25 is missing. *)
Definition disk : list string :=
  ["data/000010.jpg"; "data/000015.jpg"; "data/000020.jpg"; "data/000030.jpg"].

Fixpoint rfind (c : ascii) (s : string) (i : nat) (found : option nat)
    : option nat :=
  match s with
  | EmptyString => found
  | String a s' => rfind c s' (S i) (if Ascii.eqb a c then Some i else found)
  end.

(** Paths of the form [dir/stem.ext], which is all the examples use. *)
Definition split_at_last (c : ascii) (s : string) : option (string * string) :=
  (fun i => (String.substring 0 i s, String.substring i (String.length s - i) s))
    <$> rfind c s 0 None.

#[export] Instance env : Env := {|
  Image := picture;
  Batch := list picture;
  Masks := unit;
  Scale := nat * nat;
  Shape := nat * nat;
  Factor := nat;
  ExtraAug := unit;
  Rng := list nat;
  join := fun a b => if String.eqb a "" then b else a +:+ "/" +:+ b;
  dirname := fun p => if split_at_last "/" p is Some (d, _) then d else "";
  basename := fun p =>
    if split_at_last "/" p is Some (_, b)
    then String.substring 1 (String.length b - 1) b else p;
  splitext := fun b => default (b, "") (split_at_last "." b);
  exists_ := fun p => bool_decide (p ∈ disk);
  imread := fun p => if bool_decide (p ∈ disk) then Ok (File p)
                     else Raise FileNotFoundError;
  imread_unchanged := fun p => Ok (File p);
  np_stack := fun l => if l is [] then Raise ValueError else Ok l;
  torch_stack := fun l => if l is [] then Raise RuntimeError else Ok l;
  int_other := fun _ => Raise ValueError;
  np_random_rand := fun rng => (Z.of_nat (hd 0 rng) # 10, tl rng);
  random_scale := fun scales _ rng =>
    (nth (hd 0 rng `mod` length scales) scales (0, 0), tl rng);
  np_random_choice := fun pool rng =>
    (nth (hd 0 rng `mod` length pool) pool 0, tl rng);
  squeeze := Derived;
  imrescale := fun p _ => Derived p;
  add_axis := Derived;
  replace_jpg_png := fun s => s
|}.

Definition annotated : img_info :=
  {| filename := "000020.jpg"; file_name := None;
     width := 64; height := 48;
     ann := {| bboxes := [[1; 2; 3; 4]%Q]; ann_labels := [1%Z];
               bboxes_ignore := None; masks := None |} |}.

(** An image without ground truth, which the loader skips. *)
Definition unannotated : img_info :=
  {| filename := "000030.jpg"; file_name := None;
     width := 64; height := 48;
     ann := {| bboxes := []; ann_labels := [];
               bboxes_ignore := None; masks := None |} |}.

Definition frames (block_size : Z) : CustomBlockDataset :=
  {| img_prefix := "data"; block_size := block_size; block_gap := 5;
     img_infos := [annotated; unannotated];
     proposals := None;
     img_scales := [(1333, 800); (1000, 600)];
     multiscale_range := false;
     num_max_proposals := 1000;
     flip_ratio := 1 # 2;
     with_mask := false; with_crowd := false; with_label := true;
     with_seg := false; seg_prefix := ""; seg_scale_factor := 1;
     test_mode := false; extra_aug := None;
     resize_keep_ratio := true; skip_img_without_anno := true;
     flag := [1; 1];
     img_transform := fun im scale flip keep =>
       (Resized im scale flip keep, scale, scale, 1);
     bbox_transform := fun a _ _ _ => a;
     mask_transform := fun m _ _ _ => m;
     seg_transform := fun im _ _ => Derived im |}.

(** An image whose annotation gives no height, one higher than wide, and
    one whose frame is not on disk. *)
Definition zero_high : img_info :=
  {| filename := "000010.jpg"; file_name := None;
     width := 40; height := 0;
     ann := {| bboxes := []; ann_labels := [];
               bboxes_ignore := None; masks := None |} |}.

Definition portrait : img_info :=
  {| filename := "000015.jpg"; file_name := None;
     width := 48; height := 64;
     ann := {| bboxes := [[5; 6; 7; 8]%Q]; ann_labels := [2%Z];
               bboxes_ignore := None; masks := None |} |}.

Definition missing : img_info :=
  {| filename := "000025.jpg"; file_name := None;
     width := 64; height := 48;
     ann := {| bboxes := [[1; 2; 3; 4]%Q]; ann_labels := [1%Z];
               bboxes_ignore := None; masks := None |} |}.

(** A loader of blocks of five frames over given annotations. *)
Definition loader (infos : list img_info) (props : option (list array))
    (test : bool) (aug : option unit) : CustomBlockDataset :=
  {| img_prefix := "data"; block_size := 5; block_gap := 5;
     img_infos := infos;
     proposals := props;
     img_scales := [(1333, 800)];
     multiscale_range := false;
     num_max_proposals := 1000;
     flip_ratio := 1 # 2;
     with_mask := false; with_crowd := false; with_label := true;
     with_seg := false; seg_prefix := ""; seg_scale_factor := 1;
     test_mode := test; extra_aug := aug;
     resize_keep_ratio := true; skip_img_without_anno := true;
     flag := [1; 1];
     img_transform := fun im scale flip keep =>
       (Resized im scale flip keep, scale, scale, 1);
     bbox_transform := fun a _ _ _ => a;
     mask_transform := fun m _ _ _ => m;
     seg_transform := fun im _ _ => Derived im |}.

(** The arguments of a training set with one proposal array per image,
    a training set with extra augmentation, and a test set. *)
Definition loaded : CustomBlockDataset :=
  loader [annotated; zero_high; portrait]
    (Some [[[1; 2; 3; 4]%Q]; [[0; 0; 1; 1]%Q]; [[5; 6; 7; 8]%Q]]) false None.
Definition augmented : CustomBlockDataset :=
  loader [annotated; unannotated] None false (Some tt).
Definition testing : CustomBlockDataset :=
  loader [annotated; missing] None true None.

End toy_disk.

(* ===================================================================== *)
(** * Laws of the error monad *)
(* ===================================================================== *)

Section py_props.
Context {A B : Type}.

Lemma bind_Ok (a : A) (k : A → result B) : (Ok a ≫= k) = k a.
Proof. reflexivity. Qed.

Lemma bind_Raise (e : exn) (k : A → result B) : (Raise e ≫= k) = Raise e.
Proof. reflexivity. Qed.

Lemma bind_Ok_inv (m : result A) (k : A → result B) (b : B) :
  m ≫= k = Ok b → ∃ a, m = Ok a ∧ k a = Ok b.
Proof. destruct m as [a|e]; [eauto|discriminate]. Qed.

Lemma fmap_Ok (f : A → B) (a : A) : f <$> Ok a = Ok (f a).
Proof. reflexivity. Qed.

Lemma fmap_Ok_inv (f : A → B) (m : result A) (b : B) :
  f <$> m = Ok b → ∃ a, m = Ok a ∧ b = f a.
Proof. destruct m as [a|e]; [|discriminate]. intros [= <-]. eauto. Qed.

Lemma getitem_Ok (l : list A) (i : nat) (a : A) :
  l !! i = Some a → getitem l i = Ok a.
Proof. unfold getitem. intros ->. reflexivity. Qed.

Lemma getitem_Ok_inv (l : list A) (i : nat) (a : A) :
  getitem l i = Ok a → l !! i = Some a.
Proof. unfold getitem. destruct (l !! i); [congruence|discriminate]. Qed.

Lemma assert_Ok_inv (b : bool) (u : unit) : assert b = Ok u → b = true.
Proof. destruct b; [reflexivity|discriminate]. Qed.

End py_props.

(** Steps through the binds of a computation whose head is known. *)
Ltac py_step :=
  repeat first [ rewrite bind_Ok | rewrite bind_Raise | rewrite fmap_Ok ].

(* ===================================================================== *)
(** * Properties of the detector base class *)
(* ===================================================================== *)

Section base_props.
Import base.
Context {Tensor : Type} `{!TensorShape Tensor} {Meta Kwargs Out : Type}.
#[local] Abbreviation value := (value Tensor Meta).
#[local] Abbreviation BaseDetector := (BaseDetector Tensor Meta Kwargs Out).
Implicit Types (self : BaseDetector) (imgs img_metas : value) (kw : Kwargs).

(** C2.  [forward] with [return_loss=True] is [forward_train] on the same
    arguments, and with [return_loss=False] it is [forward_test] on them:
    same value returned, same exception raised. *)
Theorem forward_dispatch self (img img_meta : value) kw :
  forward self img img_meta true kw = forward_train self img img_meta kw ∧
  forward self img img_meta false kw = forward_test self img img_meta kw.
Proof. split; reflexivity. Qed.

Lemma check_lists_ok imgs img_metas :
  is_list imgs = true → is_list img_metas = true →
  check_lists [imgs; img_metas] = Ok tt.
Proof. intros H1 H2. unfold check_lists. simpl. rewrite H1, H2. reflexivity. Qed.

Lemma check_lists_type_error imgs img_metas :
  is_list imgs = false ∨ is_list img_metas = false →
  check_lists [imgs; img_metas] = Raise TypeError.
Proof.
  intros H. unfold check_lists. simpl.
  destruct (is_list imgs); simpl; [|reflexivity].
  destruct H as [H|H]; [discriminate|]. rewrite H. reflexivity.
Qed.

(** [forward_test] on two lists of one length whose first image is a tensor
    with [n] as its first dimension. *)
Lemma forward_test_lists self (img0 meta0 : value) (l ml : list value) kw n :
  length l = length ml →
  size0 img0 = Ok n →
  forward_test self (VList (img0 :: l)) (VList (meta0 :: ml)) kw =
    if n =? 1 then
      if length l =? 0 then simple_test self img0 meta0 kw
      else aug_test self (VList (img0 :: l)) (VList (meta0 :: ml)) kw
    else Raise AssertionError.
Proof.
  intros Hlen Hsz. unfold forward_test.
  rewrite check_lists_ok by reflexivity. py_step.
  cbn [length]. rewrite Hlen, Nat.eqb_refl. cbn [negb].
  rewrite (getitem_Ok (img0 :: l) 0 img0) by reflexivity. py_step.
  rewrite Hsz. py_step.
  destruct (n =? 1); cbn [assert]; py_step; [|reflexivity].
  destruct ml; reflexivity.
Qed.

(** C7, amended.  [forward_test] raises [TypeError] when [imgs] or
    [img_metas] is not a list and [ValueError] when the two lists differ in
    length.  On lists of one length whose first image is a tensor, it
    raises [AssertionError] unless that tensor's first dimension is 1; when
    it is 1, one augmentation gives [simple_test(imgs[0], img_metas[0])] and
    more than one give [aug_test(imgs, img_metas)]. *)
Theorem forward_test_contract self imgs img_metas kw :
  (is_list imgs = false ∨ is_list img_metas = false →
   forward_test self imgs img_metas kw = Raise TypeError) ∧
  (∀ l ml, imgs = VList l → img_metas = VList ml →
     length l ≠ length ml →
     forward_test self imgs img_metas kw = Raise ValueError) ∧
  (∀ img0 l meta0 ml n, imgs = VList (img0 :: l) →
     img_metas = VList (meta0 :: ml) → length l = length ml →
     size0 img0 = Ok n →
     (n ≠ 1 → forward_test self imgs img_metas kw = Raise AssertionError) ∧
     (n = 1 → l = [] →
      forward_test self imgs img_metas kw = simple_test self img0 meta0 kw) ∧
     (n = 1 → l ≠ [] →
      forward_test self imgs img_metas kw = aug_test self imgs img_metas kw)).
Proof.
  split; [|split].
  - intros H. unfold forward_test.
    rewrite check_lists_type_error by exact H. reflexivity.
  - intros l ml -> -> Hne. unfold forward_test.
    rewrite check_lists_ok by reflexivity. py_step.
    apply Nat.eqb_neq in Hne. rewrite Hne. reflexivity.
  - intros img0 l meta0 ml n -> -> Hlen Hsz.
    rewrite (forward_test_lists _ _ _ _ _ _ n Hlen Hsz).
    split; [|split].
    + intros Hn. apply Nat.eqb_neq in Hn. rewrite Hn. reflexivity.
    + intros -> ->. reflexivity.
    + intros -> Hl. rewrite Nat.eqb_refl.
      destruct l; [congruence|reflexivity].
Qed.

End base_props.

Section base_examples.
Import base toy_detector.

(** C7 as stated fails: one augmentation, lists of one length, and the
    call raises [AssertionError] instead of returning
    [simple_test(imgs[0], img_metas[0])], because the image batch holds two
    images. *)
Lemma forward_test_two_images_per_gpu :
  let imgs := VList [two_images] in
  let img_metas := VList [VMeta 0] in
  is_list imgs = true ∧ is_list img_metas = true ∧
  forward_test det imgs img_metas tt = Raise AssertionError ∧
  simple_test det two_images (VMeta 0) tt = Ok single_scale ∧
  forward_test det imgs img_metas tt ≠ simple_test det two_images (VMeta 0) tt.
Proof. cbv zeta. repeat split; try reflexivity. discriminate. Qed.

(** The contract at the toy detector: one image per batch. *)
Lemma forward_test_contract_witness :
  forward_test det (VList [one_image]) (VList [VMeta 0]) tt = Ok single_scale ∧
  forward_test det (VList [one_image; one_image]) (VList [VMeta 0; VMeta 1]) tt
    = Ok multi_scale ∧
  forward_test det (VList [two_images]) (VList [VMeta 0]) tt
    = Raise AssertionError ∧
  forward_test det (VList [one_image]) VNone tt = Raise TypeError ∧
  forward_test det (VList [one_image]) (VList []) tt = Raise ValueError.
Proof.
  pose proof (forward_test_contract det (VList [one_image]) (VList [VMeta 0]) tt)
    as (_ & _ & H1).
  pose proof (forward_test_contract det (VList [one_image; one_image])
                (VList [VMeta 0; VMeta 1]) tt) as (_ & _ & H2).
  pose proof (forward_test_contract det (VList [two_images]) (VList [VMeta 0]) tt)
    as (_ & _ & H3).
  pose proof (forward_test_contract det (VList [one_image]) VNone tt)
    as (H4 & _ & _).
  pose proof (forward_test_contract det (VList [one_image]) (VList []) tt)
    as (_ & H5 & _).
  split; [|split; [|split; [|split]]].
  - destruct (H1 one_image [] (VMeta 0) [] 1 eq_refl eq_refl eq_refl eq_refl)
      as (_ & Hs & _).
    exact (Hs eq_refl eq_refl).
  - destruct (H2 one_image [one_image] (VMeta 0) [VMeta 1] 1
                eq_refl eq_refl eq_refl eq_refl) as (_ & _ & Ha).
    exact (Ha eq_refl ltac:(discriminate)).
  - destruct (H3 two_images [] (VMeta 0) [] 2 eq_refl eq_refl eq_refl eq_refl)
      as (Hb & _).
    exact (Hb ltac:(discriminate)).
  - exact (H4 (or_intror eq_refl)).
  - exact (H5 [one_image] [] eq_refl eq_refl ltac:(discriminate)).
Defined.

End base_examples.

(* ===================================================================== *)
(** * Properties of the necks *)
(* ===================================================================== *)

Section bfp_props.
Import bfp.
Context {Tensor : Type} `{!Framework Tensor}.
#[local] Abbreviation BFP := (BFP Tensor).
#[local] Abbreviation FRCNBFP := (FRCNBFP Tensor).
#[local] Abbreviation output := (output Tensor).
Implicit Types (x y bsf : Tensor) (inputs feats outs : list Tensor).

(** ** The two loops, as maps over the inputs *)

Lemma gather_loop_spec rl gs inputs n : ∀ i feats,
  i + n = length inputs →
  gather_loop rl gs inputs i n feats =
    Ok (feats ++ imap (fun j => gather rl gs (i + j)) (drop i inputs)).
Proof.
  induction n as [|n IH]; intros i feats Hn; cbn [gather_loop].
  - rewrite drop_ge by lia. cbn. rewrite app_nil_r. reflexivity.
  - destruct (lookup_lt_is_Some_2 inputs i ltac:(lia)) as [x Hx].
    rewrite (getitem_Ok _ _ _ Hx). py_step.
    rewrite IH by lia. f_equal.
    rewrite (drop_S _ _ _ Hx). cbn [imap].
    rewrite <- app_assoc. cbn [app]. rewrite Nat.add_0_r.
    do 2 f_equal. apply imap_ext. intros j y _. cbn. f_equal. lia.
Qed.

Lemma scatter_loop_spec rl bsf inputs n : ∀ i outs,
  i + n = length inputs →
  scatter_loop rl bsf inputs i n outs =
    Ok (outs ++ imap (fun j => scatter rl bsf (i + j)) (drop i inputs)).
Proof.
  induction n as [|n IH]; intros i outs Hn; cbn [scatter_loop].
  - rewrite drop_ge by lia. cbn. rewrite app_nil_r. reflexivity.
  - destruct (lookup_lt_is_Some_2 inputs i ltac:(lia)) as [x Hx].
    rewrite (getitem_Ok _ _ _ Hx). py_step.
    rewrite IH by lia. f_equal.
    rewrite (drop_S _ _ _ Hx). cbn [imap].
    rewrite <- app_assoc. cbn [app]. rewrite Nat.add_0_r.
    do 2 f_equal. apply imap_ext. intros j y _. cbn. f_equal. lia.
Qed.

(** ** What [__init__] establishes *)

Lemma BFP_init_multi_level ch nl rl rt oc (self : BFP) :
  BFP_init ch nl rl rt false oc = Ok self →
  num_levels self = nl ∧ refine_level self = rl ∧ rl < nl ∧
  refine_type self = rt ∧ output_single_lvl self = false ∧
  match rt with
  | None => refine self = None
  | Some conv => ∃ c, ch = Chan c ∧ refine self = Some (ConvModule c c 3 1)
  | Some non_local => ∃ c, ch = Chan c ∧ refine self = Some (NonLocal2D c)
  end.
Proof.
  unfold BFP_init. intros H.
  apply bind_Ok_inv in H as ([] & Hlt & H).
  apply assert_Ok_inv, Nat.ltb_lt in Hlt.
  apply bind_Ok_inv in H as (layer & Hl & [= <-]). cbn.
  repeat split; try done.
  destruct rt as [[]|].
  - apply bind_Ok_inv in Hl as (c & Hc & [= <-]).
    destruct ch; [|discriminate]. injection Hc as ->. eauto.
  - apply bind_Ok_inv in Hl as (c & Hc & [= <-]).
    destruct ch; [|discriminate]. injection Hc as ->. eauto.
  - injection Hl as <-. reflexivity.
Qed.

(** ** [BFP.forward] without [output_single_lvl] *)

Lemma BFP_forward_multi_level ch nl rl rt oc (self : BFP) inputs :
  BFP_init ch nl rl rt false oc = Ok self →
  length inputs = nl →
  ∃ x_ref f0 fs,
    inputs !! rl = Some x_ref ∧
    imap (gather rl (spatial x_ref)) inputs = f0 :: fs ∧
    BFP_forward self inputs =
      Ok (OTuple (imap (scatter rl (integrated self f0 fs)) inputs)).
Proof.
  intros Hinit Hlen.
  destruct (BFP_init_multi_level _ _ _ _ _ _ Hinit)
    as (Hnl & Hrl & Hlt & Hrt & Hsingle & Hlayer).
  destruct (lookup_lt_is_Some_2 inputs rl ltac:(lia)) as [x_ref Hx].
  destruct (imap (gather rl (spatial x_ref)) inputs) as [|f0 fs] eqn:Hfeats.
  { apply (f_equal length) in Hfeats. rewrite length_imap in Hfeats.
    cbn in Hfeats. lia. }
  exists x_ref, f0, fs. split; [exact Hx|]. split; [exact Hfeats|].
  unfold BFP_forward. rewrite Hnl, Hrl, Hsingle, Hrt, Hlen, Nat.eqb_refl.
  cbn [assert negb]. py_step. rewrite (getitem_Ok _ _ _ Hx). py_step.
  rewrite gather_loop_spec by (cbn; lia). py_step.
  cbn [app drop]. setoid_rewrite Hfeats. cbn [average]. py_step.
  assert (Hbsf : (if rt is Some _
                  then call_refine self
                         (div (foldl add (radd 0 f0) fs)
                            (Z.of_nat (length (f0 :: fs))))
                  else Ok (div (foldl add (radd 0 f0) fs)
                             (Z.of_nat (length (f0 :: fs)))))
                 = Ok (integrated self f0 fs)).
  { unfold integrated, call_refine. cbn [length].
    destruct rt as [[]|].
    - destruct Hlayer as (c & _ & ->). reflexivity.
    - destruct Hlayer as (c & _ & ->). reflexivity.
    - rewrite Hlayer. reflexivity. }
  rewrite Hbsf. py_step.
  rewrite scatter_loop_spec by (cbn; lia). py_step. reflexivity.
Qed.

(** C3.  For a [BFP] built by [__init__] with [output_single_lvl]
    disabled and an input of [num_levels] maps: every level is resized to
    the spatial size of the [refine_level] input, by adaptive max pooling
    below [refine_level] and by nearest interpolation from it on; the
    resized maps are summed, divided by [num_levels] and passed through the
    refine layer when there is one; and output [i] is [inputs[i]] plus that
    feature resized to the spatial size of [inputs[i]]. *)
Theorem BFP_forward_gather_refine_scatter ch nl rl rt oc (self : BFP) inputs :
  BFP_init ch nl rl rt false oc = Ok self →
  length inputs = nl →
  ∃ x_ref f0 fs bsf outs,
    inputs !! rl = Some x_ref ∧
    length (f0 :: fs) = nl ∧
    (∀ i x, inputs !! i = Some x →
       (f0 :: fs) !! i =
         Some (if i <? rl then adaptive_max_pool2d x (spatial x_ref)
               else interpolate x (spatial x_ref))) ∧
    (is_Some (refine self) ↔ is_Some rt) ∧
    bsf = (let mean := div (foldl add (radd 0 f0) fs) (Z.of_nat nl) in
           match refine self with
           | Some layer => layer mean
           | None => mean
           end) ∧
    BFP_forward self inputs = Ok (OTuple outs) ∧
    length outs = nl ∧
    (∀ i x, inputs !! i = Some x →
       outs !! i =
         Some (add (if i <? rl then interpolate bsf (spatial x)
                    else adaptive_max_pool2d bsf (spatial x)) x)).
Proof.
  intros Hinit Hlen.
  destruct (BFP_forward_multi_level _ _ _ _ _ _ _ Hinit Hlen)
    as (x_ref & f0 & fs & Hx & Hfeats & Hfwd).
  destruct (BFP_init_multi_level _ _ _ _ _ _ Hinit)
    as (_ & _ & _ & _ & _ & Hlayer).
  assert (Hlf : length (f0 :: fs) = nl).
  { rewrite <- Hfeats, length_imap. exact Hlen. }
  exists x_ref, f0, fs, (integrated self f0 fs),
    (imap (scatter rl (integrated self f0 fs)) inputs).
  split; [exact Hx|]. split; [exact Hlf|]. split; [|split; [|split; [|split; [|split]]]].
  - intros i x Hi. rewrite <- Hfeats, list_lookup_imap, Hi. reflexivity.
  - destruct rt as [[]|].
    + destruct Hlayer as (c & _ & ->). split; eauto.
    + destruct Hlayer as (c & _ & ->). split; eauto.
    + rewrite Hlayer. split; intros [? [=]].
  - unfold integrated. cbn [length] in Hlf. rewrite Hlf. reflexivity.
  - exact Hfwd.
  - rewrite length_imap. exact Hlen.
  - intros i x Hi. rewrite list_lookup_imap, Hi. unfold scatter.
    destruct (i <? rl); reflexivity.
Qed.

(** ** Shapes *)

Section shapes.
Context `{!ShapeLaws Tensor}.





End shapes.

End bfp_props.

Section bfp_examples.
Import bfp symbolic.






Lemma BFP_forward_gather_refine_scatter_witness :
  ∃ self,
    libra = Ok self ∧
    let g := [16; 16] in
    let bsf :=
      NonLocal 8 (Over (Plus (Plus (IntPlus 0 (Pool c2 g)) (Nearest c3 g))
                          (Nearest c4 g)) 3) in
    BFP_forward self pyramid =
      Ok (OTuple [Plus (Nearest bsf [32; 32]) c2;
                  Plus (Pool bsf [16; 16]) c3;
                  Plus (Pool bsf [8; 8]) c4]).
Proof.
  destruct libra as [self|] eqn:Hinit; [|discriminate].
  destruct (@BFP_forward_gather_refine_scatter sym framework
              (Chan 8) 3 1 (Some non_local) None self pyramid Hinit eq_refl)
    as (x_ref & f0 & fs & bsf & outs & Hx & Hlf & Hfeats & Hlayer & Hbsf
        & Hfwd & Hlen & Houts).
  exists self. split; [reflexivity|]. cbv zeta.
  rewrite Hfwd. do 2 f_equal.
  injection Hx as <-.
  destruct fs as [|f1 [|f2 [|]]]; try discriminate.
  pose proof (Hfeats 0 c2 eq_refl) as [= ->].
  pose proof (Hfeats 1 c3 eq_refl) as [= ->].
  pose proof (Hfeats 2 c4 eq_refl) as [= ->].
  assert (Hr : refine self = Some (NonLocal 8)).
  { vm_compute in Hinit. injection Hinit as <-. reflexivity. }
  rewrite Hr in Hbsf. cbn in Hbsf.
  destruct outs as [|o0 [|o1 [|o2 [|]]]]; try discriminate.
  pose proof (Houts 0 c2 eq_refl) as [= ->].
  pose proof (Houts 1 c3 eq_refl) as [= ->].
  pose proof (Houts 2 c4 eq_refl) as [= ->].
  rewrite Hbsf. reflexivity.
Defined.

End bfp_examples.

(* ===================================================================== *)
(** * Properties of the anchor targets *)
(* ===================================================================== *)

(** ** Index assignment *)

Section index_props.
Import anchor_target.
Context {A : Type}.
Implicit Types (data ret vals : list A) (inds : list nat) (mask : list bool).

Lemma length_fill data inds (v : A) : length (fill data inds v) = length data.
Proof.
  unfold fill. revert data.
  induction inds as [|i inds IH]; intros data; cbn [foldl]; [reflexivity|].
  rewrite IH. apply length_insert.
Qed.

Lemma lookup_fill_notin data inds (v : A) j :
  j ∉ inds → fill data inds v !! j = data !! j.
Proof.
  unfold fill. revert data.
  induction inds as [|i inds IH]; intros data Hj; cbn [foldl]; [reflexivity|].
  apply not_elem_of_cons in Hj as [Hne Hj].
  rewrite IH by exact Hj. apply list_lookup_insert_ne. congruence.
Qed.

Lemma lookup_fill_in data inds (v : A) j :
  j ∈ inds → j < length data → fill data inds v !! j = Some v.
Proof.
  unfold fill. revert data.
  induction inds as [|i inds IH]; intros data Hj Hlt; cbn [foldl].
  - apply elem_of_nil in Hj as [].
  - destruct (decide (j ∈ inds)) as [Hin|Hnin].
    + apply IH; [exact Hin|]. rewrite length_insert. exact Hlt.
    + apply elem_of_cons in Hj as [->|Hin]; [|contradiction].
      fold (fill (<[i:=v]> data) inds v). rewrite lookup_fill_notin by exact Hnin.
      apply list_lookup_insert_eq. exact Hlt.
Qed.

Lemma length_put data inds vals : length (put data inds vals) = length data.
Proof.
  unfold put. revert data vals.
  induction inds as [|i inds IH]; intros data [|v vals]; cbn; try reflexivity.
  rewrite IH. apply length_insert.
Qed.

Lemma lookup_put_notin data inds vals j :
  j ∉ inds → put data inds vals !! j = data !! j.
Proof.
  unfold put. revert data vals.
  induction inds as [|i inds IH]; intros data [|v vals] Hj; cbn;
    try reflexivity.
  apply not_elem_of_cons in Hj as [Hne Hj].
  rewrite IH by exact Hj. apply list_lookup_insert_ne. congruence.
Qed.

(** Without a repeated index, row [inds[p]] holds value [p]. *)
Lemma lookup_put data inds vals p j :
  NoDup inds → length vals = length inds →
  inds !! p = Some j → j < length data →
  put data inds vals !! j = vals !! p.
Proof.
  revert data vals p.
  induction inds as [|i inds IH]; intros data vals p Hnd Hlen Hp Hlt.
  - discriminate.
  - destruct vals as [|v vals]; [discriminate|].
    apply NoDup_cons in Hnd as [Hi Hnd]. injection Hlen as Hlen.
    change (put data (i :: inds) (v :: vals))
      with (put (<[i:=v]> data) inds vals).
    destruct p as [|p]; cbn in Hp.
    + injection Hp as ->. rewrite lookup_put_notin by exact Hi.
      apply list_lookup_insert_eq. exact Hlt.
    + change ((v :: vals) !! S p) with (vals !! p).
      apply IH; try assumption. rewrite length_insert. exact Hlt.
Qed.

Lemma in_range_spec data inds :
  in_range data inds = true ↔ ∀ i, i ∈ inds → i < length data.
Proof.
  unfold in_range. rewrite forallb_forall. split.
  - intros H i Hi. apply Nat.ltb_lt, H, list_elem_of_In, Hi.
  - intros H i Hi. apply Nat.ltb_lt, H, list_elem_of_In, Hi.
Qed.

Lemma index_fill_Ok data inds (v : A) :
  (∀ i, i ∈ inds → i < length data) →
  index_fill data inds v = Ok (fill data inds v).
Proof.
  intros H. unfold index_fill. apply in_range_spec in H. rewrite H. reflexivity.
Qed.

Lemma index_fill_Ok_inv data inds (v : A) r :
  index_fill data inds v = Ok r →
  r = fill data inds v ∧ ∀ i, i ∈ inds → i < length data.
Proof.
  unfold index_fill. destruct (in_range data inds) eqn:H; [|discriminate].
  intros [= <-]. split; [reflexivity|]. apply in_range_spec, H.
Qed.

Lemma index_put_Ok data inds vals :
  (∀ i, i ∈ inds → i < length data) → length vals = length inds →
  index_put data inds vals = Ok (put data inds vals).
Proof.
  intros H Hlen. unfold index_put. apply in_range_spec in H. rewrite H.
  cbn [negb]. rewrite Hlen, Nat.eqb_refl. reflexivity.
Qed.

(** ** Masks *)

Lemma length_select mask data :
  length mask = length data → length (select mask data) = count_true mask.
Proof.
  revert data. induction mask as [|b mask IH]; intros [|d data] Hlen;
    try discriminate; [reflexivity|].
  injection Hlen as Hlen. destruct b; cbn; rewrite IH by exact Hlen; reflexivity.
Qed.

Lemma count_true_take_lt mask j :
  mask !! j = Some true → count_true (take j mask) < count_true mask.
Proof.
  revert j. induction mask as [|b mask IH]; intros [|j] Hj; try discriminate.
  - injection Hj as ->. cbn. lia.
  - cbn in Hj. apply IH in Hj. cbn. lia.
Qed.

(** The row a flagged anchor has among the selected ones. *)
Lemma lookup_select mask data j :
  length mask = length data → mask !! j = Some true →
  select mask data !! count_true (take j mask) = data !! j.
Proof.
  revert data j. induction mask as [|b mask IH]; intros [|d data] j Hlen Hj;
    try discriminate.
  injection Hlen as Hlen. destruct j as [|j].
  - injection Hj as ->. reflexivity.
  - cbn in Hj. destruct b; cbn; apply IH; assumption.
Qed.

Lemma length_scatter ret mask data :
  length (scatter ret mask data) = length ret.
Proof.
  revert mask data. induction ret as [|r ret IH]; intros [|[] mask] data;
    cbn; try reflexivity.
  - destruct data; cbn; [reflexivity|]. rewrite IH. reflexivity.
  - rewrite IH. reflexivity.
Qed.

Lemma lookup_scatter_false ret mask data j :
  length mask = length ret → mask !! j = Some false →
  scatter ret mask data !! j = ret !! j.
Proof.
  revert mask data j. induction ret as [|r ret IH]; intros [|b mask] data j Hlen Hj;
    try discriminate.
  injection Hlen as Hlen. destruct j as [|j].
  - injection Hj as ->. reflexivity.
  - cbn in Hj. destruct b; cbn.
    + destruct data as [|d data]; cbn; [reflexivity|]. apply IH; assumption.
    + apply IH; assumption.
Qed.

Lemma lookup_scatter_true ret mask data j :
  length mask = length ret → count_true mask ≤ length data →
  mask !! j = Some true →
  scatter ret mask data !! j = data !! count_true (take j mask).
Proof.
  revert mask data j. induction ret as [|r ret IH]; intros [|b mask] data j Hlen Hc Hj;
    try discriminate.
  injection Hlen as Hlen. destruct j as [|j].
  - injection Hj as ->. cbn in Hc. destruct data as [|d data]; [cbn in Hc; lia|].
    reflexivity.
  - cbn in Hj. destruct b; cbn in Hc |- *.
    + destruct data as [|d data]; [cbn in Hc; lia|]. cbn in Hc.
      cbn. apply IH; [assumption|lia|assumption].
    + apply IH; assumption.
Qed.

Lemma mask_select_Ok data mask :
  length mask = length data → mask_select data mask = Ok (select mask data).
Proof. intros H. unfold mask_select. rewrite H, Nat.eqb_refl. reflexivity. Qed.

Lemma mask_select_Ok_inv data mask r :
  mask_select data mask = Ok r →
  length mask = length data ∧ r = select mask data.
Proof.
  unfold mask_select. destruct (length mask =? length data) eqn:H; [|discriminate].
  apply Nat.eqb_eq in H. intros [= <-]. done.
Qed.

Lemma unmap_Ok data count mask (fill : A) :
  length mask = count → count_true mask = length data →
  unmap data count mask fill = Ok (scatter (replicate count fill) mask data).
Proof.
  intros Hm Hc. unfold unmap, mask_put.
  rewrite length_replicate, Hm, Nat.eqb_refl. cbn [negb].
  rewrite Hc, Nat.eqb_refl. reflexivity.
Qed.

Lemma lookup_back unmap_outputs count mask (v : A) data j k :
  row_anchor unmap_outputs mask j = Some k →
  length mask = count → count_true mask = length data →
  back unmap_outputs count mask v data !! j = data !! k.
Proof.
  unfold row_anchor, back. intros Hk Hm Hc. destruct unmap_outputs.
  - destruct (mask !! j) as [[]|] eqn:Hj; try discriminate.
    injection Hk as <-. apply lookup_scatter_true; [|lia|exact Hj].
    rewrite length_replicate. exact Hm.
  - injection Hk as ->. reflexivity.
Qed.

Lemma lookup_back_outside count mask (v : A) data j :
  mask !! j = Some false → length mask = count →
  back true count mask v data !! j = Some v.
Proof.
  intros Hj Hm. unfold back.
  rewrite lookup_scatter_false; [|rewrite length_replicate; exact Hm|exact Hj].
  apply lookup_replicate_2. rewrite <- Hm. eapply lookup_lt_Some, Hj.
Qed.

End index_props.

(** ** Sums of weights *)

Section sum_props.
Import anchor_target.
#[local] Open Scope Q_scope.
Implicit Types (w data : list Q) (inds pos neg : list nat).

Lemma sum_replicate_zero n : sum (replicate n 0) == 0.
Proof.
  induction n as [|n IH]; cbn; [reflexivity|].
  fold (sum (replicate n 0)). rewrite IH. ring.
Qed.

Lemma sum_insert w i x v :
  w !! i = Some x → sum (<[i:=v]> w) == sum w - x + v.
Proof.
  revert i. induction w as [|y w IH]; intros [|i] Hi; try discriminate.
  - injection Hi as ->. cbn. fold (sum w). ring.
  - cbn in Hi. cbn. fold (sum w) (sum (<[i:=v]> w)). rewrite (IH _ Hi). ring.
Qed.

Lemma inject_nat_S n :
  inject_Z (Z.of_nat (S n)) == inject_Z (Z.of_nat n) + 1.
Proof. rewrite Nat2Z.inj_succ, <- Z.add_1_r, inject_Z_plus. reflexivity. Qed.

(** Setting distinct rows that hold 0 to 1 adds their number to the sum. *)
Lemma sum_fill_ones inds : ∀ data,
  NoDup inds → (∀ i, i ∈ inds → data !! i = Some 0) →
  sum (fill data inds 1) == sum data + inject_Z (Z.of_nat (length inds)).
Proof.
  induction inds as [|i inds IH]; intros data Hnd Hz.
  - change (fill data [] 1) with data.
    change (inject_Z (Z.of_nat (length (@nil nat)))) with 0. ring.
  - apply NoDup_cons in Hnd as [Hi Hnd].
    change (fill data (i :: inds) 1) with (fill (<[i:=1]> data) inds 1).
    rewrite IH; [|exact Hnd|].
    + rewrite (sum_insert data i 0 1) by (apply Hz; left).
      cbn [length]. rewrite inject_nat_S. ring.
    + intros j Hj. rewrite list_lookup_insert_ne by (intros ->; contradiction).
      apply Hz. right. exact Hj.
Qed.

(** The label weights of a sample sum to the number of sampled anchors
    when no anchor is sampled twice. *)
Lemma sum_sampled_weights nv pos neg :
  NoDup pos → NoDup neg → (∀ i, i ∈ pos → i ∉ neg) →
  (∀ i, i ∈ pos → (i < nv)%nat) → (∀ i, i ∈ neg → (i < nv)%nat) →
  sum (fill (fill (replicate nv 0) pos 1) neg 1)
    == inject_Z (Z.of_nat (length pos + length neg)).
Proof.
  intros Hp Hn Hdisj Hpr Hnr.
  rewrite sum_fill_ones; [|exact Hn|].
  - rewrite sum_fill_ones; [|exact Hp|].
    + rewrite sum_replicate_zero, Nat2Z.inj_add, inject_Z_plus. ring.
    + intros i Hi. apply lookup_replicate_2, Hpr, Hi.
  - intros i Hi. rewrite lookup_fill_notin.
    + apply lookup_replicate_2, Hnr, Hi.
    + intros Hip. exact (Hdisj i Hip Hi).
Qed.

(** [unmap] with fill 0 keeps the sum. *)
Lemma sum_scatter_zeros mask : ∀ n data,
  length mask = n → count_true mask = length data →
  sum (scatter (replicate n 0) mask data) == sum data.
Proof.
  induction mask as [|b mask IH]; intros n data Hn Hc.
  - destruct data; [|discriminate]. subst n. reflexivity.
  - destruct n as [|n]; [discriminate|]. injection Hn as Hn.
    destruct b; cbn in Hc |- *.
    + destruct data as [|d data]; [discriminate|]. injection Hc as Hc.
      cbn. fold (sum data) (sum (scatter (replicate n 0) mask data)).
      rewrite (IH n data Hn Hc). reflexivity.
    + fold (sum (scatter (replicate n 0) mask data)).
      rewrite (IH n data Hn Hc). ring.
Qed.

(** Writing ones over zeros and ones adds at most their number, and
    exactly their number only when every index is new and held a zero. *)
Lemma sum_fill_ones_le inds : ∀ data,
  Forall (fun x => x = 0 ∨ x = 1) data →
  (∀ i, i ∈ inds → (i < length data)%nat) →
  sum (fill data inds 1) <= sum data + inject_Z (Z.of_nat (length inds)) ∧
  (sum (fill data inds 1) == sum data + inject_Z (Z.of_nat (length inds)) →
   NoDup inds ∧ ∀ i, i ∈ inds → data !! i = Some 0).
Proof.
  induction inds as [|i inds IH]; intros data Hbin Hr.
  - change (fill data [] 1) with data.
    change (inject_Z (Z.of_nat (length (@nil nat)))) with 0.
    split; [lra|]. intros _. split; [constructor|].
    intros i Hi. apply elem_of_nil in Hi as [].
  - change (fill data (i :: inds) 1) with (fill (<[i:=1]> data) inds 1).
    destruct (lookup_lt_is_Some_2 data i) as [x Hx]; [apply Hr; left|].
    assert (Hx01 : x = 0 ∨ x = 1).
    { rewrite Forall_lookup in Hbin. exact (Hbin _ _ Hx). }
    destruct (IH (<[i:=1]> data)) as [Hle Heq].
    { apply Forall_insert; [exact Hbin|right; reflexivity]. }
    { intros j Hj. rewrite length_insert. apply Hr. right. exact Hj. }
    pose proof (sum_insert data i x 1 Hx) as Hins.
    cbn [length]. rewrite inject_nat_S.
    assert (Hx0 : 0 <= x) by (destruct Hx01 as [->| ->]; lra).
    split; [lra|]. intros Hsum.
    assert (Hxz : x == 0) by lra.
    assert (x = 0) as -> by (destruct Hx01 as [->| ->]; [reflexivity|lra]).
    destruct Heq as [Hnd Hz]; [lra|].
    assert (Hi : i ∉ inds).
    { intros Hi. specialize (Hz i Hi).
      rewrite list_lookup_insert_eq in Hz by (apply Hr; left). discriminate. }
    split; [apply NoDup_cons; done|].
    intros j Hj. apply elem_of_cons in Hj as [->|Hj]; [exact Hx|].
    specialize (Hz j Hj).
    rewrite list_lookup_insert_ne in Hz by (intros ->; contradiction).
    exact Hz.
Qed.

Lemma fill_app {A : Type} (data : list A) inds1 inds2 (v : A) :
  fill (fill data inds1 v) inds2 v = fill data (inds1 ++ inds2) v.
Proof. unfold fill. rewrite foldl_app. reflexivity. Qed.

(** The weights add up exactly when no anchor was sampled twice. *)
Lemma sum_sampled_weights_iff nv pos neg :
  (∀ i, i ∈ pos → (i < nv)%nat) → (∀ i, i ∈ neg → (i < nv)%nat) →
  sum (fill (fill (replicate nv 0) pos 1) neg 1)
    == inject_Z (Z.of_nat (length pos + length neg))
  ↔ NoDup pos ∧ NoDup neg ∧ ∀ i, i ∈ pos → i ∉ neg.
Proof.
  intros Hpr Hnr. split.
  - rewrite fill_app, <- length_app. intros Hsum.
    destruct (sum_fill_ones_le (pos ++ neg) (replicate nv 0)) as [_ Heq].
    { apply Forall_replicate. left. reflexivity. }
    { intros i Hi. rewrite length_replicate.
      apply elem_of_app in Hi as [Hi|Hi]; auto. }
    destruct Heq as [Hnd _].
    { rewrite Hsum, sum_replicate_zero. ring. }
    apply NoDup_app in Hnd as (? & ? & ?). done.
  - intros (Hp & Hn & Hd). apply sum_sampled_weights; assumption.
Qed.

End sum_props.

(** ** [anchor_target_single] *)

Section single_props.
Import anchor_target.
Context {bbox_lib : BBox}.
Implicit Types (flat_anchors : list box) (valid_flags inside_flags : list bool)
  (gt_bboxes gt_bboxes_ignore : option (list box)) (gt_labels : option (list Z))
  (meta : img_meta) (c : cfg) (pos neg : list nat)
  (sampling unmap_outputs : bool) (means stds : list Q).

Lemma unmap_Ok_inv {A : Type} (data : list A) count inside_flags (v : A) r :
  unmap data count inside_flags v = Ok r →
  length data = count_true inside_flags →
  length inside_flags = count ∧
  r = scatter (replicate count v) inside_flags data.
Proof.
  unfold unmap, mask_put. rewrite length_replicate. intros H Hlen.
  destruct (length inside_flags =? count) eqn:Hm; cbn [negb] in H; [|discriminate].
  apply Nat.eqb_eq in Hm. rewrite <- Hlen, Nat.eqb_refl in H.
  injection H as <-. done.
Qed.

(** What is known in front of the final assertion: the flags, the sample
    the indices come from, that the indices are in range, and the label
    weights, box weights and box targets. *)
Lemma sampled_inv flat_anchors valid_flags gt_bboxes
    gt_bboxes_ignore gt_labels meta means stds c sampling unmap_outputs
    s pos neg :
  targets_before_assert flat_anchors valid_flags gt_bboxes gt_bboxes_ignore
    gt_labels meta means stds c sampling unmap_outputs = Ok (Sampled s pos neg) →
  ∃ inside_flags gt,
    gt_bboxes = Some gt ∧ gt ≠ [] ∧
    anchor_inside_flags flat_anchors valid_flags (img_shape meta).1
      (allowed_border c) = Ok inside_flags ∧
    any inside_flags = true ∧
    length inside_flags = length flat_anchors ∧
    let nv := count_true inside_flags in
    let sr := sample c sampling (select inside_flags flat_anchors) gt
                gt_bboxes_ignore gt_labels in
    let deltas := bbox2delta (pos_bboxes sr) (pos_gt_bboxes sr) means stds in
    let back {A : Type} := @back A unmap_outputs (length flat_anchors)
                             inside_flags in
    pos = pos_inds sr ∧ neg = neg_inds sr ∧
    s_pos_inds s = Some pos ∧ s_neg_inds s = Some neg ∧
    (∀ i, i ∈ pos → i < nv) ∧
    (∀ i, i ∈ neg → i < nv) ∧
    label_weights s =
      back 0%Q (fill (fill (replicate nv 0%Q) pos 1%Q) neg 1%Q) ∧
    bbox_weights s = back zeros (fill (replicate nv zeros) pos ones) ∧
    (length deltas = length pos →
     bbox_targets s = back zeros (put (replicate nv zeros) pos deltas)).
Proof.
  unfold targets_before_assert. destruct (img_shape meta) as [[img_h img_w] ch].
  intros H. apply bind_Ok_inv in H as (inside_flags & Hin & H).
  destruct (any inside_flags) eqn:Hany; cbn [negb] in H; [|discriminate].
  apply bind_Ok_inv in H as (anchors & Hsel & H).
  apply mask_select_Ok_inv in Hsel as [Hlen ->].
  rewrite (length_select _ _ Hlen) in H.
  destruct gt_bboxes as [[|g gt]|].
  { apply bind_Ok_inv in H as ([[[? ?] ?] ?] & _ & [=]). }
  2:{ apply bind_Ok_inv in H as ([[[? ?] ?] ?] & _ & [=]). }
  exists inside_flags, (g :: gt).
  split; [reflexivity|]. split; [discriminate|]. split; [exact Hin|].
  split; [exact Hany|]. split; [exact Hlen|].
  cbv zeta in H |- *.
  set (sr := sample c sampling (select inside_flags flat_anchors) (g :: gt)
               gt_bboxes_ignore gt_labels) in *.
  set (nv := count_true inside_flags) in *.
  set (deltas := bbox2delta (pos_bboxes sr) (pos_gt_bboxes sr) means stds) in *.
  apply bind_Ok_inv in H as ([[[l1 lw1] bt1] bw1] & Hpos & H).
  apply bind_Ok_inv in H as (lw2 & Hneg & H).
  apply bind_Ok_inv in H as ([[[l3 lw3] bt3] bw3] & Hun & H).
  injection H as <- <- <-. cbn [label_weights bbox_weights bbox_targets
                                 s_pos_inds s_neg_inds].
  assert (Hp : lw1 = fill (replicate nv 0%Q) (pos_inds sr) 1%Q ∧
               bw1 = fill (replicate nv zeros) (pos_inds sr) ones ∧
               length l1 = nv ∧ length bt1 = nv ∧
               (length deltas = length (pos_inds sr) →
                bt1 = put (replicate nv zeros) (pos_inds sr) deltas) ∧
               ∀ i, i ∈ pos_inds sr → i < nv).
  { destruct (0 <? length (pos_inds sr)) eqn:Hnz.
    - apply bind_Ok_inv in Hpos as (bt & Hbt & Hpos).
      apply bind_Ok_inv in Hpos as (bw & Hbw & Hpos).
      apply bind_Ok_inv in Hpos as (l & Hl & Hpos).
      apply bind_Ok_inv in Hpos as ([] & _ & Hpos).
      apply bind_Ok_inv in Hpos as (lw & Hlw & Hpos).
      injection Hpos as <- <- <- <-.
      apply index_fill_Ok_inv in Hlw as [-> Hr].
      apply index_fill_Ok_inv in Hbw as [-> _].
      rewrite length_replicate in Hr.
      split; [reflexivity|]. split; [reflexivity|].
      assert (Hrz : ∀ A (x : A) i, i ∈ pos_inds sr →
                      i < length (replicate nv x)).
      { intros A x i Hi. rewrite length_replicate. auto. }
      split; [|split; [|split; [|exact Hr]]].
      + destruct gt_labels as [gl|].
        * apply bind_Ok_inv in Hl as (vals & _ & Hl).
          unfold index_put in Hl.
          destruct (in_range _ _); cbn [negb] in Hl; [|discriminate].
          destruct (length vals =? _).
          { injection Hl as <-. rewrite length_put. apply length_replicate. }
          destruct vals as [|? [|]]; try discriminate.
          injection Hl as <-. rewrite length_fill. apply length_replicate.
        * apply index_fill_Ok_inv in Hl as [-> _].
          rewrite length_fill. apply length_replicate.
      + unfold index_put in Hbt.
        destruct (in_range _ _); cbn [negb] in Hbt; [|discriminate].
        destruct (length deltas =? _).
        { injection Hbt as <-. rewrite length_put. apply length_replicate. }
        destruct deltas as [|? [|]]; try discriminate.
        injection Hbt as <-. rewrite length_fill. apply length_replicate.
      + intros Hd. rewrite index_put_Ok in Hbt by (auto using Hrz).
        injection Hbt as <-. reflexivity.
    - injection Hpos as <- <- <- <-. apply Nat.ltb_ge in Hnz.
      destruct (pos_inds sr); [|cbn in Hnz; lia].
      rewrite !length_replicate. repeat split; try reflexivity.
      intros i Hi. apply elem_of_nil in Hi as []. }
  destruct Hp as (-> & -> & Hl1 & Hbt1 & Hbt & Hpr).
  assert (Hn : lw2 = fill (fill (replicate nv 0%Q) (pos_inds sr) 1%Q)
                       (neg_inds sr) 1%Q ∧
               ∀ i, i ∈ neg_inds sr → i < nv).
  { destruct (0 <? length (neg_inds sr)) eqn:Hnz.
    - apply index_fill_Ok_inv in Hneg as [-> Hr].
      rewrite length_fill, length_replicate in Hr. done.
    - injection Hneg as <-. apply Nat.ltb_ge in Hnz.
      destruct (neg_inds sr); [|cbn in Hnz; lia].
      split; [reflexivity|]. intros i Hi. apply elem_of_nil in Hi as []. }
  destruct Hn as [-> Hnr].
  do 4 (split; [reflexivity|]). split; [exact Hpr|]. split; [exact Hnr|].
  unfold back. destruct unmap_outputs.
  - unfold unmap_all in Hun.
    apply bind_Ok_inv in Hun as (l & _ & Hun).
    apply bind_Ok_inv in Hun as (lw & Hlw & Hun).
    apply bind_Ok_inv in Hun as (bt & Hbt' & Hun).
    apply bind_Ok_inv in Hun as (bw & Hbw & Hun).
    injection Hun as _ <- <- <-.
    apply unmap_Ok_inv in Hlw as [_ ->];
      [|rewrite !length_fill, length_replicate; reflexivity].
    apply unmap_Ok_inv in Hbw as [_ ->];
      [|rewrite !length_fill, length_replicate; reflexivity].
    apply unmap_Ok_inv in Hbt' as [_ ->]; [|exact Hbt1].
    split; [reflexivity|]. split; [reflexivity|].
    intros Hd. rewrite (Hbt Hd). reflexivity.
  - injection Hun as _ <- <- <-. done.
Qed.

(** In front of the final assertion, the weights add up exactly when no
    anchor was sampled twice. *)
Lemma weights_add_up_iff flat_anchors valid_flags gt_bboxes
    gt_bboxes_ignore gt_labels meta means stds c sampling unmap_outputs
    s pos neg :
  targets_before_assert flat_anchors valid_flags gt_bboxes gt_bboxes_ignore
    gt_labels meta means stds c sampling unmap_outputs = Ok (Sampled s pos neg) →
  weights_add_up s pos neg = true ↔
  NoDup pos ∧ NoDup neg ∧ ∀ i, i ∈ pos → i ∉ neg.
Proof.
  intros H.
  destruct (sampled_inv _ _ _ _ _ _ _ _ _ _ _ _ _ _ H)
    as (inside_flags & gt & _ & _ & _ & _ & Hlen & Hrest).
  cbv zeta in Hrest.
  destruct Hrest as (_ & _ & _ & _ & Hpr & Hnr & Hlw & _).
  unfold weights_add_up. rewrite Qeq_bool_iff, Hlw.
  rewrite <- (sum_sampled_weights_iff (count_true inside_flags) pos neg Hpr Hnr).
  unfold back. destruct unmap_outputs; [|reflexivity].
  rewrite sum_scatter_zeros; [reflexivity|exact Hlen|].
  rewrite !length_fill, length_replicate. reflexivity.
Qed.


(** ** The targets of a sampled image *)

Lemma anchor_inside_flags_length flat_anchors valid_flags shape border
    inside_flags :
  length valid_flags = length flat_anchors →
  anchor_inside_flags flat_anchors valid_flags shape border = Ok inside_flags →
  length inside_flags = length flat_anchors.
Proof.
  intros Hlen. unfold anchor_inside_flags. destruct shape as [img_h img_w].
  destruct (0 <=? border)%Z.
  - unfold band. rewrite length_fmap, Hlen, Nat.eqb_refl.
    intros [= <-]. rewrite length_zip_with, length_fmap. lia.
  - intros [= <-]. exact Hlen.
Qed.

Lemma targets_before_assert_sampled flat_anchors valid_flags g gt
    gt_bboxes_ignore gt_labels meta means stds c sampling unmap_outputs
    inside_flags :
  length valid_flags = length flat_anchors →
  anchor_inside_flags flat_anchors valid_flags (img_shape meta).1
    (allowed_border c) = Ok inside_flags →
  any inside_flags = true →
  let nv := count_true inside_flags in
  let sr := sample c sampling (select inside_flags flat_anchors) (g :: gt)
              gt_bboxes_ignore gt_labels in
  let deltas := bbox2delta (pos_bboxes sr) (pos_gt_bboxes sr) means stds in
  (∀ i, i ∈ pos_inds sr ∨ i ∈ neg_inds sr → i < nv) →
  length deltas = length (pos_inds sr) →
  (∀ gl, gt_labels = Some gl →
     ∃ vals, index_select gl (pos_assigned_gt_inds sr) = Ok vals ∧
             length vals = length (pos_inds sr)) →
  Qle_bool (pos_weight c) 0%Q = true ∨ pos_inds sr = [] →
  ∃ l,
    length l = (if unmap_outputs then length flat_anchors else nv) ∧
    targets_before_assert flat_anchors valid_flags (Some (g :: gt))
      gt_bboxes_ignore gt_labels meta means stds c sampling unmap_outputs =
    Ok (Sampled {| labels := l;
                   label_weights :=
                     back unmap_outputs (length flat_anchors) inside_flags 0%Q
                       (fill (fill (replicate nv 0%Q) (pos_inds sr) 1%Q)
                          (neg_inds sr) 1%Q);
                   bbox_targets :=
                     back unmap_outputs (length flat_anchors) inside_flags zeros
                       (put (replicate nv zeros) (pos_inds sr) deltas);
                   bbox_weights :=
                     back unmap_outputs (length flat_anchors) inside_flags zeros
                       (fill (replicate nv zeros) (pos_inds sr) ones);
                   s_pos_inds := Some (pos_inds sr);
                   s_neg_inds := Some (neg_inds sr) |}
          (pos_inds sr) (neg_inds sr)).
Proof.
  intros Hvf Hin Hany nv sr deltas Hrange Hdel Hlab Hpw.
  pose proof (anchor_inside_flags_length _ _ _ _ _ Hvf Hin) as Hlen.
  unfold targets_before_assert, back.
  destruct (img_shape meta) as [[img_h img_w] ch]. cbn [fst] in Hin.
  rewrite Hin. py_step. rewrite Hany. cbn [negb].
  rewrite (mask_select_Ok _ _ Hlen). py_step.
  rewrite (length_select _ _ Hlen). cbv zeta. fold nv sr deltas.
  (* the positive anchors *)
  assert (Hpos : ∃ l1, length l1 = nv ∧
    (if 0 <? length (pos_inds sr)
     then
       bbox_targets ← index_put (replicate nv zeros) (pos_inds sr) deltas;
       bbox_weights ← index_fill (replicate nv zeros) (pos_inds sr) ones;
       labels ←
         match gt_labels with
         | None => index_fill (replicate nv 0%Z) (pos_inds sr) 1%Z
         | Some gl =>
             vals ← index_select gl (pos_assigned_gt_inds sr);
             index_put (replicate nv 0%Z) (pos_inds sr) vals
         end;
       _ ← assert (Qle_bool (pos_weight c) 0);
       label_weights ← index_fill (replicate nv 0%Q) (pos_inds sr) 1%Q;
       Ok (labels, label_weights, bbox_targets, bbox_weights)
     else Ok (replicate nv 0%Z, replicate nv 0%Q, replicate nv zeros,
              replicate nv zeros))
    = Ok (l1, fill (replicate nv 0%Q) (pos_inds sr) 1%Q,
          put (replicate nv zeros) (pos_inds sr) deltas,
          fill (replicate nv zeros) (pos_inds sr) ones)).
  { destruct (0 <? length (pos_inds sr)) eqn:Hnz.
    - destruct Hpw as [Hpw|Hnil];
        [|rewrite Hnil in Hnz; discriminate].
      assert (Hr : ∀ A (x : A) i, i ∈ pos_inds sr → i < length (replicate nv x)).
      { intros A x i Hi. rewrite length_replicate. apply Hrange. left. exact Hi. }
      rewrite index_put_Ok by (auto using Hr). py_step.
      rewrite index_fill_Ok by (auto using Hr). py_step.
      destruct gt_labels as [gl|].
      + destruct (Hlab gl eq_refl) as (vals & -> & Hvl). py_step.
        rewrite index_put_Ok by (auto using Hr). py_step.
        rewrite Hpw. cbn [assert]. py_step.
        rewrite index_fill_Ok by (auto using Hr). py_step.
        eexists. split; [|reflexivity]. rewrite length_put, length_replicate. done.
      + rewrite index_fill_Ok by (auto using Hr). py_step.
        rewrite Hpw. cbn [assert]. py_step.
        rewrite index_fill_Ok by (auto using Hr). py_step.
        eexists. split; [|reflexivity]. rewrite length_fill, length_replicate. done.
    - apply Nat.ltb_ge in Hnz.
      destruct (pos_inds sr); [|cbn in Hnz; lia].
      eexists. split; [|reflexivity]. apply length_replicate. }
  destruct Hpos as (l1 & Hl1 & ->). py_step.
  (* the negative anchors *)
  assert (Hneg :
    (if 0 <? length (neg_inds sr)
     then index_fill (fill (replicate nv 0%Q) (pos_inds sr) 1%Q)
            (neg_inds sr) 1%Q
     else Ok (fill (replicate nv 0%Q) (pos_inds sr) 1%Q))
    = Ok (fill (fill (replicate nv 0%Q) (pos_inds sr) 1%Q) (neg_inds sr) 1%Q)).
  { destruct (0 <? length (neg_inds sr)) eqn:Hnz.
    - apply index_fill_Ok. intros i Hi.
      rewrite length_fill, length_replicate. apply Hrange. right. exact Hi.
    - apply Nat.ltb_ge in Hnz.
      destruct (neg_inds sr); [reflexivity|cbn in Hnz; lia]. }
  rewrite Hneg. py_step.
  destruct unmap_outputs.
  - unfold unmap_all.
    rewrite (unmap_Ok l1) by (rewrite ?Hl1; done). py_step.
    rewrite unmap_Ok
      by (rewrite ?length_fill, ?length_replicate; done). py_step.
    rewrite unmap_Ok
      by (rewrite ?length_put, ?length_replicate; done). py_step.
    rewrite unmap_Ok
      by (rewrite ?length_fill, ?length_replicate; done). py_step.
    eexists. split; [|reflexivity]. rewrite length_scatter, length_replicate. done.
  - py_step. eexists. split; [|reflexivity]. exact Hl1.
Qed.

(** When the call returns: one flag per anchor, an anchor inside the
    border, sampled indices in range, without repeats and disjoint, one
    encoded row and one label per positive, and [cfg.pos_weight <= 0]
    unless no anchor is positive. *)
Lemma anchor_target_single_returns flat_anchors valid_flags g gt
    gt_bboxes_ignore gt_labels meta means stds c sampling unmap_outputs
    inside_flags :
  length valid_flags = length flat_anchors →
  anchor_inside_flags flat_anchors valid_flags (img_shape meta).1
    (allowed_border c) = Ok inside_flags →
  any inside_flags = true →
  let nv := count_true inside_flags in
  let sr := sample c sampling (select inside_flags flat_anchors) (g :: gt)
              gt_bboxes_ignore gt_labels in
  let deltas := bbox2delta (pos_bboxes sr) (pos_gt_bboxes sr) means stds in
  (∀ i, i ∈ pos_inds sr ∨ i ∈ neg_inds sr → i < nv) →
  NoDup (pos_inds sr) → NoDup (neg_inds sr) →
  (∀ i, i ∈ pos_inds sr → i ∉ neg_inds sr) →
  length deltas = length (pos_inds sr) →
  (∀ gl, gt_labels = Some gl →
     ∃ vals, index_select gl (pos_assigned_gt_inds sr) = Ok vals ∧
             length vals = length (pos_inds sr)) →
  Qle_bool (pos_weight c) 0%Q = true ∨ pos_inds sr = [] →
  ∃ s, anchor_target_single flat_anchors valid_flags (Some (g :: gt))
         gt_bboxes_ignore gt_labels meta means stds c sampling unmap_outputs
       = Ok (Some s).
Proof.
  intros Hvf Hin Hany nv sr deltas Hrange Hndp Hndn Hdisj Hdel Hlab Hpw.
  destruct (targets_before_assert_sampled flat_anchors valid_flags g gt
              gt_bboxes_ignore gt_labels meta means stds c sampling
              unmap_outputs inside_flags Hvf Hin Hany Hrange Hdel Hlab Hpw)
    as (l & _ & Hrun).
  eexists. unfold anchor_target_single. rewrite Hrun. py_step.
  assert (Hsum := proj2 (weights_add_up_iff _ _ _ _ _ _ _ _ _ _ _ _ _ _ Hrun)
                    (conj Hndp (conj Hndn Hdisj))).
  rewrite Hsum. reflexivity.
Qed.

Lemma no_gt_inv flat_anchors valid_flags g gt gt_bboxes_ignore gt_labels
    meta means stds c sampling unmap_outputs s :
  targets_before_assert flat_anchors valid_flags (Some (g :: gt))
    gt_bboxes_ignore gt_labels meta means stds c sampling unmap_outputs
    ≠ Ok (NoGt s).
Proof.
  unfold targets_before_assert. destruct (img_shape meta) as [[img_h img_w] ch].
  intros H. apply bind_Ok_inv in H as (inside_flags & _ & H).
  destruct (negb (any inside_flags)); [discriminate|].
  apply bind_Ok_inv in H as (anchors & _ & H). cbv zeta in H.
  apply bind_Ok_inv in H as ([[[? ?] ?] ?] & _ & H).
  apply bind_Ok_inv in H as (? & _ & H).
  apply bind_Ok_inv in H as ([[[? ?] ?] ?] & _ & H). discriminate.
Qed.

(** C5.  Whenever [anchor_target_single] returns targets for an image with
    ground truth, some anchor lay inside the border, and with [k] the
    inside anchor that row [j] of the returned tensors stands for: if [k] is
    the [p]-th sampled positive, the box target of the row is row [p] of
    [bbox2delta(pos_bboxes, pos_gt_bboxes, target_means, target_stds)] (one
    row per positive), its box weight is 1 and its label weight is 1; if [k]
    is a sampled negative, the label weight is 1; if it is neither, and at
    every anchor outside the border, label weight and box weight are 0. *)
Theorem sampled_anchor_targets flat_anchors valid_flags gt gt_bboxes_ignore
    gt_labels meta means stds c sampling unmap_outputs s :
  gt ≠ [] →
  anchor_target_single flat_anchors valid_flags (Some gt) gt_bboxes_ignore
    gt_labels meta means stds c sampling unmap_outputs = Ok (Some s) →
  ∃ inside_flags,
    anchor_inside_flags flat_anchors valid_flags (img_shape meta).1
      (allowed_border c) = Ok inside_flags ∧
    any inside_flags = true ∧
    let anchors := select inside_flags flat_anchors in
    let sr := sample c sampling anchors gt gt_bboxes_ignore gt_labels in
    let deltas := bbox2delta (pos_bboxes sr) (pos_gt_bboxes sr) means stds in
    s_pos_inds s = Some (pos_inds sr) ∧ s_neg_inds s = Some (neg_inds sr) ∧
    (∀ j k, row_anchor unmap_outputs inside_flags j = Some k →
       k < length anchors →
       (∀ p, pos_inds sr !! p = Some k →
          (length deltas = length (pos_inds sr) →
           bbox_targets s !! j = deltas !! p) ∧
          bbox_weights s !! j = Some ones ∧
          label_weights s !! j = Some 1%Q) ∧
       (k ∈ neg_inds sr → label_weights s !! j = Some 1%Q) ∧
       (k ∉ pos_inds sr → k ∉ neg_inds sr →
          label_weights s !! j = Some 0%Q ∧ bbox_weights s !! j = Some zeros)) ∧
    (unmap_outputs = true → ∀ j, inside_flags !! j = Some false →
       label_weights s !! j = Some 0%Q ∧ bbox_weights s !! j = Some zeros).
Proof.
  intros Hgt H. unfold anchor_target_single in H.
  apply bind_Ok_inv in H as (pr & Hpr & H).
  destruct pr as [|s'|s' pos neg]; [discriminate| |].
  { destruct gt as [|g gt]; [done|]. exfalso. eapply no_gt_inv, Hpr. }
  apply bind_Ok_inv in H as ([] & Hsum & [= ->]).
  apply assert_Ok_inv in Hsum.
  apply (weights_add_up_iff _ _ _ _ _ _ _ _ _ _ _ _ _ _ Hpr) in Hsum
    as (Hndp & Hndn & Hdisj).
  destruct (sampled_inv _ _ _ _ _ _ _ _ _ _ _ _ _ _ Hpr)
    as (inside_flags & gt' & [= <-] & _ & Hin & Hany & Hlen & Hrest).
  exists inside_flags. split; [exact Hin|]. split; [exact Hany|].
  cbv zeta in Hrest |- *.
  rewrite (length_select _ _ Hlen).
  set (nv := count_true inside_flags) in *.
  set (sr := sample c sampling (select inside_flags flat_anchors) gt
               gt_bboxes_ignore gt_labels) in *.
  set (deltas := bbox2delta (pos_bboxes sr) (pos_gt_bboxes sr) means stds) in *.
  destruct Hrest as (-> & -> & Hsp & Hsn & Hrp & Hrn & Hlw & Hbw & Hbt).
  split; [exact Hsp|]. split; [exact Hsn|]. split.
  - intros j k Hk Hknv. rewrite Hlw, Hbw.
    rewrite !(lookup_back _ _ _ _ _ _ _ Hk Hlen)
      by (rewrite ?length_fill, ?length_replicate; reflexivity).
    split; [|split].
    + intros p Hp.
      assert (Hkp : k ∈ pos_inds sr) by (eapply list_elem_of_lookup_2, Hp).
      split; [|split].
      * intros Hd. rewrite (Hbt Hd).
        rewrite (lookup_back _ _ _ _ _ _ _ Hk Hlen)
          by (rewrite length_put, length_replicate; reflexivity).
        apply lookup_put; try assumption. rewrite length_replicate. exact Hknv.
      * apply lookup_fill_in; [exact Hkp|]. rewrite length_replicate. exact Hknv.
      * rewrite lookup_fill_notin by (apply Hdisj, Hkp).
        apply lookup_fill_in; [exact Hkp|]. rewrite length_replicate. exact Hknv.
    + intros Hkn. apply lookup_fill_in; [exact Hkn|].
      rewrite length_fill, length_replicate. exact Hknv.
    + intros Hnp Hnn. rewrite !lookup_fill_notin by assumption.
      split; apply lookup_replicate_2, Hknv.
  - intros -> j Hj. rewrite Hlw, Hbw.
    split; apply lookup_back_outside; assumption.
Qed.

End single_props.

(** ** [anchor_target] and the caller's lists *)

Section lists_props.
Import anchor_target.
Context {bbox_lib : BBox}.
Implicit Types (s : lists) (c : cfg) (sampling unmap_outputs : bool)
  (means stds : list Q) (img_metas : list img_meta).

Lemma st_bind_Ok_inv {A B : Type} (m : st A) (k : A → st B) s r s' :
  (m ≫= k) s = (Ok r, s') →
  ∃ a s1, m s = (Ok a, s1) ∧ k a s1 = (Ok r, s').
Proof.
  unfold mbind, st_bind. destruct (m s) as [[a|e] s1]; [eauto|discriminate].
Qed.

Lemma lift_Ok_inv {A : Type} (m : result A) s r s' :
  lift m s = (Ok r, s') → m = Ok r ∧ s' = s.
Proof. unfold lift. intros [= -> ->]. done. Qed.

(** One pass of the loop replaces the elements [i .. i+n-1], which were
    lists of levels, by their concatenation and leaves the others. *)
Lemma concat_loop_Ok n : ∀ i s s',
  concat_loop i n s = (Ok tt, s') →
  length (anchor_list s') = length (anchor_list s) ∧
  length (valid_flag_list s') = length (valid_flag_list s) ∧
  (∀ j, ¬ (i ≤ j < i + n) →
     anchor_list s' !! j = anchor_list s !! j ∧
     valid_flag_list s' !! j = valid_flag_list s !! j) ∧
  (∀ j, i ≤ j < i + n →
     ∃ ls vs,
       anchor_list s !! j = Some (Levels ls) ∧
       anchor_list s' !! j = Some (Flat (concat ls)) ∧
       valid_flag_list s !! j = Some (Levels vs) ∧
       valid_flag_list s' !! j = Some (Flat (concat vs))).
Proof.
  induction n as [|n IH]; intros i s s' H.
  - injection H as <-. repeat split; try reflexivity. intros j Hj. lia.
  - cbn [concat_loop] in H.
    apply st_bind_Ok_inv in H as (a & s1 & Ha & H).
    unfold get_anchor in Ha. injection Ha as Ha <-.
    apply getitem_Ok_inv in Ha.
    apply st_bind_Ok_inv in H as (v & s1 & Hv & H).
    unfold get_flag in Hv. injection Hv as Hv <-.
    apply getitem_Ok_inv in Hv.
    apply st_bind_Ok_inv in H as ([] & s1 & Has & H).
    apply lift_Ok_inv in Has as [_ ->].
    apply st_bind_Ok_inv in H as (ca & s1 & Hca & H).
    apply lift_Ok_inv in Hca as [Hca ->].
    apply st_bind_Ok_inv in H as ([] & s1 & Hsa & H).
    unfold set_anchor in Hsa. injection Hsa as <-.
    apply st_bind_Ok_inv in H as (cv & s2 & Hcv & H).
    apply lift_Ok_inv in Hcv as [Hcv ->].
    apply st_bind_Ok_inv in H as ([] & s2 & Hsv & H).
    unfold set_flag in Hsv. injection Hsv as <-. cbn in H.
    destruct a as [[|l ls]|]; try discriminate. injection Hca as <-.
    destruct v as [[|w vs]|]; try discriminate. injection Hcv as <-.
    apply IH in H as (Hla & Hlv & Hout & Hin). cbn in Hla, Hlv, Hout, Hin.
    rewrite length_insert in Hla. rewrite length_insert in Hlv.
    split; [exact Hla|]. split; [exact Hlv|]. split.
    + intros j Hj. destruct (Hout j ltac:(lia)) as [Hja Hjv].
      rewrite Hja, Hjv. split; apply list_lookup_insert_ne; lia.
    + intros j Hj. destruct (decide (j = i)) as [->|Hne].
      * destruct (Hout i ltac:(lia)) as [Hja Hjv].
        exists (l :: ls), (w :: vs). rewrite Hja, Hjv.
        rewrite (list_lookup_insert_eq (anchor_list s))
          by (eapply lookup_lt_Some; eassumption).
        rewrite (list_lookup_insert_eq (valid_flag_list s))
          by (eapply lookup_lt_Some; eassumption).
        done.
      * destruct (Hin j ltac:(lia)) as (ls' & vs' & H1 & H2 & H3 & H4).
        rewrite list_lookup_insert_ne in H1 by lia.
        rewrite list_lookup_insert_ne in H3 by lia. eauto 10.
Qed.

(** A call that returns has passed the entry assertion and the loop; what
    it returns is computed from the lists as the loop left them. *)
Lemma anchor_target_Ok_inv gt_bboxes_list img_metas means stds c
    gt_bboxes_ignore_list gt_labels_list sampling unmap_outputs s r s' :
  anchor_target gt_bboxes_list img_metas means stds c gt_bboxes_ignore_list
    gt_labels_list sampling unmap_outputs s = (Ok r, s') →
  length (anchor_list s) = length img_metas ∧
  length (valid_flag_list s) = length img_metas ∧
  concat_loop 0 (length img_metas) s = (Ok tt, s') ∧
  ∃ a0, anchor_list s !! 0 = Some a0 ∧
    targets_of_lists s' (level_sizes a0) gt_bboxes_list img_metas means stds
      c gt_bboxes_ignore_list gt_labels_list sampling unmap_outputs = Ok r.
Proof.
  unfold anchor_target. intros H.
  apply st_bind_Ok_inv in H as (s0 & s1 & Hs0 & H).
  unfold get_lists in Hs0. injection Hs0 as <- <-.
  apply st_bind_Ok_inv in H as ([] & s1 & Has & H).
  apply lift_Ok_inv in Has as [Has ->].
  apply assert_Ok_inv, andb_true_iff in Has as [H1 H2].
  apply Nat.eqb_eq in H1, H2.
  apply st_bind_Ok_inv in H as (a0 & s1 & Ha0 & H).
  unfold get_anchor in Ha0. injection Ha0 as Ha0 <-.
  apply getitem_Ok_inv in Ha0.
  apply st_bind_Ok_inv in H as ([] & s1 & Hloop & H).
  apply st_bind_Ok_inv in H as (s2 & s3 & Hs2 & H).
  unfold get_lists in Hs2. injection Hs2 as <- <-.
  apply lift_Ok_inv in H as [H ->].
  split; [lia|]. split; [exact H2|]. split; [exact Hloop|]. eauto.
Qed.

(** C8.  When [anchor_target] returns, it has replaced, for every image
    [i], the element [anchor_list[i]] of the caller's list, which held the
    per-level tensors, by their concatenation, and likewise
    [valid_flag_list[i]]: the lists the caller still holds have lost the
    per-level structure. *)
Theorem anchor_target_flattens_lists gt_bboxes_list img_metas means stds c
    gt_bboxes_ignore_list gt_labels_list sampling unmap_outputs s r s' :
  anchor_target gt_bboxes_list img_metas means stds c gt_bboxes_ignore_list
    gt_labels_list sampling unmap_outputs s = (Ok r, s') →
  length (anchor_list s') = length img_metas ∧
  length (valid_flag_list s') = length img_metas ∧
  ∀ i, i < length img_metas →
    ∃ ls vs,
      anchor_list s !! i = Some (Levels ls) ∧
      anchor_list s' !! i = Some (Flat (concat ls)) ∧
      valid_flag_list s !! i = Some (Levels vs) ∧
      valid_flag_list s' !! i = Some (Flat (concat vs)).
Proof.
  intros H. apply anchor_target_Ok_inv in H as (Hla & Hlv & Hloop & _).
  apply concat_loop_Ok in Hloop as (Hla' & Hlv' & _ & Hin).
  split; [lia|]. split; [lia|]. intros i Hi. apply Hin. lia.
Qed.

(** ** The call without targets *)

Lemma multi_apply_lookup f al : ∀ vl gt ign lab metas rs i a v g ig l m,
  multi_apply f al vl gt ign lab metas = Ok rs →
  al !! i = Some a → vl !! i = Some v → gt !! i = Some g →
  ign !! i = Some ig → lab !! i = Some l → metas !! i = Some m →
  ∃ r, f a v g ig l m = Ok r ∧ rs !! i = Some r.
Proof.
  induction al as [|a0 al IH];
    intros vl gt ign lab metas rs i a v g ig l m H Ha Hv Hg Hig Hl Hm.
  - discriminate.
  - destruct vl as [|v0 vl], gt as [|g0 gt], ign as [|ig0 ign],
      lab as [|l0 lab], metas as [|m0 metas]; try discriminate.
    cbn [multi_apply] in H.
    apply bind_Ok_inv in H as (r0 & Hr0 & H).
    apply bind_Ok_inv in H as (rs' & Hrs & [= <-]).
    destruct i as [|i].
    + injection Ha as <-. injection Hv as <-. injection Hg as <-.
      injection Hig as <-. injection Hl as <-. injection Hm as <-.
      eauto.
    + cbn in Ha, Hv, Hg, Hig, Hl, Hm.
      destruct (IH _ _ _ _ _ _ _ _ _ _ _ _ _ Hrs Ha Hv Hg Hig Hl Hm)
        as (r & Hr & Hlk).
      eauto.
Qed.

Lemma anchor_target_single_no_inside flat_anchors valid_flags gt ign l meta
    means stds c sampling unmap_outputs inside_flags :
  anchor_inside_flags flat_anchors valid_flags (img_shape meta).1
    (allowed_border c) = Ok inside_flags →
  any inside_flags = false →
  anchor_target_single flat_anchors valid_flags gt ign l meta means stds c
    sampling unmap_outputs = Ok None.
Proof.
  intros Hin Hany. unfold anchor_target_single, targets_before_assert.
  destruct (img_shape meta) as [[img_h img_w] ch]. cbn [fst] in Hin.
  rewrite Hin. py_step. rewrite Hany. reflexivity.
Qed.

Lemma any_none_lookup (rs : list (option single)) i :
  rs !! i = Some None → any_none rs = true.
Proof.
  intros Hi. unfold any_none. apply existsb_exists. exists None.
  split; [|reflexivity]. apply list_elem_of_In. eapply list_elem_of_lookup_2, Hi.
Qed.

(** C9.  A call of [anchor_target] that returns, on lists that have an
    entry for each image, returns [None], and with it no targets for any
    image, whenever for at least one image [anchor_inside_flags] yields no
    true flag on its concatenated anchors. *)
Theorem anchor_target_none gt_bboxes_list img_metas means stds c
    gt_bboxes_ignore_list gt_labels_list sampling unmap_outputs s r s'
    i ls vs meta inside_flags :
  anchor_target gt_bboxes_list img_metas means stds c gt_bboxes_ignore_list
    gt_labels_list sampling unmap_outputs s = (Ok r, s') →
  length gt_bboxes_list = length img_metas →
  (∀ l, gt_bboxes_ignore_list = Some l → length l = length img_metas) →
  (∀ l, gt_labels_list = Some l → length l = length img_metas) →
  anchor_list s !! i = Some (Levels ls) →
  valid_flag_list s !! i = Some (Levels vs) →
  img_metas !! i = Some meta →
  anchor_inside_flags (concat ls) (concat vs) (img_shape meta).1
    (allowed_border c) = Ok inside_flags →
  any inside_flags = false →
  r = None.
Proof.
  intros H Hgt Hign Hlab Ha Hv Hm Hin Hany.
  apply anchor_target_Ok_inv in H as (Hla & Hlv & Hloop & a0 & _ & H).
  apply concat_loop_Ok in Hloop as (_ & _ & _ & Hflat).
  assert (Hi : i < length img_metas) by (eapply lookup_lt_Some, Hm).
  destruct (Hflat i ltac:(lia)) as (ls' & vs' & Ha1 & Ha2 & Hv1 & Hv2).
  rewrite Ha in Ha1. injection Ha1 as <-.
  rewrite Hv in Hv1. injection Hv1 as <-.
  unfold targets_of_lists in H. cbv zeta in H.
  apply bind_Ok_inv in H as (results & Hres & H).
  apply bind_Ok_inv in H as ([] & _ & H).
  destruct (lookup_lt_is_Some_2 gt_bboxes_list i ltac:(lia)) as [g Hg].
  assert (His : ∀ A (o : option (list (option A))),
            (∀ l, o = Some l → length l = length img_metas) →
            is_Some (default (replicate (length img_metas) None) o !! i)).
  { intros A [l|] Hl; cbn; apply lookup_lt_is_Some_2.
    - rewrite (Hl l eq_refl). exact Hi.
    - rewrite length_replicate. exact Hi. }
  destruct (His _ _ Hign) as [ig Hig]. destruct (His _ _ Hlab) as [l Hl].
  destruct (multi_apply_lookup _ _ _ _ _ _ _ _ _ _ _ _ _ _ _
              Hres Ha2 Hv2 Hg Hig Hl Hm) as (ri & Hri & Hlk).
  cbn [single_call] in Hri.
  rewrite (anchor_target_single_no_inside _ _ _ _ _ _ _ _ _ _ _ _ Hin Hany) in Hri.
  injection Hri as <-.
  rewrite (any_none_lookup _ _ Hlk) in H. injection H as <-. reflexivity.
Qed.

End lists_props.

Section anchor_examples.
Import anchor_target toy_bbox.

(** On the toy image the fourth anchor is the one positive, the first two
    are negatives, and the third lies outside the border: the theorem gives
    their rows. *)
Lemma sampled_anchor_targets_witness :
  ∃ s,
    anchor_target_single flat all_valid (Some truth) None None image
      means stds rpn true true = Ok (Some s) ∧
    s_pos_inds s = Some [2] ∧ s_neg_inds s = Some [0; 1] ∧
    bbox_targets s !! 3 = bbox2delta [a3] truth means stds !! 0 ∧
    bbox_weights s !! 3 = Some ones ∧
    label_weights s !! 3 = Some 1%Q ∧
    label_weights s !! 0 = Some 1%Q ∧
    label_weights s !! 2 = Some 0%Q ∧ bbox_weights s !! 2 = Some zeros.
Proof.
  destruct (anchor_target_single flat all_valid (Some truth) None None image
              means stds rpn true true) as [[s|]|] eqn:Hcall;
    try (vm_compute in Hcall; discriminate).
  exists s. split; [reflexivity|].
  destruct (sampled_anchor_targets flat all_valid truth None None image
              means stds rpn true true s ltac:(discriminate) Hcall)
    as (inside_flags & Hin & _ & H).
  vm_compute in Hin. injection Hin as <-. cbv zeta in H.
  destruct H as (Hp & Hn & Hrows & Hout).
  split; [exact Hp|]. split; [exact Hn|].
  destruct (Hrows 3 2 eq_refl ltac:(vm_compute; lia)) as (Hpos & _ & _).
  destruct (Hpos 0 eq_refl) as (Hbt & Hbw & Hlw).
  destruct (Hrows 0 0 eq_refl ltac:(vm_compute; lia)) as (_ & Hneg & _).
  destruct (Hout eq_refl 2 eq_refl) as (Hlw2 & Hbw2).
  split; [rewrite (Hbt eq_refl); vm_compute; reflexivity|].
  split; [exact Hbw|]. split; [exact Hlw|].
  split; [apply Hneg; vm_compute; left|]. split; assumption.
Defined.


(** With a positive [pos_weight] the same image gets no targets: the
    configuration check inside the branch for positives fails. *)
Example anchor_target_single_pos_weight :
  anchor_target_single flat all_valid (Some truth) None None image
    means stds weighted true true = Raise AssertionError.
Proof. vm_compute. reflexivity. Qed.

Lemma anchor_target_flattens_lists_witness :
  ∃ r s',
    anchor_target [Some truth] [image] means stds rpn None None true true
      one_image = (Ok r, s') ∧
    anchor_list s' = [Flat [a0; a1; a2; a3]] ∧
    valid_flag_list s' = [Flat [true; true; true; true]].
Proof.
  destruct (anchor_target [Some truth] [image] means stds rpn None None
              true true one_image) as [[r|] s'] eqn:Hcall;
    [|vm_compute in Hcall; discriminate].
  exists r, s'. split; [reflexivity|].
  destruct (anchor_target_flattens_lists _ _ _ _ _ _ _ _ _ _ _ _ Hcall)
    as (Hla & Hlv & Hflat).
  destruct (Hflat 0 ltac:(cbn; lia)) as (ls & vs & Ha & Ha' & Hv & Hv').
  injection Ha as <-. injection Hv as <-.
  destruct (anchor_list s') as [|x [|]]; try discriminate.
  destruct (valid_flag_list s') as [|y [|]]; try discriminate.
  injection Ha' as ->. injection Hv' as ->. done.
Defined.

Lemma anchor_target_none_witness :
  ∃ s',
    anchor_target [Some truth; Some truth] [image; image] means stds rpn
      None None true true two_images = (Ok None, s').
Proof.
  destruct (anchor_target [Some truth; Some truth] [image; image] means stds
              rpn None None true true two_images) as [[r|] s'] eqn:Hcall;
    [|vm_compute in Hcall; discriminate].
  exists s'. f_equal. f_equal.
  apply (anchor_target_none _ _ _ _ _ _ _ _ _ _ _ _ 1 [[a2]; [a2]]
           [[true]; [true]] image [false; false] Hcall);
    try reflexivity; try discriminate.
Defined.

End anchor_examples.

(* ===================================================================== *)
(** * Properties of the block dataset *)
(* ===================================================================== *)

(** ** Replacing missing neighbours *)

Section fill_props.
Import custom_block.
Context {A : Type}.
Implicit Types (l : list (option A)) (pos : nat → nat).

Lemma foldl_ext_eq {B C : Type} (f g : B → C → B) (k : list C) : ∀ b,
  (∀ b c, f b c = g b c) → foldl f b k = foldl g b k.
Proof.
  induction k as [|c k IH]; intros b H; [reflexivity|].
  cbn [foldl]. rewrite H. apply IH, H.
Qed.

Lemma fill_left_walk hf l :
  fill_left hf l = foldl (walk (fun i => hf - i)) l (seq 0 hf).
Proof.
  unfold fill_left. apply foldl_ext_eq. intros l' i. unfold walk.
  replace (hf - 1 - i) with (hf - S i) by lia. reflexivity.
Qed.

Lemma fill_right_walk hf l :
  fill_right hf l = foldl (walk (fun i => hf + i)) l (seq 0 hf).
Proof.
  unfold fill_right. apply foldl_ext_eq. intros l' i. unfold walk.
  replace (hf + 1 + i) with (hf + S i) by lia. reflexivity.
Qed.

(** After [n] steps every slot [pos d], [d ≤ n], holds the entry of the
    nearest slot [pos e], [e ≤ d], that was filled at the start; the slots
    off the walk are untouched. *)
Lemma walk_spec pos n : ∀ l,
  (∀ i j, i ≤ n → j ≤ n → pos i = pos j → i = j) →
  (∀ i, i ≤ n → pos i < length l) →
  (∃ c, l !! pos 0 = Some (Some c)) →
  let l' := foldl (walk pos) l (seq 0 n) in
  length l' = length l ∧
  (∀ q, (∀ i, 1 ≤ i ≤ n → q ≠ pos i) → l' !! q = l !! q) ∧
  (∀ d, d ≤ n →
     ∃ e x, e ≤ d ∧ l !! pos e = Some (Some x) ∧ l' !! pos d = Some (Some x) ∧
            ∀ e', e < e' ≤ d → l !! pos e' = Some None).
Proof.
  induction n as [|n IH]; intros l Hinj Hlt [c Hc]; cbv zeta.
  - cbn [seq foldl]. split; [reflexivity|]. split; [reflexivity|].
    intros d Hd. replace d with 0 by lia. exists 0, c.
    split; [lia|]. split; [exact Hc|]. split; [exact Hc|]. intros e' He'. lia.
  - rewrite seq_S, foldl_app. cbn [foldl plus].
    destruct (IH l) as (Hlen & Hoff & Hon); eauto.
    set (lm := foldl (walk pos) l (seq 0 n)) in *.
    assert (Hq : lm !! pos (S n) = l !! pos (S n)).
    { apply Hoff. intros i Hi Heq. apply Hinj in Heq; lia. }
    destruct (Hon n (le_n _)) as (e & x & He & Hex & Hlx & Hgap).
    destruct (lookup_lt_is_Some_2 l (pos (S n)) (Hlt _ (le_n _))) as [o Ho].
    assert (Hw : walk pos lm n =
                 if o is None then <[pos (S n) := Some x]> lm else lm).
    { unfold walk. rewrite Hq, Ho, Hlx. destruct o; reflexivity. }
    rewrite Hw. clear Hw.
    destruct o as [y|].
    + (* the slot is filled: nothing changes *)
      split; [exact Hlen|]. split.
      { intros q Hq'. apply Hoff. intros i Hi. apply Hq'. lia. }
      intros d Hd. destruct (decide (d = S n)) as [->|Hne].
      * exists (S n), y. split; [lia|]. split; [exact Ho|].
        split; [rewrite Hq; exact Ho|]. intros e' He'. lia.
      * apply Hon. lia.
    + (* the slot is empty: it takes the entry next to it *)
      split; [rewrite length_insert; exact Hlen|]. split.
      { intros q Hq'. rewrite list_lookup_insert_ne.
        - apply Hoff. intros i Hi. apply Hq'. lia.
        - intros Heq. apply (Hq' (S n)); [lia|]. congruence. }
      intros d Hd. destruct (decide (d = S n)) as [->|Hne].
      * exists e, x. split; [lia|]. split; [exact Hex|]. split.
        { apply list_lookup_insert_eq. rewrite Hlen. apply Hlt. lia. }
        intros e' He'. destruct (decide (e' = S n)) as [->|]; [exact Ho|].
        apply Hgap. lia.
      * destruct (Hon d ltac:(lia)) as (e1 & x1 & He1 & Hex1 & Hlx1 & Hgap1).
        exists e1, x1. split; [exact He1|]. split; [exact Hex1|]. split; [|exact Hgap1].
        rewrite list_lookup_insert_ne; [exact Hlx1|].
        intros Heq. apply Hinj in Heq; lia.
Qed.

End fill_props.

(** ** The block of names *)

Section block_props.
Import custom_block.
Context {env : Env}.
Implicit Types (self : CustomBlockDataset) (info : img_info)
  (names : list (option string)) (i j : Z).

Lemma length_range lo hi : length (range lo hi) = Z.to_nat (hi - lo).
Proof. unfold range. rewrite length_fmap, length_seq. reflexivity. Qed.

Lemma lookup_range lo hi k :
  k < Z.to_nat (hi - lo) → range lo hi !! k = Some (lo + Z.of_nat k)%Z.
Proof.
  intros Hk. unfold range. rewrite list_lookup_fmap, lookup_seq_lt by exact Hk.
  reflexivity.
Qed.




Lemma length_foldl_walk {A : Type} pos (k : list nat) : ∀ (l : list (option A)),
  length (foldl (walk pos) l k) = length l.
Proof.
  induction k as [|i k IH]; intros l; [reflexivity|].
  cbn [foldl]. rewrite IH. unfold walk.
  destruct (l !! pos (S i)) as [[]|]; rewrite ?length_insert; reflexivity.
Qed.

Lemma has_none_false {A : Type} (l : list (option A)) k :
  has_none l = false → k < length l → ∃ x, l !! k = Some (Some x).
Proof.
  intros Hn Hk. destruct (lookup_lt_is_Some_2 l k Hk) as [[x|] Hx]; [eauto|].
  exfalso. apply not_true_iff_false in Hn. apply Hn.
  apply existsb_exists. exists None. split; [|reflexivity].
  apply list_elem_of_In. eapply list_elem_of_lookup_2, Hx.
Qed.



(** ** [prepare_train_img] *)

Lemma for_each_lookup {A B : Type} (f : A → result B) (l : list A) : ∀ r,
  for_each f l = Ok r →
  length r = length l ∧
  ∀ k x, l !! k = Some x → ∃ y, f x = Ok y ∧ r !! k = Some y.
Proof.
  induction l as [|a l IH]; intros r H; cbn [for_each] in H.
  - injection H as <-. split; [reflexivity|]. intros k x Hk. discriminate.
  - apply bind_Ok_inv in H as (y & Hy & H).
    apply bind_Ok_inv in H as (ys & Hys & [= <-]).
    destruct (IH _ Hys) as [Hlen Hlk]. split; [cbn; lia|].
    intros [|k] x Hk; cbn in Hk.
    + injection Hk as <-. eauto.
    + apply Hlk, Hk.
Qed.




(** ** [__getitem__] *)


End block_props.

Section block_examples.
Import custom_block toy_disk.





End block_examples.

(* ===================================================================== *)
(** * More on the anchor targets *)
(* ===================================================================== *)

Section unmap_props.
Import anchor_target.
Context {A : Type}.
Implicit Types (data ret : list A) (mask : list bool).

Lemma select_scatter ret : ∀ mask data,
  length mask = length ret → count_true mask = length data →
  select mask (scatter ret mask data) = data.
Proof.
  induction ret as [|r ret IH]; intros [|b mask] data Hm Hc; try discriminate.
  - destruct data; [reflexivity|discriminate].
  - injection Hm as Hm. destruct b; cbn in Hc |- *.
    + destruct data as [|d data]; [discriminate|]. injection Hc as Hc.
      cbn. f_equal. apply IH; assumption.
    + apply IH; assumption.
Qed.

(** X1.  [unmap] needs one flag per row of the result, or it raises
    [IndexError].  With one data row per true flag it returns [count] rows:
    reading the flagged rows back gives the data, in order, and every
    other row holds the fill value. *)
Theorem unmap_round_trip data count mask (v : A) :
  (length mask ≠ count → unmap data count mask v = Raise IndexError) ∧
  (length mask = count → count_true mask = length data →
   ∃ r, unmap data count mask v = Ok r ∧
        length r = count ∧
        select mask r = data ∧
        ∀ j, mask !! j = Some false → r !! j = Some v).
Proof.
  split.
  - intros Hne. unfold unmap, mask_put. rewrite length_replicate.
    apply Nat.eqb_neq in Hne. rewrite Hne. reflexivity.
  - intros Hm Hc. rewrite (unmap_Ok _ _ _ _ Hm Hc). eexists.
    split; [reflexivity|]. split; [|split].
    + rewrite length_scatter. apply length_replicate.
    + apply select_scatter; [|exact Hc]. rewrite length_replicate. exact Hm.
    + intros j Hj. rewrite lookup_scatter_false;
        [|rewrite length_replicate; exact Hm|exact Hj].
      apply lookup_replicate_2. rewrite <- Hm. eapply lookup_lt_Some, Hj.
Qed.

End unmap_props.

Section inside_props.
Import anchor_target.
Implicit Types (flat_anchors : list box) (valid_flags flags : list bool).

Lemma inside_monotone b b' img_h img_w (a : box) :
  (0 ≤ b ≤ b')%Z → inside b img_h img_w a = true →
  inside b' img_h img_w a = true.
Proof.
  intros Hb. unfold inside.
  rewrite !andb_true_iff, !negb_true_iff, <- !not_true_iff_false,
    !Qle_bool_iff.
  assert (Hlo : (inject_Z (- b') <= inject_Z (- b))%Q)
    by (rewrite <- Zle_Qle; lia).
  assert (Hw : (inject_Z (img_w + b) <= inject_Z (img_w + b'))%Q)
    by (rewrite <- Zle_Qle; lia).
  assert (Hh : (inject_Z (img_h + b) <= inject_Z (img_h + b'))%Q)
    by (rewrite <- Zle_Qle; lia).
  intros (((H1 & H2) & H3) & H4). repeat split.
  - eapply Qle_trans; eassumption.
  - eapply Qle_trans; eassumption.
  - intros H. apply H3. eapply Qle_trans; eassumption.
  - intros H. apply H4. eapply Qle_trans; eassumption.
Qed.

Lemma anchor_inside_flags_lookup flat_anchors valid_flags img_h img_w b flags j :
  length valid_flags = length flat_anchors →
  anchor_inside_flags flat_anchors valid_flags (img_h, img_w) b = Ok flags →
  flags !! j = Some true ↔
  valid_flags !! j = Some true ∧
  ((0 ≤ b)%Z → ∃ a, flat_anchors !! j = Some a ∧
                    inside b img_h img_w a = true).
Proof.
  intros Hlen. unfold anchor_inside_flags, band.
  destruct (Z.leb_spec 0 b) as [Hb|Hb].
  - rewrite length_fmap, Hlen, Nat.eqb_refl. intros [= <-].
    rewrite lookup_zip_with, list_lookup_fmap. split.
    + destruct (valid_flags !! j) as [v|]; [|discriminate].
      destruct (flat_anchors !! j) as [a|]; [|discriminate]. cbn.
      intros [= Hand]. apply andb_true_iff in Hand as [-> Hin].
      split; [reflexivity|]. intros _. eauto.
    + intros [-> H]. destruct (H Hb) as (a & -> & Hin). cbn.
      rewrite Hin. reflexivity.
  - intros [= <-]. split; [intros H; split; [exact H|lia]|tauto].
Qed.

(** X2.  The flags of [anchor_inside_flags] select valid anchors only, and
    a wider border never drops an anchor: with [0 <= b <= b'], or with a
    negative [b'] (which switches the test off), every anchor flagged for
    border [b] is flagged for border [b']. *)
Theorem anchor_inside_flags_monotone flat_anchors valid_flags shape b b'
    flags :
  length valid_flags = length flat_anchors →
  (0 ≤ b ≤ b' ∨ b' < 0)%Z →
  anchor_inside_flags flat_anchors valid_flags shape b = Ok flags →
  ∃ flags',
    anchor_inside_flags flat_anchors valid_flags shape b' = Ok flags' ∧
    length flags = length flat_anchors ∧
    length flags' = length flat_anchors ∧
    ∀ j, flags !! j = Some true →
         valid_flags !! j = Some true ∧ flags' !! j = Some true.
Proof.
  intros Hlen Hb Hf. destruct shape as [img_h img_w].
  assert (Hex : ∃ flags',
    anchor_inside_flags flat_anchors valid_flags (img_h, img_w) b' = Ok flags').
  { unfold anchor_inside_flags, band.
    rewrite length_fmap, Hlen, Nat.eqb_refl.
    destruct (0 <=? b')%Z; eauto. }
  destruct Hex as (flags' & Hf'). exists flags'. split; [exact Hf'|].
  split; [eapply anchor_inside_flags_length; eassumption|].
  split; [eapply anchor_inside_flags_length; eassumption|].
  intros j Hj.
  apply (anchor_inside_flags_lookup _ _ _ _ _ _ _ Hlen Hf) in Hj as [Hv Hin].
  split; [exact Hv|].
  apply (anchor_inside_flags_lookup _ _ _ _ _ _ _ Hlen Hf').
  split; [exact Hv|]. intros Hb'.
  destruct Hb as [Hb|Hb]; [|lia].
  destruct Hin as (a & Ha & Hin); [lia|].
  exists a. split; [exact Ha|]. eapply inside_monotone; eassumption.
Qed.

End inside_props.

Section without_gt.
Import anchor_target.
Context {bbox_lib : BBox}.
Implicit Types (flat_anchors : list box) (valid_flags inside_flags : list bool)
  (gt_bboxes gt_bboxes_ignore : option (list box)) (gt_labels : option (list Z))
  (meta : img_meta) (c : cfg) (sampling unmap_outputs : bool)
  (means stds : list Q).

Lemma scatter_replicate {A : Type} (v : A) (mask : list bool) : ∀ n,
  length mask = n →
  scatter (replicate n v) mask (replicate (count_true mask) v) = replicate n v.
Proof.
  induction mask as [|b mask IH]; intros [|n] Hn; try discriminate;
    [reflexivity|].
  injection Hn as Hn. destruct b; cbn; f_equal; apply IH; exact Hn.
Qed.

Lemma lookup_scatter_ones inside_flags j (b : bool) :
  inside_flags !! j = Some b →
  scatter (replicate (length inside_flags) 0%Q) inside_flags
    (replicate (count_true inside_flags) 1%Q) !! j
  = Some (if b then 1%Q else 0%Q).
Proof.
  intros Hj. destruct b.
  - rewrite lookup_scatter_true;
      [|rewrite length_replicate; reflexivity
       |rewrite length_replicate; reflexivity|exact Hj].
    apply lookup_replicate_2, count_true_take_lt, Hj.
  - rewrite lookup_scatter_false;
      [|rewrite length_replicate; reflexivity|exact Hj].
    apply lookup_replicate_2. eapply lookup_lt_Some, Hj.
Qed.

(** X3.  For an image without ground truth ([gt_bboxes] is [None] or
    empty) that has an anchor inside the border, [anchor_target_single]
    returns without calling the sampler and whatever [unmap_outputs] and
    [cfg.pos_weight] are: one row per anchor of the image, every label
    and every box target and box weight zero, label weight 1 for exactly
    the anchors inside the border, and [None] for both index lists. *)
Theorem anchor_target_single_without_gt flat_anchors valid_flags gt_bboxes
    gt_bboxes_ignore gt_labels meta means stds c sampling unmap_outputs
    inside_flags :
  gt_bboxes = None ∨ gt_bboxes = Some [] →
  length valid_flags = length flat_anchors →
  anchor_inside_flags flat_anchors valid_flags (img_shape meta).1
    (allowed_border c) = Ok inside_flags →
  any inside_flags = true →
  ∃ s,
    anchor_target_single flat_anchors valid_flags gt_bboxes gt_bboxes_ignore
      gt_labels meta means stds c sampling unmap_outputs = Ok (Some s) ∧
    s_pos_inds s = None ∧ s_neg_inds s = None ∧
    labels s = replicate (length flat_anchors) 0%Z ∧
    bbox_targets s = replicate (length flat_anchors) zeros ∧
    bbox_weights s = replicate (length flat_anchors) zeros ∧
    length (label_weights s) = length flat_anchors ∧
    ∀ j (b : bool), inside_flags !! j = Some b →
           label_weights s !! j = Some (if b then 1%Q else 0%Q).
Proof.
  intros Hgt Hlen Hflags Hany.
  assert (Hl := anchor_inside_flags_length _ _ _ _ _ Hlen Hflags).
  unfold anchor_target_single, targets_before_assert.
  destruct (img_shape meta) as [[img_h img_w] ch]. cbn [fst] in Hflags.
  rewrite Hflags. py_step. rewrite Hany. cbn [negb].
  rewrite (mask_select_Ok _ _ Hl). py_step.
  rewrite (length_select _ _ Hl).
  assert (Hbody : ∀ (A : Type) (v w : A),
    unmap (replicate (count_true inside_flags) w) (length flat_anchors)
      inside_flags v
    = Ok (scatter (replicate (length flat_anchors) v) inside_flags
            (replicate (count_true inside_flags) w))).
  { intros A v w. apply unmap_Ok; [exact Hl|].
    rewrite length_replicate. reflexivity. }
  assert (Hret :
    unmap_all (length flat_anchors) inside_flags
      (replicate (count_true inside_flags) 0%Z)
      (replicate (count_true inside_flags) 1%Q)
      (replicate (count_true inside_flags) zeros)
      (replicate (count_true inside_flags) zeros)
    = Ok (replicate (length flat_anchors) 0%Z,
          scatter (replicate (length flat_anchors) 0%Q) inside_flags
            (replicate (count_true inside_flags) 1%Q),
          replicate (length flat_anchors) zeros,
          replicate (length flat_anchors) zeros)).
  { unfold unmap_all. rewrite !Hbody. py_step.
    rewrite !(scatter_replicate _ _ _ Hl). reflexivity. }
  eexists. split.
  - destruct Hgt as [-> | ->]; rewrite Hret; py_step; reflexivity.
  - cbn. repeat split.
    + rewrite length_scatter. apply length_replicate.
    + intros j b Hj. rewrite <- Hl. apply lookup_scatter_ones, Hj.
Qed.

End without_gt.

Section levels_props.
Import anchor_target.
Context {A : Type}.
Implicit Types (target : list (list A)) (num_level_anchors : list nat).

Lemma level_slice_stacked target start stop :
  length target ≠ 1 →
  level_slice target start stop
  = Stacked ((fun t => take (stop - start) (drop start t)) <$> target).
Proof.
  destruct target as [|t0 [|t1 rest]]; intros Hne;
    [reflexivity|contradiction|reflexivity].
Qed.

Lemma level_row_slice target start stop k t :
  target !! k = Some t →
  level_row (level_slice target start stop) k
  = take (stop - start) (drop start t).
Proof.
  intros Hk. destruct target as [|t0 [|t1 rest]].
  - discriminate.
  - destruct k; [|discriminate]. injection Hk as ->. reflexivity.
  - rewrite level_slice_stacked by (cbn; lia). unfold level_row.
    rewrite list_lookup_fmap, Hk. reflexivity.
Qed.

Lemma level_loop_rows target k t : ∀ num_level_anchors start,
  target !! k = Some t →
  length (level_loop target start num_level_anchors)
    = length num_level_anchors ∧
  concat ((fun lv => level_row lv k)
            <$> level_loop target start num_level_anchors)
  = take (sum_list num_level_anchors) (drop start t).
Proof.
  induction num_level_anchors as [|n rest IH]; intros start Hk.
  - split; [reflexivity|]. cbn. rewrite take_0. reflexivity.
  - destruct (IH (start + n) Hk) as [IHl IHc]. split; [cbn; lia|].
    cbn [level_loop fmap list_fmap concat sum_list].
    fold (list_fmap _ _ (fun lv : level A => level_row lv k)
            (level_loop target (start + n) rest)).
    change (list_fmap _ _ ?f ?l) with (f <$> l). rewrite IHc.
    rewrite (level_row_slice _ _ _ _ _ Hk).
    replace (start + n - start) with n by lia.
    rewrite <- drop_drop. apply take_take_drop.
Qed.

(** The rows of one image, read back from the levels. *)
Lemma images_to_levels_rows target num_level_anchors levels :
  images_to_levels target num_level_anchors = Ok levels →
  length levels = length num_level_anchors ∧
  ∀ k t, target !! k = Some t →
    concat ((fun lv => level_row lv k) <$> levels)
      = take (sum_list num_level_anchors) t.
Proof.
  unfold images_to_levels, torch_stack.
  destruct target as [|t0 ts]; [discriminate|].
  destruct (forallb _ ts); [|discriminate]. py_step. intros [= <-].
  split.
  - apply (level_loop_rows (t0 :: ts) 0 t0 num_level_anchors 0).
    reflexivity.
  - intros k t Hk.
    destruct (level_loop_rows _ _ _ num_level_anchors 0 Hk) as [_ Hc].
    rewrite drop_0 in Hc. exact Hc.
Qed.

(** X4.  [images_to_levels] raises [RuntimeError] when there is no image
    or the per-image targets differ in length.  When it returns there is
    one level per entry of [num_level_anchors], and for every image the
    rows of the levels, put one after the other, are the first
    [sum(num_level_anchors)] rows of the target of that image: all of
    them when the level sizes add up to its length. *)
Theorem images_to_levels_round_trip target num_level_anchors :
  (target = [] ∨
   (∃ t u, target !! 0 = Some t ∧ u ∈ target ∧ length u ≠ length t) →
   images_to_levels target num_level_anchors = Raise RuntimeError) ∧
  (∀ levels, images_to_levels target num_level_anchors = Ok levels →
     length levels = length num_level_anchors ∧
     ∀ k t, target !! k = Some t →
       concat ((fun lv => level_row lv k) <$> levels)
         = take (sum_list num_level_anchors) t ∧
       (sum_list num_level_anchors = length t →
        concat ((fun lv => level_row lv k) <$> levels) = t)).
Proof.
  split.
  - intros [-> | (t & u & H0 & Hu & Hne)]; [reflexivity|].
    destruct target as [|t0 ts]; [discriminate|]. injection H0 as ->.
    unfold images_to_levels, torch_stack.
    apply elem_of_cons in Hu as [-> | Hu]; [congruence|].
    destruct (forallb _ ts) eqn:Hall; [|reflexivity].
    rewrite forallb_forall in Hall.
    apply list_elem_of_In, Hall, Nat.eqb_eq in Hu. congruence.
  - intros levels H.
    destruct (images_to_levels_rows _ _ _ H) as [Hlen Hrows].
    split; [exact Hlen|]. intros k t Hk. split; [apply Hrows, Hk|].
    intros Hsum. rewrite (Hrows k t Hk). apply take_ge. lia.
Qed.

End levels_props.

Section shared_lists.
Import anchor_target.
Context {bbox_lib : BBox}.
Implicit Types (s : lists) (c : cfg) (sampling unmap_outputs : bool)
  (means stds : list Q) (img_metas : list img_meta) (e : exn).

Lemma st_bind_Ok {A B : Type} (m : st A) (k : A → st B) s a s1 :
  m s = (Ok a, s1) → (m ≫= k) s = k a s1.
Proof. unfold mbind, st_bind. intros ->. reflexivity. Qed.

Lemma st_bind_Raise {A B : Type} (m : st A) (k : A → st B) s e s1 :
  m s = (Raise e, s1) → (m ≫= k) s = (Raise e, s1).
Proof. unfold mbind, st_bind. intros ->. reflexivity. Qed.

Lemma st_bind_Raise_inv {A B : Type} (m : st A) (k : A → st B) s e s' :
  (m ≫= k) s = (Raise e, s') →
  m s = (Raise e, s') ∨ ∃ a s1, m s = (Ok a, s1) ∧ k a s1 = (Raise e, s').
Proof.
  unfold mbind, st_bind. destruct (m s) as [[a|e1] s1]; [eauto|].
  intros [= -> ->]. left. reflexivity.
Qed.

(** A loop that raises stopped at one image [k]: the images before it are
    concatenated, those after it untouched, and of image [k] at most the
    anchors are. *)
Lemma concat_loop_Raise n : ∀ i s e s',
  concat_loop i n s = (Raise e, s') →
  ∃ k, i ≤ k < i + n ∧
    length (anchor_list s') = length (anchor_list s) ∧
    length (valid_flag_list s') = length (valid_flag_list s) ∧
    (∀ j, i ≤ j < k →
       ∃ ls vs,
         anchor_list s !! j = Some (Levels ls) ∧
         anchor_list s' !! j = Some (Flat (concat ls)) ∧
         valid_flag_list s !! j = Some (Levels vs) ∧
         valid_flag_list s' !! j = Some (Flat (concat vs))) ∧
    (∀ j, ¬ (i ≤ j ≤ k) → anchor_list s' !! j = anchor_list s !! j) ∧
    (∀ j, ¬ (i ≤ j < k) → valid_flag_list s' !! j = valid_flag_list s !! j) ∧
    (anchor_list s' !! k = anchor_list s !! k ∨
     ∃ ls, anchor_list s !! k = Some (Levels ls) ∧
           anchor_list s' !! k = Some (Flat (concat ls))).
Proof.
  induction n as [|n IH]; intros i s e s' H; [discriminate|].
  assert (Hhere : s' = s → ∃ k, i ≤ k < i + S n ∧
    length (anchor_list s') = length (anchor_list s) ∧
    length (valid_flag_list s') = length (valid_flag_list s) ∧
    (∀ j, i ≤ j < k →
       ∃ ls vs,
         anchor_list s !! j = Some (Levels ls) ∧
         anchor_list s' !! j = Some (Flat (concat ls)) ∧
         valid_flag_list s !! j = Some (Levels vs) ∧
         valid_flag_list s' !! j = Some (Flat (concat vs))) ∧
    (∀ j, ¬ (i ≤ j ≤ k) → anchor_list s' !! j = anchor_list s !! j) ∧
    (∀ j, ¬ (i ≤ j < k) → valid_flag_list s' !! j = valid_flag_list s !! j) ∧
    (anchor_list s' !! k = anchor_list s !! k ∨
     ∃ ls, anchor_list s !! k = Some (Levels ls) ∧
           anchor_list s' !! k = Some (Flat (concat ls)))).
  { intros ->. exists i. split; [lia|]. repeat split; auto. intros j Hj. lia. }
  cbn [concat_loop] in H.
  apply st_bind_Raise_inv in H as [H | (a & s1 & Ha & H)].
  { apply Hhere. unfold get_anchor in H. congruence. }
  unfold get_anchor in Ha. injection Ha as Ha <-.
  apply getitem_Ok_inv in Ha.
  apply st_bind_Raise_inv in H as [H | (v & s1 & Hv & H)].
  { apply Hhere. unfold get_flag in H. congruence. }
  unfold get_flag in Hv. injection Hv as Hv <-.
  apply getitem_Ok_inv in Hv.
  apply st_bind_Raise_inv in H as [H | ([] & s1 & Has & H)].
  { apply Hhere. unfold lift in H. congruence. }
  apply lift_Ok_inv in Has as [_ ->].
  apply st_bind_Raise_inv in H as [H | (ca & s1 & Hca & H)].
  { apply Hhere. unfold lift in H. congruence. }
  apply lift_Ok_inv in Hca as [Hca ->].
  destruct a as [[|l ls]|]; try discriminate. injection Hca as <-.
  apply st_bind_Raise_inv in H as [H | ([] & s1 & Hsa & H)].
  { discriminate. }
  unfold set_anchor in Hsa. injection Hsa as <-.
  apply st_bind_Raise_inv in H as [H | (cv & s2 & Hcv & H)].
  { unfold lift in H. injection H as _ <-. clear Hhere IH.
    exists i. split; [lia|]. cbn. rewrite length_insert.
    repeat split; auto.
    - intros j Hj. lia.
    - intros j Hj. apply list_lookup_insert_ne. lia.
    - right. exists (l :: ls). split; [exact Ha|].
      apply list_lookup_insert_eq. eapply lookup_lt_Some, Ha. }
  apply lift_Ok_inv in Hcv as [Hcv ->].
  destruct v as [[|w vs]|]; try discriminate. injection Hcv as <-.
  apply st_bind_Raise_inv in H as [H | ([] & s2 & Hsv & H)].
  { discriminate. }
  unfold set_flag in Hsv. injection Hsv as <-. cbn in H. clear Hhere.
  apply IH in H as (k & Hk & Hla & Hlv & Hin & Hoa & Hov & Hat).
  cbn in Hla, Hlv, Hin, Hoa, Hov, Hat.
  rewrite length_insert in Hla. rewrite length_insert in Hlv.
  exists k. split; [lia|]. split; [exact Hla|]. split; [exact Hlv|].
  split; [|split; [|split]].
  - intros j Hj. destruct (decide (j = i)) as [->|Hne].
    + exists (l :: ls), (w :: vs).
      rewrite (Hoa i) by lia. rewrite (Hov i) by lia.
      rewrite (list_lookup_insert_eq (anchor_list s))
        by (eapply lookup_lt_Some; eassumption).
      rewrite (list_lookup_insert_eq (valid_flag_list s))
        by (eapply lookup_lt_Some; eassumption).
      done.
    + destruct (Hin j ltac:(lia)) as (ls' & vs' & H1 & H2 & H3 & H4).
      rewrite list_lookup_insert_ne in H1 by lia.
      rewrite list_lookup_insert_ne in H3 by lia. eauto 10.
  - intros j Hj. rewrite (Hoa j) by lia. apply list_lookup_insert_ne. lia.
  - intros j Hj. rewrite (Hov j) by lia. apply list_lookup_insert_ne. lia.
  - rewrite list_lookup_insert_ne in Hat by lia. exact Hat.
Qed.

(** X5.  An exception does not undo what [anchor_target] has done to the
    caller's lists.  When the call raises it has stopped at some image
    [k]: the elements of the images before [k] hold the concatenated
    tensors, in both lists; the elements after [k] are untouched; of
    image [k] itself the flags are untouched and the anchors are either
    untouched or already concatenated.  (With [k] the number of images
    the exception came after the loop.) *)
Theorem anchor_target_raise_keeps_changes gt_bboxes_list img_metas means stds
    c gt_bboxes_ignore_list gt_labels_list sampling unmap_outputs s e s' :
  anchor_target gt_bboxes_list img_metas means stds c gt_bboxes_ignore_list
    gt_labels_list sampling unmap_outputs s = (Raise e, s') →
  length (anchor_list s') = length (anchor_list s) ∧
  length (valid_flag_list s') = length (valid_flag_list s) ∧
  ∃ k, k ≤ length img_metas ∧
    (∀ j, j < k →
       ∃ ls vs,
         anchor_list s !! j = Some (Levels ls) ∧
         anchor_list s' !! j = Some (Flat (concat ls)) ∧
         valid_flag_list s !! j = Some (Levels vs) ∧
         valid_flag_list s' !! j = Some (Flat (concat vs))) ∧
    (∀ j, k < j → anchor_list s' !! j = anchor_list s !! j) ∧
    (∀ j, k ≤ j → valid_flag_list s' !! j = valid_flag_list s !! j) ∧
    (anchor_list s' !! k = anchor_list s !! k ∨
     ∃ ls, anchor_list s !! k = Some (Levels ls) ∧
           anchor_list s' !! k = Some (Flat (concat ls))).
Proof.
  unfold anchor_target. intros H.
  assert (Hhere : s' = s →
    length (anchor_list s') = length (anchor_list s) ∧
    length (valid_flag_list s') = length (valid_flag_list s) ∧
    ∃ k, k ≤ length img_metas ∧
      (∀ j, j < k →
         ∃ ls vs,
           anchor_list s !! j = Some (Levels ls) ∧
           anchor_list s' !! j = Some (Flat (concat ls)) ∧
           valid_flag_list s !! j = Some (Levels vs) ∧
           valid_flag_list s' !! j = Some (Flat (concat vs))) ∧
      (∀ j, k < j → anchor_list s' !! j = anchor_list s !! j) ∧
      (∀ j, k ≤ j → valid_flag_list s' !! j = valid_flag_list s !! j) ∧
      (anchor_list s' !! k = anchor_list s !! k ∨
       ∃ ls, anchor_list s !! k = Some (Levels ls) ∧
             anchor_list s' !! k = Some (Flat (concat ls)))).
  { intros ->. split; [reflexivity|]. split; [reflexivity|].
    exists 0. split; [lia|]. repeat split; auto. intros j Hj. lia. }
  apply st_bind_Raise_inv in H as [H | (s0 & s1 & Hs0 & H)];
    [discriminate|].
  unfold get_lists in Hs0. injection Hs0 as <- <-.
  apply st_bind_Raise_inv in H as [H | ([] & s1 & Has & H)].
  { apply Hhere. unfold lift in H. congruence. }
  apply lift_Ok_inv in Has as [Has ->].
  apply assert_Ok_inv, andb_true_iff in Has as [H1 H2].
  apply Nat.eqb_eq in H1, H2.
  apply st_bind_Raise_inv in H as [H | (a0 & s1 & Ha0 & H)].
  { apply Hhere. unfold get_anchor in H. congruence. }
  unfold get_anchor in Ha0. injection Ha0 as Ha0 <-. clear Hhere.
  apply st_bind_Raise_inv in H as [H | ([] & s1 & Hloop & H)].
  - apply concat_loop_Raise in H
      as (k & Hk & Hla & Hlv & Hin & Hoa & Hov & Hat).
    split; [exact Hla|]. split; [exact Hlv|].
    exists k. split; [lia|]. split; [intros j Hj; apply Hin; lia|].
    split; [intros j Hj; apply Hoa; lia|].
    split; [intros j Hj; apply Hov; lia|exact Hat].
  - apply st_bind_Raise_inv in H as [H | (s2 & s3 & Hs2 & H)];
      [discriminate|].
    unfold get_lists in Hs2. injection Hs2 as <- <-.
    unfold lift in H. injection H as _ <-.
    apply concat_loop_Ok in Hloop as (Hla & Hlv & Hout & Hin).
    split; [exact Hla|]. split; [exact Hlv|].
    exists (length img_metas). split; [lia|].
    split; [intros j Hj; apply Hin; lia|].
    split; [intros j Hj; apply Hout; lia|].
    split; [intros j Hj|left; apply Hout; lia].
    destruct (decide (j = length img_metas)) as [->|Hne];
      [|apply Hout; lia].
    rewrite !lookup_ge_None_2 by lia. reflexivity.
Qed.

(** X6.  The lists of a call that returned cannot be passed again: the
    elements are single tensors now, and any further call on them, with
    any arguments, raises [AssertionError] or [TypeError] and leaves the
    lists as they are. *)
Theorem anchor_target_not_reentrant gt_bboxes_list img_metas means stds c
    gt_bboxes_ignore_list gt_labels_list sampling unmap_outputs s r s'
    gt_bboxes_list2 img_metas2 means2 stds2 c2 gt_bboxes_ignore_list2
    gt_labels_list2 sampling2 unmap_outputs2 :
  anchor_target gt_bboxes_list img_metas means stds c gt_bboxes_ignore_list
    gt_labels_list sampling unmap_outputs s = (Ok r, s') →
  ∃ e,
    anchor_target gt_bboxes_list2 img_metas2 means2 stds2 c2
      gt_bboxes_ignore_list2 gt_labels_list2 sampling2 unmap_outputs2 s'
    = (Raise e, s') ∧
    (e = AssertionError ∨ e = TypeError).
Proof.
  intros H. apply anchor_target_Ok_inv in H as (Hla & Hlv & Hloop & a0 & Ha0 & _).
  apply concat_loop_Ok in Hloop as (Hla' & Hlv' & _ & Hin).
  assert (Hpos : 0 < length img_metas)
    by (rewrite <- Hla; eapply lookup_lt_Some, Ha0).
  destruct (Hin 0 ltac:(lia)) as (ls & vs & _ & Hfa & _ & Hfv).
  unfold anchor_target.
  rewrite (st_bind_Ok get_lists _ s' s' s') by reflexivity.
  destruct ((length (anchor_list s') =? length (valid_flag_list s'))
            && (length (valid_flag_list s') =? length img_metas2)) eqn:Has.
  2: { exists AssertionError. split; [|left; reflexivity].
       apply st_bind_Raise. reflexivity. }
  apply andb_true_iff in Has as [_ Hn]. apply Nat.eqb_eq in Hn.
  rewrite (st_bind_Ok _ _ s' tt s') by reflexivity.
  rewrite (st_bind_Ok (get_anchor 0) _ s' (Flat (concat ls)) s')
    by (unfold get_anchor; rewrite (getitem_Ok _ _ _ Hfa); reflexivity).
  destruct (length img_metas2) as [|n2] eqn:Hn2; [lia|].
  assert (Hloop : ∃ e, concat_loop 0 (S n2) s' = (Raise e, s') ∧
                       (e = AssertionError ∨ e = TypeError)).
  { cbn [concat_loop].
    rewrite (st_bind_Ok (get_anchor 0) _ s' (Flat (concat ls)) s')
      by (unfold get_anchor; rewrite (getitem_Ok _ _ _ Hfa); reflexivity).
    rewrite (st_bind_Ok (get_flag 0) _ s' (Flat (concat vs)) s')
      by (unfold get_flag; rewrite (getitem_Ok _ _ _ Hfv); reflexivity).
    destruct (len (Flat (concat ls)) =? len (Flat (concat vs))) eqn:Hlen.
    - exists TypeError. split; [|right; reflexivity].
      rewrite (st_bind_Ok _ _ s' tt s') by (unfold lift; reflexivity).
      apply st_bind_Raise. reflexivity.
    - exists AssertionError. split; [|left; reflexivity].
      apply st_bind_Raise. reflexivity. }
  destruct Hloop as (e & Hloop & He). exists e. split; [|exact He].
  apply st_bind_Raise, Hloop.
Qed.

End shared_lists.

Section labels_props.
Import anchor_target.
Context {bbox_lib : BBox}.
Implicit Types (flat_anchors : list box) (valid_flags inside_flags : list bool)
  (gt_bboxes gt_bboxes_ignore : option (list box)) (gt_labels : option (list Z))
  (meta : img_meta) (c : cfg) (pos neg inds : list nat)
  (sampling unmap_outputs : bool) (means stds : list Q).

Lemma index_select_Ok_inv {A : Type} (data : list A) inds : ∀ vals,
  index_select data inds = Ok vals →
  length vals = length inds ∧
  ∀ p g, inds !! p = Some g → is_Some (data !! g) ∧ vals !! p = data !! g.
Proof.
  induction inds as [|i inds IH]; intros vals H; cbn in H.
  - injection H as <-. split; [reflexivity|]. intros p g Hp. discriminate.
  - apply bind_Ok_inv in H as (x & Hx & H).
    apply bind_Ok_inv in H as (xs & Hxs & H). injection H as <-.
    apply getitem_Ok_inv in Hx. destruct (IH _ Hxs) as [Hl Hv].
    split; [cbn; lia|]. intros [|p] g Hp; cbn in Hp |- *.
    + injection Hp as <-. rewrite Hx. eauto.
    + apply Hv, Hp.
Qed.

Lemma index_put_Ok_inv {A : Type} (data vals r : list A) inds :
  index_put data inds vals = Ok r →
  length r = length data ∧
  (∀ i, i ∈ inds → i < length data) ∧
  (∀ j, j ∉ inds → r !! j = data !! j) ∧
  (length vals = length inds → r = put data inds vals).
Proof.
  unfold index_put. destruct (in_range data inds) eqn:Hr; cbn [negb];
    [|discriminate].
  pose proof (proj1 (in_range_spec data inds) Hr) as Hr'. clear Hr.
  rename Hr' into Hr.
  destruct (length vals =? length inds) eqn:Hl.
  - intros [= <-]. split; [apply length_put|]. split; [exact Hr|].
    split; [intros j Hj; apply lookup_put_notin, Hj|reflexivity].
  - apply Nat.eqb_neq in Hl. destruct vals as [|v [|]]; try discriminate.
    intros [= <-]. split; [apply length_fill|]. split; [exact Hr|].
    split; [intros j Hj; apply lookup_fill_notin, Hj|]. intros Hv. lia.
Qed.

(** The labels in front of the final assertion. *)
Lemma sampled_labels_inv flat_anchors valid_flags gt_bboxes
    gt_bboxes_ignore gt_labels meta means stds c sampling unmap_outputs
    s pos neg :
  targets_before_assert flat_anchors valid_flags gt_bboxes gt_bboxes_ignore
    gt_labels meta means stds c sampling unmap_outputs = Ok (Sampled s pos neg) →
  ∃ inside_flags gt l,
    gt_bboxes = Some gt ∧
    anchor_inside_flags flat_anchors valid_flags (img_shape meta).1
      (allowed_border c) = Ok inside_flags ∧
    length inside_flags = length flat_anchors ∧
    let nv := count_true inside_flags in
    let sr := sample c sampling (select inside_flags flat_anchors) gt
                gt_bboxes_ignore gt_labels in
    length l = nv ∧
    labels s = back unmap_outputs (length flat_anchors) inside_flags 0%Z l ∧
    if 0 <? length (pos_inds sr) then
      match gt_labels with
      | None => l = fill (replicate nv 0%Z) (pos_inds sr) 1%Z
      | Some gl =>
          ∃ vals, index_select gl (pos_assigned_gt_inds sr) = Ok vals ∧
                  index_put (replicate nv 0%Z) (pos_inds sr) vals = Ok l
      end
    else l = replicate nv 0%Z.
Proof.
  unfold targets_before_assert. destruct (img_shape meta) as [[img_h img_w] ch].
  intros H. apply bind_Ok_inv in H as (inside_flags & Hin & H).
  destruct (any inside_flags) eqn:Hany; cbn [negb] in H; [|discriminate].
  apply bind_Ok_inv in H as (anchors & Hsel & H).
  apply mask_select_Ok_inv in Hsel as [Hlen ->].
  rewrite (length_select _ _ Hlen) in H.
  destruct gt_bboxes as [[|g gt]|].
  { apply bind_Ok_inv in H as ([[[? ?] ?] ?] & _ & [=]). }
  2:{ apply bind_Ok_inv in H as ([[[? ?] ?] ?] & _ & [=]). }
  cbv zeta in H |- *.
  set (sr := sample c sampling (select inside_flags flat_anchors) (g :: gt)
               gt_bboxes_ignore gt_labels) in *.
  set (nv := count_true inside_flags) in *.
  apply bind_Ok_inv in H as ([[[l1 lw1] bt1] bw1] & Hpos & H).
  apply bind_Ok_inv in H as (lw2 & Hneg & H).
  apply bind_Ok_inv in H as ([[[l3 lw3] bt3] bw3] & Hun & H).
  injection H as <- _ _. cbn [labels].
  exists inside_flags, (g :: gt), l1.
  split; [reflexivity|]. split; [exact Hin|]. split; [exact Hlen|].
  fold sr.
  assert (Hl1 : length l1 = nv ∧
    if 0 <? length (pos_inds sr) then
      match gt_labels with
      | None => l1 = fill (replicate nv 0%Z) (pos_inds sr) 1%Z
      | Some gl =>
          ∃ vals, index_select gl (pos_assigned_gt_inds sr) = Ok vals ∧
                  index_put (replicate nv 0%Z) (pos_inds sr) vals = Ok l1
      end
    else l1 = replicate nv 0%Z).
  { destruct (0 <? length (pos_inds sr)) eqn:Hnz.
    - apply bind_Ok_inv in Hpos as (bt & Hbt & Hpos).
      apply bind_Ok_inv in Hpos as (bw & Hbw & Hpos).
      apply bind_Ok_inv in Hpos as (l & Hl & Hpos).
      apply bind_Ok_inv in Hpos as ([] & _ & Hpos).
      apply bind_Ok_inv in Hpos as (lw & Hlw & Hpos).
      injection Hpos as <- _ _ _.
      destruct gt_labels as [gl|].
      + apply bind_Ok_inv in Hl as (vals & Hvals & Hl).
        split; [|eauto].
        apply index_put_Ok_inv in Hl as (Hll & _).
        rewrite Hll. apply length_replicate.
      + apply index_fill_Ok_inv in Hl as [-> _].
        split; [|reflexivity]. rewrite length_fill. apply length_replicate.
    - injection Hpos as <- _ _ _. split; [apply length_replicate|reflexivity]. }
  destruct Hl1 as [Hl1 Hform]. split; [exact Hl1|]. split; [|exact Hform].
  unfold back. destruct unmap_outputs.
  - unfold unmap_all in Hun.
    apply bind_Ok_inv in Hun as (l & Hl & Hun).
    apply bind_Ok_inv in Hun as (lw & _ & Hun).
    apply bind_Ok_inv in Hun as (bt & _ & Hun).
    apply bind_Ok_inv in Hun as (bw & _ & Hun).
    injection Hun as <- _ _ _.
    apply unmap_Ok_inv in Hl as [_ ->]; [reflexivity|exact Hl1].
  - injection Hun as <- _ _ _. reflexivity.
Qed.

(** X7.  The labels [anchor_target_single] returns for an image with ground
    truth.  With [k] the inside anchor that row [j] stands for: if [k] is
    the [p]-th sampled positive the label is 1 when no [gt_labels] are
    given, and otherwise [gt_labels[g]] for [g] the [p]-th entry of
    [pos_assigned_gt_inds] (one entry per positive); an anchor that is not
    a sampled positive, and every anchor outside the border, has label
    0. *)
Theorem sampled_anchor_labels flat_anchors valid_flags gt gt_bboxes_ignore
    gt_labels meta means stds c sampling unmap_outputs s :
  gt ≠ [] →
  anchor_target_single flat_anchors valid_flags (Some gt) gt_bboxes_ignore
    gt_labels meta means stds c sampling unmap_outputs = Ok (Some s) →
  ∃ inside_flags,
    anchor_inside_flags flat_anchors valid_flags (img_shape meta).1
      (allowed_border c) = Ok inside_flags ∧
    let anchors := select inside_flags flat_anchors in
    let sr := sample c sampling anchors gt gt_bboxes_ignore gt_labels in
    (∀ j k, row_anchor unmap_outputs inside_flags j = Some k →
       k < length anchors →
       (∀ p, pos_inds sr !! p = Some k →
          match gt_labels with
          | None => labels s !! j = Some 1%Z
          | Some gl =>
              length (pos_assigned_gt_inds sr) = length (pos_inds sr) →
              ∃ g label, pos_assigned_gt_inds sr !! p = Some g ∧
                         gl !! g = Some label ∧
                         labels s !! j = Some label
          end) ∧
       (k ∉ pos_inds sr → labels s !! j = Some 0%Z)) ∧
    (unmap_outputs = true → ∀ j, inside_flags !! j = Some false →
       labels s !! j = Some 0%Z).
Proof.
  intros Hgt H. unfold anchor_target_single in H.
  apply bind_Ok_inv in H as (pr & Hpr & H).
  destruct pr as [|s'|s' pos neg]; [discriminate| |].
  { destruct gt as [|g gt]; [done|]. exfalso. eapply no_gt_inv, Hpr. }
  apply bind_Ok_inv in H as ([] & Hsum & [= ->]).
  apply assert_Ok_inv in Hsum.
  apply (weights_add_up_iff _ _ _ _ _ _ _ _ _ _ _ _ _ _ Hpr) in Hsum
    as (Hndp & _ & _).
  destruct (sampled_inv _ _ _ _ _ _ _ _ _ _ _ _ _ _ Hpr)
    as (flags0 & gt0 & [= <-] & _ & Hin0 & _ & _ & Hrest0).
  cbv zeta in Hrest0. destruct Hrest0 as (Hpos & _ & _ & _ & Hrp & _).
  destruct (sampled_labels_inv _ _ _ _ _ _ _ _ _ _ _ _ _ _ Hpr)
    as (inside_flags & gt' & l & [= <-] & Hin & Hlen & Hrest).
  assert (flags0 = inside_flags) as -> by congruence. clear Hin0.
  exists inside_flags. split; [exact Hin|].
  cbv zeta in Hrest |- *.
  rewrite (length_select _ _ Hlen).
  set (nv := count_true inside_flags) in *.
  set (sr := sample c sampling (select inside_flags flat_anchors) gt
               gt_bboxes_ignore gt_labels) in *.
  subst pos. destruct Hrest as (Hll & Hlab & Hform).
  assert (Hzero : ∀ k, k < nv → k ∉ pos_inds sr → l !! k = Some 0%Z).
  { intros k Hk Hnp. destruct (0 <? length (pos_inds sr)).
    - destruct gt_labels as [gl|].
      + destruct Hform as (vals & _ & Hput).
        apply index_put_Ok_inv in Hput as (_ & _ & Hout & _).
        rewrite (Hout _ Hnp). apply lookup_replicate_2, Hk.
      + rewrite Hform, lookup_fill_notin by exact Hnp.
        apply lookup_replicate_2, Hk.
    - rewrite Hform. apply lookup_replicate_2, Hk. }
  split.
  - intros j k Hk Hknv. rewrite Hlab.
    rewrite (lookup_back _ _ _ _ _ _ _ Hk Hlen) by (symmetry; exact Hll).
    split; [|apply Hzero, Hknv].
    intros p Hp.
    assert (Hkp : k ∈ pos_inds sr) by (eapply list_elem_of_lookup_2, Hp).
    assert (Hnz : (0 <? length (pos_inds sr)) = true).
    { apply Nat.ltb_lt. apply lookup_lt_Some in Hp. lia. }
    rewrite Hnz in Hform. destruct gt_labels as [gl|].
    + intros Hone. destruct Hform as (vals & Hvals & Hput).
      apply index_select_Ok_inv in Hvals as [Hlv Hvals].
      apply index_put_Ok_inv in Hput as (_ & _ & _ & Hput).
      rewrite Hput by lia.
      destruct (lookup_lt_is_Some_2 (pos_assigned_gt_inds sr) p) as [g Hg].
      { rewrite Hone. eapply lookup_lt_Some, Hp. }
      destruct (Hvals _ _ Hg) as [[label Hlabel] Hv].
      exists g, label. split; [exact Hg|]. split; [exact Hlabel|].
      rewrite <- Hlabel, <- Hv.
      apply lookup_put; try assumption; [lia|].
      rewrite length_replicate. exact Hknv.
    + rewrite Hform. apply lookup_fill_in; [exact Hkp|].
      rewrite length_replicate. exact Hknv.
  - intros -> j Hj. rewrite Hlab. apply lookup_back_outside; assumption.
Qed.

End labels_props.

Section counts_props.
Import anchor_target.
Context {bbox_lib : BBox}.
Implicit Types (flat_anchors : list box) (valid_flags inside_flags : list bool)
  (gt_bboxes gt_bboxes_ignore : option (list box)) (gt_labels : option (list Z))
  (meta : img_meta) (c : cfg) (pos neg inds : list nat)
  (sampling unmap_outputs : bool) (means stds : list Q) (s : lists).

(** The sampled positives and negatives of one image; an image without
    ground truth has no index lists, and its negatives are the anchors of
    label weight 1. *)
#[local] Abbreviation positives r := (length (default [] (s_pos_inds r))).
#[local] Abbreviation negatives r :=
  (match s_neg_inds r with
   | Some neg => length neg
   | None => count_true ((fun w => Qeq_bool w 1) <$> label_weights r)
   end).
#[local] Abbreviation of_nat n := (inject_Z (Z.of_nat n)).

Lemma sum_cons (x : Q) (w : list Q) : sum (x :: w) = (x + sum w)%Q.
Proof. reflexivity. Qed.

Lemma total_sum (ws : list (list Q)) : (total ws == sum (sum <$> ws))%Q.
Proof.
  unfold total.
  assert (H : ∀ acc,
    (foldl (fun num_total w => sum w + num_total) acc ws
       == acc + sum (sum <$> ws))%Q).
  { induction ws as [|w ws IH]; intros acc.
    - cbn. ring.
    - rewrite fmap_cons, sum_cons. cbn [foldl]. rewrite IH. ring. }
  rewrite H. ring.
Qed.

Lemma sum_fmap_Qeq {A : Type} (f g : A → Q) (l : list A) :
  (∀ x, x ∈ l → (f x == g x)%Q) → (sum (f <$> l) == sum (g <$> l))%Q.
Proof.
  induction l as [|x l IH]; intros H; [reflexivity|].
  rewrite !fmap_cons, !sum_cons.
  rewrite IH by (intros y Hy; apply H; right; exact Hy).
  rewrite (H x) by left. reflexivity.
Qed.

Lemma sum_fmap_plus {A : Type} (f g : A → Q) (l : list A) :
  (sum ((fun x => f x + g x) <$> l) == sum (f <$> l) + sum (g <$> l))%Q.
Proof.
  induction l as [|x l IH]; [cbn; ring|].
  rewrite !fmap_cons, !sum_cons, IH. ring.
Qed.

Lemma sum_replicate_one n : (sum (replicate n 1) == of_nat n)%Q.
Proof.
  induction n as [|n IH]; [reflexivity|].
  cbn [replicate]. rewrite sum_cons, IH, inject_nat_S. ring.
Qed.

Lemma count_ones_scatter (mask : list bool) : ∀ n,
  length mask = n →
  count_true ((fun w => Qeq_bool w 1)
                <$> scatter (replicate n 0%Q) mask
                      (replicate (count_true mask) 1%Q))
  = count_true mask.
Proof.
  induction mask as [|b mask IH]; intros [|n] Hn; try discriminate;
    [reflexivity|].
  injection Hn as Hn. destruct b.
  - cbn [count_true replicate scatter Nat.add]. rewrite fmap_cons.
    cbn [count_true]. rewrite (IH _ Hn). reflexivity.
  - cbn [count_true replicate scatter Nat.add]. rewrite fmap_cons.
    cbn [count_true]. rewrite (IH _ Hn). reflexivity.
Qed.

Lemma fmap_scatter {A B : Type} (f : A → B) (ret : list A) :
  ∀ (mask : list bool) (data : list A),
  f <$> scatter ret mask data = scatter (f <$> ret) mask (f <$> data).
Proof.
  induction ret as [|r ret IH]; intros mask data.
  - destruct mask; reflexivity.
  - destruct mask as [|[] mask]; [reflexivity| |].
    + destruct data as [|d data]; [reflexivity|].
      cbn [scatter]. rewrite !fmap_cons. cbn [scatter]. rewrite IH.
      reflexivity.
    + cbn [scatter]. rewrite !fmap_cons. cbn [scatter]. rewrite IH.
      reflexivity.
Qed.

Lemma fmap_fill {A B : Type} (f : A → B) inds : ∀ (data : list A) (v : A),
  f <$> fill data inds v = fill (f <$> data) inds (f v).
Proof.
  unfold fill. induction inds as [|i inds IH]; intros data v; [reflexivity|].
  cbn [foldl]. rewrite IH, list_fmap_insert. reflexivity.
Qed.

(** What the path without ground truth returns. *)
Lemma no_gt_result_inv flat_anchors valid_flags gt_bboxes gt_bboxes_ignore
    gt_labels meta means stds c sampling unmap_outputs r :
  targets_before_assert flat_anchors valid_flags gt_bboxes gt_bboxes_ignore
    gt_labels meta means stds c sampling unmap_outputs = Ok (NoGt r) →
  ∃ inside_flags,
    length inside_flags = length flat_anchors ∧
    s_pos_inds r = None ∧ s_neg_inds r = None ∧
    label_weights r
      = scatter (replicate (length flat_anchors) 0%Q) inside_flags
          (replicate (count_true inside_flags) 1%Q) ∧
    bbox_weights r = replicate (length flat_anchors) zeros.
Proof.
  unfold targets_before_assert. destruct (img_shape meta) as [[img_h img_w] ch].
  intros H. apply bind_Ok_inv in H as (inside_flags & Hin & H).
  destruct (any inside_flags) eqn:Hany; cbn [negb] in H; [|discriminate].
  apply bind_Ok_inv in H as (anchors & Hsel & H).
  apply mask_select_Ok_inv in Hsel as [Hlen ->].
  rewrite (length_select _ _ Hlen) in H.
  exists inside_flags. split; [exact Hlen|].
  assert (Hun : ∀ l lw bt bw,
    unmap_all (length flat_anchors) inside_flags
      (replicate (count_true inside_flags) 0%Z)
      (replicate (count_true inside_flags) 1%Q)
      (replicate (count_true inside_flags) zeros)
      (replicate (count_true inside_flags) zeros) = Ok (l, lw, bt, bw) →
    lw = scatter (replicate (length flat_anchors) 0%Q) inside_flags
           (replicate (count_true inside_flags) 1%Q) ∧
    bw = replicate (length flat_anchors) zeros).
  { intros l lw bt bw Hun. unfold unmap_all in Hun.
    apply bind_Ok_inv in Hun as (l' & _ & Hun).
    apply bind_Ok_inv in Hun as (lw' & Hlw & Hun).
    apply bind_Ok_inv in Hun as (bt' & _ & Hun).
    apply bind_Ok_inv in Hun as (bw' & Hbw & Hun).
    injection Hun as _ <- _ <-.
    apply unmap_Ok_inv in Hlw as [_ ->]; [|apply length_replicate].
    apply unmap_Ok_inv in Hbw as [_ ->]; [|apply length_replicate].
    split; [reflexivity|]. apply scatter_replicate, Hlen. }
  destruct gt_bboxes as [[|g gt]|].
  - apply bind_Ok_inv in H as ([[[l lw] bt] bw] & Hu & H).
    injection H as <-. cbn. destruct (Hun _ _ _ _ Hu) as [-> ->]. done.
  - cbv zeta in H.
    apply bind_Ok_inv in H as ([[[? ?] ?] ?] & _ & H).
    apply bind_Ok_inv in H as (? & _ & H).
    apply bind_Ok_inv in H as ([[[? ?] ?] ?] & _ & H). discriminate.
  - apply bind_Ok_inv in H as ([[[l lw] bt] bw] & Hu & H).
    injection H as <-. cbn. destruct (Hun _ _ _ _ Hu) as [-> ->]. done.
Qed.

(** The sums over the weights of one image that returned targets. *)
Lemma single_sums flat_anchors valid_flags gt_bboxes gt_bboxes_ignore
    gt_labels meta means stds c sampling unmap_outputs r :
  anchor_target_single flat_anchors valid_flags gt_bboxes gt_bboxes_ignore
    gt_labels meta means stds c sampling unmap_outputs = Ok (Some r) →
  (sum (bx1 <$> bbox_weights r) == of_nat (positives r))%Q ∧
  (sum (label_weights r)
     == of_nat (positives r) + of_nat (negatives r))%Q.
Proof.
  intros H. unfold anchor_target_single in H.
  apply bind_Ok_inv in H as (pr & Hpr & H).
  destruct pr as [|r'|r' pos neg]; [discriminate| |].
  - injection H as ->.
    destruct (no_gt_result_inv _ _ _ _ _ _ _ _ _ _ _ _ Hpr)
      as (inside_flags & Hlen & -> & -> & Hlw & ->).
    cbn [default length]. split.
    + rewrite fmap_replicate. apply sum_replicate_zero.
    + rewrite Hlw, (count_ones_scatter _ _ Hlen).
      rewrite sum_scatter_zeros;
        [|exact Hlen|rewrite length_replicate; reflexivity].
      rewrite sum_replicate_one.
      change (inject_Z (Z.of_nat 0)) with 0%Q. ring.
  - apply bind_Ok_inv in H as ([] & Hsum & [= ->]).
    apply assert_Ok_inv in Hsum.
    assert (Hnd := proj1 (weights_add_up_iff _ _ _ _ _ _ _ _ _ _ _ _ _ _ Hpr)
                     Hsum).
    destruct Hnd as (Hndp & _ & _).
    destruct (sampled_inv _ _ _ _ _ _ _ _ _ _ _ _ _ _ Hpr)
      as (inside_flags & gt & _ & _ & _ & _ & Hlen & Hrest).
    cbv zeta in Hrest.
    destruct Hrest as (_ & _ & -> & -> & Hrp & _ & _ & Hbw & _).
    cbn [default id]. split.
    + rewrite Hbw. unfold back. destruct unmap_outputs.
      * rewrite fmap_scatter, fmap_fill, !fmap_replicate.
        cbn [bx1 zeros ones].
        rewrite sum_scatter_zeros;
          [|exact Hlen|rewrite length_fill, length_replicate; reflexivity].
        rewrite sum_fill_ones, sum_replicate_zero; [ring|exact Hndp|].
        intros i Hi. apply lookup_replicate_2, Hrp, Hi.
      * rewrite fmap_fill, !fmap_replicate. cbn [bx1 zeros ones].
        rewrite sum_fill_ones, sum_replicate_zero; [ring|exact Hndp|].
        intros i Hi. apply lookup_replicate_2, Hrp, Hi.
    + unfold weights_add_up in Hsum. apply Qeq_bool_iff in Hsum.
      rewrite Hsum, Nat2Z.inj_add, inject_Z_plus. reflexivity.
Qed.

Lemma multi_apply_Forall f (al : list (entry box)) :
  ∀ vl gt ign lab metas rs,
  multi_apply f al vl gt ign lab metas = Ok rs →
  Forall (fun r => ∃ a v g i l m, f a v g i l m = Ok r) rs.
Proof.
  induction al as [|a al IH]; intros vl gt ign lab metas rs H.
  - injection H as <-. constructor.
  - destruct vl as [|v vl], gt as [|g gt], ign as [|i ign], lab as [|l lab],
      metas as [|m metas]; try (injection H as <-; constructor).
    cbn [multi_apply] in H.
    apply bind_Ok_inv in H as (r & Hr & H).
    apply bind_Ok_inv in H as (rs' & Hrs & H). injection H as <-.
    constructor; [eauto 10|]. eapply IH, Hrs.
Qed.

Lemma any_none_false (rs : list (option single)) :
  any_none rs = false → rs = Some <$> omap id rs.
Proof.
  induction rs as [|[r|] rs IH]; intros H; [reflexivity| |discriminate].
  cbn in H. cbn. f_equal. apply IH, H.
Qed.

(** X8.  The two counts [anchor_target] returns.  [num_total_pos] is the
    number of sampled positive anchors over all images.  [num_total_neg]
    is the number of sampled negative anchors over all images, where an
    image without ground truth, which is not sampled, counts with all its
    anchors of label weight 1 (those inside the border). *)
Theorem anchor_target_counts gt_bboxes_list img_metas means stds c
    gt_bboxes_ignore_list gt_labels_list sampling unmap_outputs s t s' :
  anchor_target gt_bboxes_list img_metas means stds c gt_bboxes_ignore_list
    gt_labels_list sampling unmap_outputs s = (Ok (Some t), s') →
  ∃ done : list single,
    multi_apply (single_call means stds c sampling unmap_outputs)
      (anchor_list s') (valid_flag_list s') gt_bboxes_list
      (default (replicate (length img_metas) None) gt_bboxes_ignore_list)
      (default (replicate (length img_metas) None) gt_labels_list)
      img_metas
    = Ok (Some <$> done) ∧
    (num_total_pos t
       == sum ((fun r => of_nat (positives r)) <$> done))%Q ∧
    (num_total_neg t
       == sum ((fun r => of_nat (negatives r)) <$> done))%Q.
Proof.
  intros H.
  apply anchor_target_Ok_inv in H as (_ & _ & _ & a0 & _ & H).
  unfold targets_of_lists in H.
  apply bind_Ok_inv in H as (results & Hres & H).
  apply bind_Ok_inv in H as ([] & _ & H).
  destruct (any_none results) eqn:Hnone; [discriminate|].
  apply any_none_false in Hnone.
  set (done := omap id results) in *.
  apply bind_Ok_inv in H as (ll & _ & H).
  apply bind_Ok_inv in H as (lwl & _ & H).
  apply bind_Ok_inv in H as (btl & _ & H).
  apply bind_Ok_inv in H as (bwl & _ & H).
  injection H as <-. cbn [num_total_pos num_total_neg].
  exists done. rewrite <- Hnone. split; [exact Hres|].
  assert (Hall : ∀ r, r ∈ done →
    (sum (bx1 <$> bbox_weights r) == of_nat (positives r))%Q ∧
    (sum (label_weights r)
       == of_nat (positives r) + of_nat (negatives r))%Q).
  { intros r Hr. apply multi_apply_Forall in Hres.
    rewrite Forall_forall in Hres.
    destruct (Hres (Some r)) as (a & v & g & i & l & m & Hcall).
    { rewrite Hnone. apply list_elem_of_fmap_2, Hr. }
    unfold single_call in Hcall.
    destruct a as [|flat_anchors]; [discriminate|].
    destruct v as [|valid_flags]; [discriminate|].
    eapply single_sums, Hcall. }
  assert (Hpos :
    (total ((fun w => bx1 <$> w) <$> (bbox_weights <$> done))
       == sum ((fun r => of_nat (positives r)) <$> done))%Q).
  { rewrite total_sum, <- !list_fmap_compose.
    apply sum_fmap_Qeq. intros r Hr. apply (Hall r Hr). }
  split; [exact Hpos|].
  rewrite Hpos, total_sum, <- list_fmap_compose.
  rewrite (sum_fmap_Qeq _
             (fun r => of_nat (positives r) + of_nat (negatives r))%Q)
    by (intros r Hr; apply (Hall r Hr)).
  rewrite (sum_fmap_plus (fun r => of_nat (positives r))
             (fun r => of_nat (negatives r))).
  ring.
Qed.

End counts_props.

Section pos_weight_props.
Import anchor_target.
Context {bbox_lib : BBox}.
Implicit Types (flat_anchors : list box) (valid_flags inside_flags : list bool)
  (gt_bboxes_ignore : option (list box)) (gt_labels : option (list Z))
  (meta : img_meta) (c : cfg) (sampling unmap_outputs : bool)
  (means stds : list Q).

(** X23.  A positive [cfg.pos_weight] is not supported.  For an image
    with ground truth for which the sampler returns a positive anchor,
    [anchor_target_single] never returns targets when [cfg.pos_weight > 0];
    with sampled positives in range, one encoded row per positive and
    one label per positive, the call ends in the [AssertionError] of
    [assert cfg.pos_weight <= 0]. *)
Theorem positive_pos_weight_rejected flat_anchors valid_flags g gt
    gt_bboxes_ignore gt_labels meta means stds c sampling unmap_outputs
    inside_flags :
  anchor_inside_flags flat_anchors valid_flags (img_shape meta).1
    (allowed_border c) = Ok inside_flags →
  let nv := count_true inside_flags in
  let sr := sample c sampling (select inside_flags flat_anchors) (g :: gt)
              gt_bboxes_ignore gt_labels in
  let deltas := bbox2delta (pos_bboxes sr) (pos_gt_bboxes sr) means stds in
  pos_inds sr ≠ [] →
  (0 < pos_weight c)%Q →
  (∀ s, anchor_target_single flat_anchors valid_flags (Some (g :: gt))
          gt_bboxes_ignore gt_labels meta means stds c sampling unmap_outputs
        ≠ Ok (Some s)) ∧
  (length valid_flags = length flat_anchors →
   any inside_flags = true →
   (∀ i, i ∈ pos_inds sr → i < nv) →
   length deltas = length (pos_inds sr) →
   (∀ gl, gt_labels = Some gl →
      ∃ vals, index_select gl (pos_assigned_gt_inds sr) = Ok vals ∧
              length vals = length (pos_inds sr)) →
   anchor_target_single flat_anchors valid_flags (Some (g :: gt))
     gt_bboxes_ignore gt_labels meta means stds c sampling unmap_outputs
   = Raise AssertionError).
Proof.
  intros Hin nv sr deltas Hpos Hpw.
  assert (Hnz : (0 <? length (pos_inds sr)) = true).
  { apply Nat.ltb_lt. destruct (pos_inds sr); [done|cbn; lia]. }
  assert (Hfail : Qle_bool (pos_weight c) 0 = false).
  { apply not_true_iff_false. rewrite Qle_bool_iff.
    apply Qlt_not_le, Hpw. }
  split.
  - intros s H. unfold anchor_target_single in H.
    apply bind_Ok_inv in H as (pr & Hpr & H).
    destruct pr as [|s'|s' pos neg]; [discriminate| |].
    { eapply no_gt_inv, Hpr. }
    clear H. unfold targets_before_assert in Hpr.
    destruct (img_shape meta) as [[img_h img_w] ch]. cbn [fst] in Hin.
    apply bind_Ok_inv in Hpr as (flags' & Hin' & Hpr).
    assert (flags' = inside_flags) as -> by congruence.
    destruct (any inside_flags); cbn [negb] in Hpr; [|discriminate].
    apply bind_Ok_inv in Hpr as (anchors & Hsel & Hpr).
    apply mask_select_Ok_inv in Hsel as [Hlen ->].
    rewrite (length_select _ _ Hlen) in Hpr. cbv zeta in Hpr.
    fold nv sr deltas in Hpr. rewrite Hnz in Hpr.
    apply bind_Ok_inv in Hpr as ([[[l1 lw1] bt1] bw1] & Hp & _).
    apply bind_Ok_inv in Hp as (bt & _ & Hp).
    apply bind_Ok_inv in Hp as (bw & _ & Hp).
    apply bind_Ok_inv in Hp as (l & _ & Hp).
    apply bind_Ok_inv in Hp as ([] & Hassert & _).
    rewrite Hfail in Hassert. discriminate.
  - intros Hvf Hany Hrange Hdel Hlab.
    pose proof (anchor_inside_flags_length _ _ _ _ _ Hvf Hin) as Hlen.
    unfold anchor_target_single, targets_before_assert.
    destruct (img_shape meta) as [[img_h img_w] ch]. cbn [fst] in Hin.
    rewrite Hin. py_step. rewrite Hany. cbn [negb].
    rewrite (mask_select_Ok _ _ Hlen). py_step.
    rewrite (length_select _ _ Hlen). cbv zeta. fold nv sr deltas.
    rewrite Hnz.
    assert (Hr : ∀ A (x : A) i, i ∈ pos_inds sr →
                   i < length (replicate nv x)).
    { intros A x i Hi. rewrite length_replicate. apply Hrange, Hi. }
    rewrite index_put_Ok by (auto using Hr). py_step.
    rewrite !index_fill_Ok by (auto using Hr). py_step.
    destruct gt_labels as [gl|].
    + destruct (Hlab gl eq_refl) as (vals & -> & Hvl). py_step.
      rewrite index_put_Ok by (auto using Hr). py_step.
      rewrite Hfail. reflexivity.
    + py_step. rewrite Hfail. reflexivity.
Qed.

End pos_weight_props.

Section levels_of_targets.
Import anchor_target.
Context {bbox_lib : BBox}.
Implicit Types (c : cfg) (sampling unmap_outputs : bool)
  (means stds : list Q) (s : lists) (img_metas : list img_meta).

Lemma multi_apply_length f (al : list (entry box)) :
  ∀ vl gt ign lab metas rs,
  multi_apply f al vl gt ign lab metas = Ok rs →
  length rs
  = length al `min` (length vl `min` (length gt `min`
      (length ign `min` (length lab `min` length metas)))).
Proof.
  induction al as [|a al IH]; intros vl gt ign lab metas rs H.
  - injection H as <-. reflexivity.
  - destruct vl as [|v vl], gt as [|g gt], ign as [|i ign], lab as [|l lab],
      metas as [|m metas]; try (injection H as <-; cbn; lia).
    cbn [multi_apply] in H.
    apply bind_Ok_inv in H as (r & _ & H).
    apply bind_Ok_inv in H as (rs' & Hrs & H). injection H as <-.
    cbn [length]. rewrite (IH _ _ _ _ _ _ Hrs). lia.
Qed.

(** X22.  The per-level lists [anchor_target] returns are the per-image
    targets cut at the level sizes of the first image.  With [ls] the
    levels of [anchor_list[0]] as passed in and [done] the per-image
    results of [anchor_target_single]: each of the four lists has one
    entry per level of the first image, and for every image the rows of
    its entries, put one after the other, are the first [sum(len(l) for l
    in ls)] rows of the image's target.  Images are taken as far as the
    shortest of the per-image argument lists reaches. *)
Theorem anchor_target_levels gt_bboxes_list img_metas means stds c
    gt_bboxes_ignore_list gt_labels_list sampling unmap_outputs s t s' :
  anchor_target gt_bboxes_list img_metas means stds c gt_bboxes_ignore_list
    gt_labels_list sampling unmap_outputs s = (Ok (Some t), s') →
  ∃ ls (done : list single),
    anchor_list s !! 0 = Some (Levels ls) ∧
    multi_apply (single_call means stds c sampling unmap_outputs)
      (anchor_list s') (valid_flag_list s') gt_bboxes_list
      (default (replicate (length img_metas) None) gt_bboxes_ignore_list)
      (default (replicate (length img_metas) None) gt_labels_list)
      img_metas
    = Ok (Some <$> done) ∧
    length done
    = length img_metas `min` (length gt_bboxes_list `min`
        (from_option length (length img_metas) gt_bboxes_ignore_list `min`
           from_option length (length img_metas) gt_labels_list)) ∧
    let n := sum_list (length <$> ls) in
    length (labels_list t) = length ls ∧
    length (label_weights_list t) = length ls ∧
    length (bbox_targets_list t) = length ls ∧
    length (bbox_weights_list t) = length ls ∧
    ∀ i r, done !! i = Some r →
      concat ((fun lv => level_row lv i) <$> labels_list t)
        = take n (labels r) ∧
      concat ((fun lv => level_row lv i) <$> label_weights_list t)
        = take n (label_weights r) ∧
      concat ((fun lv => level_row lv i) <$> bbox_targets_list t)
        = take n (bbox_targets r) ∧
      concat ((fun lv => level_row lv i) <$> bbox_weights_list t)
        = take n (bbox_weights r).
Proof.
  intros H.
  apply anchor_target_Ok_inv in H as (Hla & Hlv & Hloop & a0 & Ha0 & H).
  apply concat_loop_Ok in Hloop as (Hla' & Hlv' & _ & Hin).
  assert (Hpos : 0 < length img_metas)
    by (rewrite <- Hla; eapply lookup_lt_Some, Ha0).
  destruct (Hin 0 ltac:(lia)) as (ls & vs & Hls & _).
  assert (a0 = Levels ls) as -> by congruence.
  unfold targets_of_lists in H.
  apply bind_Ok_inv in H as (results & Hres & H).
  apply bind_Ok_inv in H as ([] & _ & H).
  destruct (any_none results) eqn:Hnone; [discriminate|].
  apply any_none_false in Hnone.
  set (done := omap id results) in *.
  apply bind_Ok_inv in H as (ll & Hll & H).
  apply bind_Ok_inv in H as (lwl & Hlwl & H).
  apply bind_Ok_inv in H as (btl & Hbtl & H).
  apply bind_Ok_inv in H as (bwl & Hbwl & H).
  injection H as <-.
  cbn [labels_list label_weights_list bbox_targets_list bbox_weights_list].
  exists ls, done. split; [exact Hls|]. rewrite <- Hnone.
  split; [exact Hres|]. split.
  { apply multi_apply_length in Hres. rewrite Hnone, length_fmap in Hres.
    rewrite Hres, Hla', Hlv', Hla, Hlv.
    destruct gt_bboxes_ignore_list, gt_labels_list; cbn;
      rewrite ?length_replicate; lia. }
  cbv zeta. cbn [level_sizes] in Hll, Hlwl, Hbtl, Hbwl.
  destruct (images_to_levels_rows _ _ _ Hll) as [Hl1 Hr1].
  destruct (images_to_levels_rows _ _ _ Hlwl) as [Hl2 Hr2].
  destruct (images_to_levels_rows _ _ _ Hbtl) as [Hl3 Hr3].
  destruct (images_to_levels_rows _ _ _ Hbwl) as [Hl4 Hr4].
  rewrite length_fmap in Hl1, Hl2, Hl3, Hl4.
  do 4 (split; [assumption|]).
  intros i r Hr.
  split; [apply Hr1; rewrite list_lookup_fmap, Hr; reflexivity|].
  split; [apply Hr2; rewrite list_lookup_fmap, Hr; reflexivity|].
  split; [apply Hr3; rewrite list_lookup_fmap, Hr; reflexivity|].
  apply Hr4. rewrite list_lookup_fmap, Hr. reflexivity.
Qed.

End levels_of_targets.

Section more_anchor_examples.
Import anchor_target toy_bbox.

Lemma unmap_round_trip_witness :
  ∃ r, unmap [7; 9]%Z 4 [true; false; false; true] 0%Z = Ok r ∧
       length r = 4 ∧
       select [true; false; false; true] r = [7; 9]%Z ∧
       ∀ j, [true; false; false; true] !! j = Some false → r !! j = Some 0%Z.
Proof.
  apply (proj2 (unmap_round_trip [7; 9]%Z 4 [true; false; false; true] 0%Z));
    reflexivity.
Defined.

Lemma anchor_inside_flags_monotone_witness :
  ∃ flags',
    anchor_inside_flags flat all_valid (32, 32)%Z 16 = Ok flags' ∧
    length [true; true; false; true] = length flat ∧
    length flags' = length flat ∧
    ∀ j, [true; true; false; true] !! j = Some true →
         all_valid !! j = Some true ∧ flags' !! j = Some true.
Proof.
  apply (anchor_inside_flags_monotone flat all_valid (32, 32)%Z 0 16);
    [reflexivity|lia|reflexivity].
Defined.

Lemma anchor_target_single_without_gt_witness :
  ∃ s,
    anchor_target_single flat all_valid (Some []) None None image
      means stds weighted true false = Ok (Some s) ∧
    s_pos_inds s = None ∧ s_neg_inds s = None ∧
    labels s = replicate (length flat) 0%Z ∧
    bbox_targets s = replicate (length flat) zeros ∧
    bbox_weights s = replicate (length flat) zeros ∧
    length (label_weights s) = length flat ∧
    ∀ j (b : bool), [true; true; false; true] !! j = Some b →
           label_weights s !! j = Some (if b then 1%Q else 0%Q).
Proof.
  apply (anchor_target_single_without_gt flat all_valid (Some []) None None
           image means stds weighted true false [true; true; false; true]);
    [right; reflexivity|reflexivity|reflexivity|reflexivity].
Defined.

Lemma images_to_levels_round_trip_witness :
  ∃ levels,
    images_to_levels [[1; 2; 3]; [4; 5; 6]]%Z [1; 2] = Ok levels ∧
    levels = [Stacked [[1]; [4]]; Stacked [[2; 3]; [5; 6]]]%Z ∧
    concat ((fun lv => level_row lv 1) <$> levels) = [4; 5; 6]%Z.
Proof.
  eexists. split; [reflexivity|]. split; [reflexivity|].
  apply (proj2 (images_to_levels_round_trip [[1; 2; 3]; [4; 5; 6]]%Z [1; 2])
           _ eq_refl); reflexivity.
Defined.

Lemma anchor_target_raise_keeps_changes_witness :
  ∃ s',
    anchor_target [Some truth; Some truth] [image; image] means stds rpn
      None None true true ragged = (Raise AssertionError, s') ∧
    anchor_list s' = [Flat flat; Levels [[a2]; [a2]]] ∧
    valid_flag_list s' = [Flat all_valid; Levels [[true]]] ∧
    length (anchor_list s') = length (anchor_list ragged) ∧
    length (valid_flag_list s') = length (valid_flag_list ragged) ∧
    ∃ k, k ≤ 2 ∧
      (∀ j, j < k →
         ∃ ls vs,
           anchor_list ragged !! j = Some (Levels ls) ∧
           anchor_list s' !! j = Some (Flat (concat ls)) ∧
           valid_flag_list ragged !! j = Some (Levels vs) ∧
           valid_flag_list s' !! j = Some (Flat (concat vs))) ∧
      (∀ j, k < j → anchor_list s' !! j = anchor_list ragged !! j) ∧
      (∀ j, k ≤ j → valid_flag_list s' !! j = valid_flag_list ragged !! j) ∧
      (anchor_list s' !! k = anchor_list ragged !! k ∨
       ∃ ls, anchor_list ragged !! k = Some (Levels ls) ∧
             anchor_list s' !! k = Some (Flat (concat ls))).
Proof.
  eexists. split; [vm_compute; reflexivity|]. split; [reflexivity|].
  split; [reflexivity|].
  apply (anchor_target_raise_keeps_changes [Some truth; Some truth]
           [image; image] means stds rpn None None true true ragged
           AssertionError).
  vm_compute. reflexivity.
Defined.

Lemma anchor_target_not_reentrant_witness :
  ∃ e,
    anchor_target [Some truth] [image] means stds rpn None None true true
      {| anchor_list := [Flat flat]; valid_flag_list := [Flat all_valid] |}
    = (Raise e,
       {| anchor_list := [Flat flat]; valid_flag_list := [Flat all_valid] |}) ∧
    (e = AssertionError ∨ e = TypeError).
Proof.
  eapply (anchor_target_not_reentrant [Some truth] [image] means stds rpn
            None None true true one_image).
  vm_compute. reflexivity.
Defined.

Lemma sampled_anchor_labels_witness :
  ∃ inside_flags,
    anchor_inside_flags flat all_valid (img_shape image).1
      (allowed_border rpn) = Ok inside_flags ∧
    let anchors := select inside_flags flat in
    let sr := sample rpn false anchors truth None (Some classes) in
    (∀ j k, row_anchor true inside_flags j = Some k →
       k < length anchors →
       (∀ p, pos_inds sr !! p = Some k →
          length (pos_assigned_gt_inds sr) = length (pos_inds sr) →
          ∃ g label, pos_assigned_gt_inds sr !! p = Some g ∧
                     classes !! g = Some label ∧
                     [0; 0; 0; 7]%Z !! j = Some label) ∧
       (k ∉ pos_inds sr → [0; 0; 0; 7]%Z !! j = Some 0%Z)) ∧
    (true = true → ∀ j, inside_flags !! j = Some false →
       [0; 0; 0; 7]%Z !! j = Some 0%Z).
Proof.
  apply (sampled_anchor_labels flat all_valid truth None (Some classes) image
           means stds rpn false true
           {| labels := [0; 0; 0; 7]%Z;
              label_weights := [1; 1; 0; 1]%Q;
              bbox_targets :=
                [zeros; zeros; zeros;
                 Box ((16 - 16 - 0) / 1) ((16 - 16 - 0) / 1)
                     ((29 - 31 - 0) / 2) ((30 - 31 - 0) / 2)];
              bbox_weights := [zeros; zeros; zeros; ones];
              s_pos_inds := Some [2];
              s_neg_inds := Some [0; 1] |});
    [discriminate|].
  vm_compute. reflexivity.
Defined.

Lemma anchor_target_counts_witness :
  ∃ t s',
    anchor_target [Some truth] [image] means stds rpn None None true true
      one_image = (Ok (Some t), s') ∧
    (num_total_pos t == 1)%Q ∧ (num_total_neg t == 2)%Q ∧
    ∃ done : list single,
      multi_apply (single_call means stds rpn true true)
        (anchor_list s') (valid_flag_list s') [Some truth]
        (default (replicate (length [image]) None) None)
        (default (replicate (length [image]) None) None)
        [image]
      = Ok (Some <$> done) ∧
      (num_total_pos t
         == sum ((fun r => inject_Z (Z.of_nat
                    (length (default [] (s_pos_inds r))))) <$> done))%Q ∧
      (num_total_neg t
         == sum ((fun r => inject_Z (Z.of_nat
                    (match s_neg_inds r with
                     | Some neg => length neg
                     | None => count_true ((fun w => Qeq_bool w 1)
                                             <$> label_weights r)
                     end))) <$> done))%Q.
Proof.
  eexists _, _. split; [vm_compute; reflexivity|].
  split; [reflexivity|]. split; [reflexivity|].
  apply (anchor_target_counts [Some truth] [image] means stds rpn None None
           true true one_image).
  vm_compute. reflexivity.
Defined.

Lemma anchor_target_levels_witness :
  ∃ t s' ls (done : list single),
    anchor_target [Some truth] [image] means stds rpn None None true true
      one_image = (Ok (Some t), s') ∧
    labels_list t = [Squeezed [0; 0]; Squeezed [0; 1]]%Z ∧
    anchor_list one_image !! 0 = Some (Levels ls) ∧
    length done = 1 ∧
    length (labels_list t) = length ls ∧
    ∀ i r, done !! i = Some r →
      concat ((fun lv => level_row lv i) <$> labels_list t)
        = take (sum_list (length <$> ls)) (labels r).
Proof.
  destruct (anchor_target [Some truth] [image] means stds rpn None None
              true true one_image) as [[[t|]|e] s'] eqn:Hcall;
    try (vm_compute in Hcall; discriminate).
  destruct (anchor_target_levels _ _ _ _ _ _ _ _ _ _ _ _ Hcall)
    as (ls & done & Hls & _ & Hlen & Hlevels).
  cbv zeta in Hlevels. destruct Hlevels as (Hl1 & _ & _ & _ & Hrows).
  exists t, s', ls, done. split; [reflexivity|].
  split; [vm_compute in Hcall; injection Hcall as <- _; reflexivity|].
  split; [exact Hls|]. split; [exact Hlen|]. split; [exact Hl1|].
  intros i r Hr. apply (Hrows i r Hr).
Defined.

Lemma positive_pos_weight_rejected_witness :
  anchor_target_single flat all_valid (Some truth) None None image
    means stds weighted true true = Raise AssertionError.
Proof.
  assert (Hsr : pos_inds (sample weighted true
                            (select [true; true; false; true] flat)
                            truth None None) = [2])
    by (vm_compute; reflexivity).
  apply (proj2 (positive_pos_weight_rejected flat all_valid
                  (Box 16 16 29 30) [] None None image means stds weighted
                  true true [true; true; false; true] eq_refl
                  ltac:(vm_compute; discriminate) eq_refl)).
  - reflexivity.
  - reflexivity.
  - intros i Hi. change truth with [Box 16 16 29 30] in Hsr.
    rewrite Hsr in Hi. apply list_elem_of_singleton in Hi as ->.
    vm_compute. lia.
  - vm_compute. reflexivity.
  - intros gl [=].
Defined.

End more_anchor_examples.

(* ===================================================================== *)
(** * More on the block dataset *)
(* ===================================================================== *)

(** ** The images [__init__] keeps *)

Section init_props.
Import custom_block.
Context {env : Env}.
Implicit Types (self args : CustomBlockDataset) (info : img_info)
  (infos : list img_info) (valid_inds : list nat) (min_size : Z).

(** The loop of [_filter_imgs] collects, in increasing order, exactly the
    indices of the images that are large enough. *)
Lemma filter_loop_spec min_size infos :
  let valid_inds :=
    foldl (fun valid_inds '(i, img_info) =>
             if (min_size <=? Z.min (width img_info) (height img_info))%Z
             then valid_inds ++ [i] else valid_inds)
          [] (imap pair infos) in
  (∀ i, i ∈ valid_inds ↔
        ∃ info, infos !! i = Some info ∧
                (min_size ≤ width info)%Z ∧ (min_size ≤ height info)%Z) ∧
  (∀ k1 k2 i1 i2, k1 < k2 → valid_inds !! k1 = Some i1 →
                  valid_inds !! k2 = Some i2 → i1 < i2).
Proof.
  induction infos as [|x infos IH] using rev_ind; cbv zeta.
  - cbn. split; [|intros k1 k2 i1 i2 _ [=]].
    intros i. split; [intros H; apply elem_of_nil in H as []|].
    intros (info & [=] & _).
  - rewrite imap_app, foldl_app. cbn [imap foldl].
    cbv zeta in IH. destruct IH as [IHin IHord].
    set (v := foldl _ [] (imap pair infos)) in *.
    rewrite Nat.add_0_r.
    assert (Hlt : ∀ i, i ∈ v → i < length infos).
    { intros i Hi. apply IHin in Hi as (info & Hi & _).
      eapply lookup_lt_Some, Hi. }
    destruct (Z.leb_spec min_size (Z.min (width x) (height x))) as [Hc|Hc].
    + split.
      * intros i. rewrite elem_of_app, list_elem_of_singleton, IHin. split.
        -- intros [(info & Hi & Hs) | ->].
           ++ exists info. split; [|exact Hs].
              apply lookup_app_l_Some, Hi.
           ++ exists x. split; [|lia].
              rewrite lookup_app_r, Nat.sub_diag by lia. reflexivity.
        -- intros (info & Hi & Hs).
           apply lookup_app_Some in Hi as [Hi | [Hge Hi]]; [eauto|].
           right. destruct (i - length infos) as [|d] eqn:Hd; [lia|].
           discriminate.
      * intros k1 k2 i1 i2 Hk H1 H2.
        apply lookup_app_Some in H2 as [H2 | [Hge H2]].
        -- apply lookup_app_Some in H1 as [H1 | [Hge1 _]].
           ++ eapply IHord; eassumption.
           ++ apply lookup_lt_Some in H2. lia.
        -- destruct (k2 - length v) as [|d] eqn:Hd; [|discriminate].
           injection H2 as <-.
           apply lookup_app_Some in H1 as [H1 | [Hge1 _]]; [|lia].
           apply Hlt. eapply list_elem_of_lookup_2, H1.
    + split; [|exact IHord].
      intros i. rewrite IHin. split.
      * intros (info & Hi & Hs). exists info. split; [|exact Hs].
        apply lookup_app_l_Some, Hi.
      * intros (info & Hi & Hs).
        apply lookup_app_Some in Hi as [Hi | [Hge Hi]]; [eauto|].
        destruct (i - length infos) as [|d]; [|discriminate].
        injection Hi as <-. lia.
Qed.

Lemma for_each_getitem_Ok {A : Type} (l : list A) (inds : list nat) :
  (∀ i, i ∈ inds → i < length l) →
  ∃ r, for_each (getitem l) inds = Ok r.
Proof.
  induction inds as [|i inds IH]; intros H; [eexists; reflexivity|].
  destruct (lookup_lt_is_Some_2 l i) as [x Hx]; [apply H; left|].
  destruct IH as [r Hr]; [intros j Hj; apply H; right; exact Hj|].
  exists (x :: r). cbn [for_each].
  rewrite (getitem_Ok _ _ _ Hx), Hr. reflexivity.
Qed.





(** What a call of [__init__] for training that returns has done. *)
Lemma init_train_inv args img_scale multiscale_mode self :
  test_mode args = false →
  __init__ args img_scale multiscale_mode = Ok self →
  for_each (getitem (img_infos args)) (_filter_imgs args 32)
    = Ok (img_infos self) ∧
  match proposals args with
  | Some all =>
      ∃ ps, for_each (getitem all) (_filter_imgs args 32) = Ok ps ∧
            proposals self = Some ps
  | None => proposals self = None
  end ∧
  group_loop (img_infos self) (replicate (length (img_infos self)) 0) 0
    (length (img_infos self)) = Ok (flag self) ∧
  test_mode self = false.
Proof.
  intros Hmode. unfold __init__. rewrite Hmode. cbn [negb]. intros H.
  apply bind_Ok_inv in H as ([infos props] & Hfilter & H).
  apply bind_Ok_inv in H as ([] & _ & H).
  apply bind_Ok_inv in H as ([] & _ & H).
  unfold _set_group_flag in H. cbn [img_infos] in H.
  apply bind_Ok_inv in H as (flag' & Hflag & [= <-]).
  cbn [with_flag img_infos proposals flag test_mode].
  apply bind_Ok_inv in Hfilter as (infos' & Hinfos & Hfilter).
  apply bind_Ok_inv in Hfilter as (props' & Hprops & [= <- <-]).
  split; [exact Hinfos|]. split; [|split; [exact Hflag|reflexivity]].
  destruct (proposals args) as [all|].
  - apply fmap_Ok_inv in Hprops as (ps & Hps & ->). eauto.
  - injection Hprops as <-. reflexivity.
Qed.

(** X9.  Training drops the images with a side below 32 pixels and keeps
    everything else aligned: the images [__init__] stores are those of
    the annotation file with both sides of at least 32, in their order,
    and when proposals were loaded, entry [k] of the stored proposals is
    the entry loaded for the image stored at [k]. *)
Theorem init_keeps_large_images args img_scale multiscale_mode self :
  test_mode args = false →
  __init__ args img_scale multiscale_mode = Ok self →
  let valid_inds := _filter_imgs args 32 in
  length (img_infos self) = length valid_inds ∧
  (∀ i, i ∈ valid_inds ↔
        ∃ info, img_infos args !! i = Some info ∧
                (32 ≤ width info)%Z ∧ (32 ≤ height info)%Z) ∧
  (∀ k1 k2 i1 i2, k1 < k2 → valid_inds !! k1 = Some i1 →
                  valid_inds !! k2 = Some i2 → i1 < i2) ∧
  (∀ k i, valid_inds !! k = Some i →
     img_infos self !! k = img_infos args !! i ∧
     match proposals args with
     | Some all => ∃ ps, proposals self = Some ps ∧ ps !! k = all !! i
     | None => proposals self = None
     end) ∧
  (∀ k info, img_infos self !! k = Some info →
     (32 ≤ width info)%Z ∧ (32 ≤ height info)%Z).
Proof.
  intros Hmode H. cbv zeta.
  destruct (init_train_inv _ _ _ _ Hmode H) as (Hinfos & Hprops & _ & _).
  destruct (filter_loop_spec 32 (img_infos args)) as [Hin Hord].
  fold (_filter_imgs args 32) in Hin, Hord.
  destruct (for_each_lookup _ _ _ Hinfos) as [Hlen Hlk].
  split; [exact Hlen|]. split; [exact Hin|]. split; [exact Hord|].
  assert (Hsame : ∀ k i, _filter_imgs args 32 !! k = Some i →
                         img_infos self !! k = img_infos args !! i).
  { intros k i Hk. destruct (Hlk _ _ Hk) as (info & Hget & ->).
    apply getitem_Ok_inv in Hget. symmetry. exact Hget. }
  split.
  - intros k i Hk. split; [apply Hsame, Hk|].
    destruct (proposals args) as [all|]; [|exact Hprops].
    destruct Hprops as (ps & Hps & ->). exists ps. split; [reflexivity|].
    destruct (for_each_lookup _ _ _ Hps) as [_ Hlkp].
    destruct (Hlkp _ _ Hk) as (p & Hget & ->).
    apply getitem_Ok_inv in Hget. symmetry. exact Hget.
  - intros k info Hk.
    destruct (lookup_lt_is_Some_2 (_filter_imgs args 32) k) as [i Hi].
    { rewrite <- Hlen. eapply lookup_lt_Some, Hk. }
    rewrite (Hsame _ _ Hi) in Hk.
    assert (Hmem : i ∈ _filter_imgs args 32)
      by (eapply list_elem_of_lookup_2, Hi).
    apply Hin in Hmem as (info' & Hi' & Hs). congruence.
Qed.


End init_props.

(** ** The retry of [__getitem__] *)

Section retry_props.
Import custom_block.
Context {env : Env}.
Implicit Types (self : CustomBlockDataset) (idx : nat) (rng : Rng).

(** X11.  [_rand_another] stays in the group.  With [np.random.choice]
    returning an element of the pool it is given, the index drawn for a
    valid [idx] is a valid index whose group flag is that of [idx]; an
    [idx] without a flag raises [IndexError] before anything is drawn. *)
Theorem rand_another_same_group self idx rng :
  (∀ pool r, pool ≠ [] → (np_random_choice pool r).1 ∈ pool) →
  (idx < length (flag self) →
   ∃ idx' rng',
     _rand_another self idx rng = (Ok idx', rng') ∧
     idx' < length (flag self) ∧
     flag self !! idx' = flag self !! idx) ∧
  (length (flag self) ≤ idx →
   _rand_another self idx rng = (Raise IndexError, rng)).
Proof.
  intros Hchoice. unfold _rand_another, getitem. split.
  - intros Hidx.
    destruct (lookup_lt_is_Some_2 (flag self) idx Hidx) as [g Hg].
    rewrite Hg.
    set (pool := filter (fun i => flag self !! i = Some g)
                        (seq 0 (length (flag self)))).
    assert (Hin : idx ∈ pool).
    { apply list_elem_of_filter. split; [exact Hg|].
      apply elem_of_seq. lia. }
    assert (Hne : pool ≠ []).
    { intros Hnil. rewrite Hnil in Hin. apply elem_of_nil in Hin as []. }
    specialize (Hchoice pool rng Hne).
    destruct (np_random_choice pool rng) as [i rng']. cbn [fst] in Hchoice.
    exists i, rng'. split; [reflexivity|].
    apply list_elem_of_filter in Hchoice as [Hi Hseq].
    apply elem_of_seq in Hseq. split; [lia|congruence].
  - intros Hidx. rewrite lookup_ge_None_2 by exact Hidx. reflexivity.
Qed.

Lemma rand_another_Ok_inv self idx rng idx' rng' :
  (∀ pool r, pool ≠ [] → (np_random_choice pool r).1 ∈ pool) →
  _rand_another self idx rng = (Ok idx', rng') →
  flag self !! idx' = flag self !! idx.
Proof.
  intros Hchoice H.
  destruct (Nat.lt_ge_cases idx (length (flag self))) as [Hlt|Hge].
  - unfold _rand_another, getitem in H.
    destruct (lookup_lt_is_Some_2 (flag self) idx Hlt) as [g Hg].
    rewrite Hg in H.
    set (pool := filter (fun i => flag self !! i = Some g)
                        (seq 0 (length (flag self)))) in *.
    assert (Hin : idx ∈ pool).
    { apply list_elem_of_filter. split; [exact Hg|].
      apply elem_of_seq. lia. }
    assert (Hne : pool ≠ []).
    { intros Hnil. rewrite Hnil in Hin. apply elem_of_nil in Hin as []. }
    specialize (Hchoice pool rng Hne).
    destruct (np_random_choice pool rng) as [i rng1]. cbn [fst] in Hchoice.
    injection H as <- <-.
    apply list_elem_of_filter in Hchoice as [Hi _]. congruence.
  - unfold _rand_another, getitem in H.
    rewrite lookup_ge_None_2 in H by exact Hge. discriminate.
Qed.

(** X12.  The sample [__getitem__] returns in training comes from an
    image of the group of the index asked for: however often it retried,
    the sample is what [prepare_train_img] made of an index with the
    group flag of [idx]. *)
Theorem getitem_same_group fuel self idx rng data rng' :
  (∀ pool r, pool ≠ [] → (np_random_choice pool r).1 ∈ pool) →
  test_mode self = false →
  __getitem__ fuel self idx rng = Some (Ok (Train data), rng') →
  ∃ idx' rng0,
    flag self !! idx' = flag self !! idx ∧
    prepare_train_img self idx' rng0 = (Ok (Some data), rng').
Proof.
  intros Hchoice Hmode. unfold __getitem__. rewrite Hmode.
  revert idx rng. induction fuel as [|fuel IH]; intros idx rng H;
    [discriminate|].
  cbn [train_loop] in H.
  destruct (prepare_train_img self idx rng) as [[[d|]|e] rng1] eqn:Hprep.
  - injection H as <- <-. exists idx, rng. split; [reflexivity|exact Hprep].
  - destruct (_rand_another self idx rng1) as [[idx1|e] rng2] eqn:Hrand;
      [|discriminate].
    apply IH in H as (idx' & rng0 & Hflag & Hdata).
    exists idx', rng0. split; [|exact Hdata].
    rewrite Hflag. eapply rand_another_Ok_inv; eassumption.
  - discriminate.
Qed.

Lemma prepare_train_img_extra_aug self idx rng aug :
  extra_aug self = Some aug →
  (prepare_train_img self idx rng).2 = rng ∧
  ∀ data, (prepare_train_img self idx rng).1 ≠ Ok (Some data).
Proof.
  intros Haug. unfold prepare_train_img. rewrite Haug.
  match goal with
  | |- context [match ?m with Ok _ => _ | Raise _ => _ end] =>
      destruct m as [[[[info img_list] props]|]|e] eqn:Hpre
  end; cbn [fst snd]; try (split; [reflexivity|discriminate]).
  exfalso.
  apply bind_Ok_inv in Hpre as (info' & _ & Hpre).
  apply bind_Ok_inv in Hpre as (names & _ & Hpre).
  apply bind_Ok_inv in Hpre as (img_list' & _ & Hpre).
  apply bind_Ok_inv in Hpre as (props' & _ & Hpre).
  destruct props' as [props'|]; [|discriminate].
  apply bind_Ok_inv in Hpre as ([] & _ & Hpre).
  destruct (_ && _); [discriminate|].
  apply bind_Ok_inv in Hpre as ([] & Hfalse & _). discriminate.
Qed.

(** X13.  With [extra_aug] configured the training loader yields no
    sample.  [prepare_train_img] returns [None] or raises, before any
    random number is drawn; so [__getitem__] in training ends in an
    exception or keeps drawing other indices. *)
Theorem extra_aug_yields_no_sample fuel self idx rng aug :
  extra_aug self = Some aug →
  test_mode self = false →
  (prepare_train_img self idx rng).2 = rng ∧
  (∀ data, (prepare_train_img self idx rng).1 ≠ Ok (Some data)) ∧
  (__getitem__ fuel self idx rng = None ∨
   ∃ e rng', __getitem__ fuel self idx rng = Some (Raise e, rng')).
Proof.
  intros Haug Hmode.
  destruct (prepare_train_img_extra_aug self idx rng aug Haug) as [Hr Hn].
  split; [exact Hr|]. split; [exact Hn|].
  unfold __getitem__. rewrite Hmode. clear Hr Hn.
  revert idx rng. induction fuel as [|fuel IH]; intros idx rng;
    [left; reflexivity|].
  cbn [train_loop].
  destruct (prepare_train_img_extra_aug self idx rng aug Haug) as [_ Hn].
  destruct (prepare_train_img self idx rng) as [[[d|]|e] rng1].
  - exfalso. eapply Hn. reflexivity.
  - destruct (_rand_another self idx rng1) as [[idx1|e] rng2]; [apply IH|].
    right. eauto.
  - right. eauto.
Qed.

End retry_props.

(** ** [prepare_test_img] *)

Section test_props.
Import custom_block.
Context {env : Env}.
Implicit Types (self : CustomBlockDataset) (info : img_info)
  (names : list (option string)) (i j : Z).

(** The block of names both loaders build, for any naming [f] of the
    offsets: every slot holds the name at the nearest offset, between the
    centre and its own, that [f] names; the offsets passed over have
    none. *)
Lemma block_names_spec (f : Z → option string) (hfz : Z) names :
  (let l := f <$> range (- hfz) (hfz + 1) in
   let hf := Z.to_nat hfz in
   if has_none l then
     center ← getitem l hf;
     _ ← assert (if center is Some _ then true else false);
     Ok (fill_right hf (fill_left hf l))
   else Ok l) = Ok names →
  length names = Z.to_nat (2 * hfz + 1) ∧
  ∀ i, (- hfz ≤ i ≤ hfz)%Z →
    ∃ j name,
      (0 ≤ j ≤ i ∨ i ≤ j ≤ 0)%Z ∧
      f j = Some name ∧
      names !! Z.to_nat (hfz + i) = Some (Some name) ∧
      ∀ j', (j < j' ≤ i ∨ i ≤ j' < j)%Z → f j' = None.
Proof.
  cbv zeta.
  assert (Hlen : length (f <$> range (- hfz) (hfz + 1))
                 = Z.to_nat (2 * hfz + 1)).
  { rewrite length_fmap, length_range. f_equal. lia. }
  assert (Hlk : ∀ i, (- hfz ≤ i ≤ hfz)%Z →
            (f <$> range (- hfz) (hfz + 1)) !! Z.to_nat (hfz + i)
              = Some (f i)).
  { intros i Hi. rewrite list_lookup_fmap, lookup_range by lia.
    cbn. do 2 f_equal. lia. }
  destruct (has_none (f <$> range (- hfz) (hfz + 1))) eqn:Hnone.
  2:{ intros [= <-]. split; [exact Hlen|]. intros i Hi.
      destruct (has_none_false _ (Z.to_nat (hfz + i)) Hnone)
        as [name Hname]; [lia|].
      exists i, name. split; [lia|].
      rewrite Hlk in Hname by exact Hi. injection Hname as Hname.
      split; [exact Hname|]. split; [|intros j' Hj'; lia].
      rewrite Hlk by exact Hi. rewrite Hname. reflexivity. }
  intros H. apply bind_Ok_inv in H as (center & Hc & H).
  apply bind_Ok_inv in H as ([] & Hsome & [= <-]).
  apply getitem_Ok_inv in Hc. apply assert_Ok_inv in Hsome.
  destruct center as [c|]; [clear Hsome|discriminate].
  set (l := f <$> range (- hfz) (hfz + 1)) in *.
  set (hf := Z.to_nat hfz) in *.
  assert (Hhf : (0 ≤ hfz)%Z).
  { apply lookup_lt_Some in Hc. lia. }
  assert (Hl : length l = 2 * hf + 1) by lia.
  rewrite fill_left_walk, fill_right_walk.
  assert (HL := walk_spec (fun d => hf - d) hf l).
  cbv zeta beta in HL.
  destruct HL as (HlenL & HoffL & HonL);
    [intros; lia|intros; lia|rewrite Nat.sub_0_r; eauto|].
  set (L := foldl (walk (fun d => hf - d)) l (seq 0 hf)) in *.
  assert (HcL : L !! hf = Some (Some c)).
  { rewrite HoffL; [exact Hc|]. intros k Hk. lia. }
  assert (HR := walk_spec (fun d => hf + d) hf L).
  cbv zeta beta in HR.
  destruct HR as (HlenR & HoffR & HonR);
    [intros; lia|intros; lia|rewrite Nat.add_0_r; eauto|].
  set (R := foldl (walk (fun d => hf + d)) L (seq 0 hf)) in *.
  split; [lia|]. intros i Hi.
  assert (Hraw : ∀ k, k ≤ 2 * hf →
            l !! k = Some (f (Z.of_nat k - hfz)%Z)).
  { intros k Hk. unfold l.
    replace k with (Z.to_nat (hfz + (Z.of_nat k - hfz))) at 1 by lia.
    apply Hlk. lia. }
  destruct (Z_le_gt_dec i 0) as [Hneg|Hpos].
  - destruct (HonL (Z.to_nat (- i)) ltac:(lia))
      as (e & x & He & Hex & HLx & Hgap).
    exists (- Z.of_nat e)%Z, x. split; [lia|].
    rewrite Hraw in Hex by lia. injection Hex as Hex.
    replace (Z.of_nat (hf - e) - hfz)%Z with (- Z.of_nat e)%Z in Hex by lia.
    split; [exact Hex|]. split.
    + replace (Z.to_nat (hfz + i)) with (hf - Z.to_nat (- i)) by lia.
      rewrite HoffR; [exact HLx|]. intros k Hk. lia.
    + intros j' Hj'.
      specialize (Hgap (Z.to_nat (- j')) ltac:(lia)).
      rewrite Hraw in Hgap by lia. injection Hgap as Hgap.
      replace (Z.of_nat (hf - Z.to_nat (- j')) - hfz)%Z with j' in Hgap
        by lia.
      exact Hgap.
  - destruct (HonR (Z.to_nat i) ltac:(lia)) as (e & x & He & Hex & HRx & Hgap).
    assert (HLl : ∀ k, L !! (hf + k) = l !! (hf + k)).
    { intros k. apply HoffL. intros m Hm. lia. }
    exists (Z.of_nat e), x. split; [lia|].
    rewrite HLl, Hraw in Hex by lia. injection Hex as Hex.
    replace (Z.of_nat (hf + e) - hfz)%Z with (Z.of_nat e) in Hex by lia.
    split; [exact Hex|]. split.
    + replace (Z.to_nat (hfz + i)) with (hf + Z.to_nat i) by lia.
      exact HRx.
    + intros j' Hj'.
      specialize (Hgap (Z.to_nat j') ltac:(lia)).
      rewrite HLl, Hraw in Hgap by lia. injection Hgap as Hgap.
      replace (Z.of_nat (hf + Z.to_nat j') - hfz)%Z with j' in Hgap by lia.
      exact Hgap.
Qed.

Lemma test_entry_spec block_gap (dname ext : string) (fidx j : Z) name :
  test_entry block_gap dname ext fidx j = Some name ↔
  name = join dname (fmt_06d (fidx + j * block_gap) +:+ ext) ∧
  exists_ name = true.
Proof.
  unfold test_entry. cbv zeta.
  destruct (exists_ (join dname (fmt_06d (fidx + j * block_gap) +:+ ext)))
    eqn:He; cbn [negb]; split.
  - intros [= <-]. done.
  - intros [-> _]. reflexivity.
  - discriminate.
  - intros [-> Hex]. congruence.
Qed.

Lemma test_entry_None block_gap (dname ext : string) (fidx j : Z) :
  test_entry block_gap dname ext fidx j = None ↔
  exists_ (join dname (fmt_06d (fidx + j * block_gap) +:+ ext)) = false.
Proof.
  unfold test_entry. cbv zeta.
  destruct (exists_ _); cbn [negb]; split; congruence.
Qed.

(** X14.  The block [prepare_test_img] loads.  When it returns, the stem
    of the annotated file gave a frame index [fidx], exactly one test
    scale is configured, and it has read [2 * int((block_size - 1) / 2) + 1]
    images, one per offset: the file named by the zero-padded index
    [fidx + j * block_gap] for the nearest offset [j], between the centre
    and its own, for which that file exists.  The centre, too, is read
    under its zero-padded name.  Every frame goes through [img_transform]
    at that scale without a flip, and the results are stacked into the
    single entry of [img]. *)
Theorem prepare_test_img_block self idx data :
  prepare_test_img self idx = Ok data →
  ∃ info fidx img_list scale stacked m,
    img_infos self !! idx = Some info ∧
    let img_name := join (img_prefix self) (filename info) in
    let dname := dirname img_name in
    let fname := (splitext (basename img_name)).1 in
    let ext := (splitext (basename img_name)).2 in
    let file j := join dname (fmt_06d (fidx + j * block_gap self) +:+ ext) in
    (if isdigit fname then fidx = int fname else int_other fname = Ok fidx) ∧
    img_scales self = [scale] ∧
    length img_list = Z.to_nat (2 * hf_size self + 1) ∧
    (∀ i, (- hf_size self ≤ i ≤ hf_size self)%Z →
       ∃ j im,
         (0 ≤ j ≤ i ∨ i ≤ j ≤ 0)%Z ∧
         exists_ (file j) = true ∧
         (∀ j', (j < j' ≤ i ∨ i ≤ j' < j)%Z → exists_ (file j') = false) ∧
         imread (file j) = Ok im ∧
         img_list !! Z.to_nat (hf_size self + i) = Some im) ∧
    torch_stack
      ((fun im => (img_transform self im scale false
                     (resize_keep_ratio self)).1.1.1) <$> img_list)
      = Ok stacked ∧
    t_img data = [stacked] ∧
    t_img_meta data = [m] ∧
    flip m = false ∧
    ori_shape m = (height info, width info, 3%Z).
Proof.
  unfold prepare_test_img. intros H.
  apply bind_Ok_inv in H as (info & Hinfo & H).
  apply getitem_Ok_inv in Hinfo.
  apply bind_Ok_inv in H as (names & Hnames & H).
  apply bind_Ok_inv in H as (img_list & Himgs & H).
  apply bind_Ok_inv in H as (proposal & _ & H).
  apply bind_Ok_inv in H as ([] & Hone & H).
  apply assert_Ok_inv, Nat.eqb_eq in Hone.
  apply bind_Ok_inv in H as (scale & Hscale & H).
  apply getitem_Ok_inv in Hscale.
  apply bind_Ok_inv in H as ([[im0 m] p] & Hlast & H).
  apply bind_Ok_inv in H as (stacked & Hstack & [= <-]).
  unfold test_name_list in Hnames. cbv zeta in Hnames.
  destruct (splitext (basename (join (img_prefix self) (filename info))))
    as [fname ext] eqn:Hsplit.
  apply bind_Ok_inv in Hnames as (fidx & Hfidx & Hnames).
  apply block_names_spec in Hnames as [Hlen Hslots].
  apply for_each_lookup in Himgs as [Hlen' Hread].
  exists info, fidx, img_list, scale, stacked, m.
  split; [exact Hinfo|]. cbv zeta. rewrite !Hsplit. cbn [fst snd].
  split; [|split; [|split; [|split; [|split; [|split; [|split]]]]]].
  - destruct (isdigit fname); [congruence|exact Hfidx].
  - destruct (img_scales self) as [|s0 [|s1 rest]]; try discriminate.
    cbn in Hscale. congruence.
  - lia.
  - intros i Hi.
    destruct (Hslots i Hi) as (j & name & Hj & Hent & Hslot & Hgap).
    destruct (Hread _ _ Hslot) as (im & Him & Hlk).
    apply test_entry_spec in Hent as [-> Hex].
    exists j, im. split; [exact Hj|]. split; [exact Hex|].
    split; [|split; [exact Him|exact Hlk]].
    intros j' Hj'. apply test_entry_None, Hgap, Hj'.
  - rewrite <- Hstack, <- list_fmap_compose. f_equal.
    apply list_fmap_ext. intros k im _. unfold compose, prepare_single.
    destruct (img_transform self im scale false (resize_keep_ratio self))
      as [[[im' sh] pad] fac]. reflexivity.
  - reflexivity.
  - reflexivity.
  - destruct (last _) as [r|] eqn:Hl; [|discriminate].
    injection Hlast as ->. apply last_Some in Hl as [done' Hl].
    assert (Hin : (im0, m, p) ∈
              (fun img => prepare_single self info img scale false proposal)
                <$> img_list).
    { rewrite Hl. apply elem_of_app. right. left. }
    apply list_elem_of_fmap in Hin as (im & Heq & _).
    unfold prepare_single in Heq.
    destruct (img_transform self im scale false (resize_keep_ratio self))
      as [[[im' sh] pad] fac].
    injection Heq as _ -> _. done.
Qed.

(** X15.  The test loader needs the annotated frame under its
    zero-padded name.  When the stem of the annotated file is a number
    and no file named by the six-digit, zero-padded form of that number
    exists, [prepare_test_img] raises [AssertionError], whether or not
    the annotated file itself is there. *)
Theorem prepare_test_img_needs_padded_name self idx info :
  img_infos self !! idx = Some info →
  let img_name := join (img_prefix self) (filename info) in
  let dname := dirname img_name in
  let fname := (splitext (basename img_name)).1 in
  let ext := (splitext (basename img_name)).2 in
  isdigit fname = true →
  (0 ≤ hf_size self)%Z →
  exists_ (join dname (fmt_06d (int fname) +:+ ext)) = false →
  prepare_test_img self idx = Raise AssertionError.
Proof.
  intros Hinfo. cbv zeta. intros Hdigit Hhf Hex.
  unfold prepare_test_img. rewrite (getitem_Ok _ _ _ Hinfo). py_step.
  unfold test_name_list. cbv zeta.
  destruct (splitext (basename (join (img_prefix self) (filename info))))
    as [fname ext] eqn:Hsplit. cbn [fst snd] in Hdigit, Hex.
  rewrite Hdigit. py_step.
  set (l := test_entry (block_gap self)
              (dirname (join (img_prefix self) (filename info))) ext
              (int fname) <$> range (- hf_size self) (hf_size self + 1)).
  assert (Hc : l !! Z.to_nat (hf_size self) = Some None).
  { unfold l. rewrite list_lookup_fmap, lookup_range by lia. cbn.
    f_equal. apply test_entry_None.
    replace (- hf_size self + Z.of_nat (Z.to_nat (hf_size self)))%Z
      with 0%Z by lia.
    rewrite Z.mul_0_l, Z.add_0_r. exact Hex. }
  assert (Hnone : has_none l = true).
  { apply existsb_exists. exists None. split; [|reflexivity].
    apply list_elem_of_In. eapply list_elem_of_lookup_2, Hc. }
  rewrite Hnone, (getitem_Ok _ _ _ Hc). py_step. reflexivity.
Qed.

End test_props.

(** ** What [prepare_train_img] hands back *)

Section sample_props.
Import custom_block.
Context {env : Env}.
Implicit Types (self : CustomBlockDataset) (idx : nat) (rng : Rng)
  (info : img_info).

Lemma split_proposals_inv self idx r :
  split_proposals self idx = Ok r →
  match r with
  | None =>
      ∃ all p, proposals self = Some all ∧ all !! idx = Some p ∧
               take (num_max_proposals self) p = []
  | Some None => proposals self = None
  | Some (Some _) =>
      ∃ all p row, proposals self = Some all ∧ all !! idx = Some p ∧
                   head (take (num_max_proposals self) p) = Some row ∧
                   (length row = 4 ∨ length row = 5)
  end.
Proof.
  unfold split_proposals. destruct (proposals self) as [all|].
  2:{ intros [= <-]. reflexivity. }
  intros H. apply bind_Ok_inv in H as (p & Hp & H).
  apply getitem_Ok_inv in Hp.
  destruct (take (num_max_proposals self) p) as [|row rest] eqn:Htake.
  - injection H as <-. eauto.
  - destruct (length row =? 4) eqn:H4; cbn [orb negb] in H.
    + apply Nat.eqb_eq in H4.
      assert (H5 : (length row =? 5) = false) by (apply Nat.eqb_neq; lia).
      rewrite H5 in H. injection H as <-.
      exists all, p, row. rewrite Htake. auto.
    + destruct (length row =? 5) eqn:H5; cbn [negb] in H; [|discriminate].
      apply Nat.eqb_eq in H5. injection H as <-.
      exists all, p, row. rewrite Htake. auto.
Qed.

(** X20.  When [prepare_train_img] gives up an image by returning [None]
    it has drawn no random number, and it has already read the frames of
    the block from disk; the reason is one of two: the proposals loaded
    for the image, cut to [num_max_proposals], are empty, or the image has
    no ground-truth box and [skip_img_without_anno] is set. *)
Theorem prepare_train_img_skips self idx rng rng' :
  prepare_train_img self idx rng = (Ok None, rng') →
  rng' = rng ∧
  ∃ info names img_list,
    img_infos self !! idx = Some info ∧
    img_name_list self info = Ok names ∧
    for_each imread_entry names = Ok img_list ∧
    ((∃ all p, proposals self = Some all ∧ all !! idx = Some p ∧
               take (num_max_proposals self) p = []) ∨
     (bboxes (ann info) = [] ∧ skip_img_without_anno self = true)).
Proof.
  unfold prepare_train_img.
  match goal with
  | |- context [match ?m with Ok _ => _ | Raise _ => _ end] =>
      destruct m as [[[[info img_list] props]|]|e] eqn:Hpre
  end.
  - destruct (np_random_rand rng) as [u rng1].
    destruct (random_scale _ _ rng1) as [img_scale rng2].
    intros [= H _]. destruct (build_sample _ _ _ _ _ _); discriminate.
  - intros [= <-]. split; [reflexivity|].
    apply bind_Ok_inv in Hpre as (info & Hinfo & Hpre).
    apply getitem_Ok_inv in Hinfo.
    apply bind_Ok_inv in Hpre as (names & Hnames & Hpre).
    apply bind_Ok_inv in Hpre as (img_list & Himgs & Hpre).
    apply bind_Ok_inv in Hpre as (props & Hprops & Hpre).
    exists info, names, img_list.
    split; [exact Hinfo|]. split; [exact Hnames|]. split; [exact Himgs|].
    apply split_proposals_inv in Hprops.
    destruct props as [props|]; [|left; exact Hprops].
    apply bind_Ok_inv in Hpre as ([] & _ & Hpre).
    destruct (length (bboxes (ann info)) =? 0) eqn:Hlen;
      destruct (skip_img_without_anno self); cbn [andb] in Hpre;
      try (apply bind_Ok_inv in Hpre as ([] & _ & [=])).
    right. apply Nat.eqb_eq, length_zero_iff_nil in Hlen. done.
  - discriminate.
Qed.

(** X21.  The keys of a sample.  A sample [prepare_train_img] returns
    belongs to a dataset without extra augmentation and, when
    [skip_img_without_anno] is set, to an image with a ground-truth box.
    It has proposals exactly when proposals were loaded (then the first
    row has 4 or 5 columns), the labels of the annotation exactly when
    [with_label], ignored boxes exactly when [with_crowd], masks exactly
    when [with_mask] and a segmentation map exactly when [with_seg]; the
    annotation then holds the ignored boxes and the masks.  [ori_shape] is
    height, width and 3 of the annotation, and one number and one scale
    were drawn. *)
Theorem prepare_train_img_sample_keys self idx rng data rng' :
  prepare_train_img self idx rng = (Ok (Some data), rng') →
  ∃ info,
    img_infos self !! idx = Some info ∧
    extra_aug self = None ∧
    (skip_img_without_anno self = true → bboxes (ann info) ≠ []) ∧
    (is_Some (s_proposals data) ↔ is_Some (proposals self)) ∧
    (∀ all, proposals self = Some all →
       ∃ p row, all !! idx = Some p ∧
                head (take (num_max_proposals self) p) = Some row ∧
                (length row = 4 ∨ length row = 5)) ∧
    gt_labels data
      = (if with_label self then Some (ann_labels (ann info)) else None) ∧
    (is_Some (gt_bboxes_ignore data) ↔ with_crowd self = true) ∧
    (is_Some (gt_masks data) ↔ with_mask self = true) ∧
    (is_Some (gt_semantic_seg data) ↔ with_seg self = true) ∧
    (with_crowd self = true → is_Some (bboxes_ignore (ann info))) ∧
    (with_mask self = true → is_Some (masks (ann info))) ∧
    ori_shape (img_meta data) = (height info, width info, 3%Z) ∧
    rng' = (random_scale (img_scales self) (multiscale_range self)
              (np_random_rand rng).2).2.
Proof.
  unfold prepare_train_img.
  match goal with
  | |- context [match ?m with Ok _ => _ | Raise _ => _ end] =>
      destruct m as [[[[info img_list] props]|]|e] eqn:Hpre
  end; try discriminate.
  apply bind_Ok_inv in Hpre as (info' & Hinfo & Hpre).
  apply getitem_Ok_inv in Hinfo.
  apply bind_Ok_inv in Hpre as (names & _ & Hpre).
  apply bind_Ok_inv in Hpre as (img_list' & _ & Hpre).
  apply bind_Ok_inv in Hpre as (props' & Hprops & Hpre).
  apply split_proposals_inv in Hprops.
  destruct props' as [props'|]; [|discriminate].
  apply bind_Ok_inv in Hpre as ([] & _ & Hpre).
  destruct ((length (bboxes (ann info')) =? 0) && skip_img_without_anno self)
    eqn:Hskip; [discriminate|].
  apply bind_Ok_inv in Hpre as ([] & Haug & [= -> -> ->]).
  destruct (np_random_rand rng) as [u rng1]. cbn [fst snd].
  destruct (random_scale _ _ rng1) as [img_scale rng2]. cbn [fst snd].
  intros [= H <-]. apply fmap_Ok_inv in H as (d & Hd & [= <-]).
  exists info. split; [exact Hinfo|].
  split; [destruct (extra_aug self); [discriminate|reflexivity]|].
  split.
  { intros Hs Hnil. rewrite Hs, Hnil in Hskip. discriminate. }
  unfold build_sample in Hd. cbv zeta in Hd.
  apply bind_Ok_inv in Hd as (img & _ & Hd).
  apply bind_Ok_inv in Hd as (gt_seg & Hseg & Hd).
  apply bind_Ok_inv in Hd as ([[[? img_shape] pad] factor] & _ & Hd).
  apply bind_Ok_inv in Hd as (gt_ign & Hign & Hd).
  apply bind_Ok_inv in Hd as (gt_m & Hm & [= <-]).
  cbn [s_proposals gt_labels gt_bboxes_ignore gt_masks gt_semantic_seg
       img_meta ori_shape].
  assert (Hsegs : is_Some gt_seg ↔ with_seg self = true).
  { destruct (with_seg self).
    - apply bind_Ok_inv in Hseg as (? & _ & Hseg).
      apply bind_Ok_inv in Hseg as (? & _ & [= <-]). split; eauto.
    - injection Hseg as <-. split; [intros [? [=]]|discriminate]. }
  assert (Higns : (is_Some gt_ign ↔ with_crowd self = true) ∧
                  (with_crowd self = true → is_Some (bboxes_ignore (ann info)))).
  { destruct (with_crowd self).
    - apply bind_Ok_inv in Hign as (? & Hb & [= <-]).
      destruct (bboxes_ignore (ann info)); [|discriminate].
      split; [split|]; eauto.
    - injection Hign as <-.
      split; [split; [intros [? [=]]|discriminate]|discriminate]. }
  assert (Hms : (is_Some gt_m ↔ with_mask self = true) ∧
                (with_mask self = true → is_Some (masks (ann info)))).
  { destruct (with_mask self).
    - apply bind_Ok_inv in Hm as (? & Hb & [= <-]).
      destruct (masks (ann info)); [|discriminate].
      split; [split|]; eauto.
    - injection Hm as <-.
      split; [split; [intros [? [=]]|discriminate]|discriminate]. }
  destruct Higns as [Hign1 Hign2]. destruct Hms as [Hm1 Hm2].
  split.
  { destruct props as [[p sc]|]; cbn.
    - destruct Hprops as (all & ? & ? & -> & _). split; eauto.
    - rewrite Hprops. split; intros [? [=]]. }
  split.
  { intros all Hall. destruct props as [[p sc]|].
    - destruct Hprops as (all' & p' & row & Hall' & Hp & Hrow & Hcols).
      assert (all' = all) as -> by congruence. eauto.
    - congruence. }
  done.
Qed.

End sample_props.

(** ** Frame numbers and file names *)

Section name_props.
Import custom_block.
Context {env : Env}.








End name_props.

Section more_block_examples.
Import custom_block toy_disk.

Lemma choice_in_pool (pool : list nat) (r : list nat) :
  pool ≠ [] → (np_random_choice pool r).1 ∈ pool.
Proof.
  intros Hne. cbn. apply list_elem_of_In, nth_In, Nat.mod_upper_bound.
  destruct pool; [done|discriminate].
Qed.

Lemma init_keeps_large_images_witness :
  ∃ self,
    __init__ loaded (inl (1333, 800)) "value" = Ok self ∧
    img_infos self = [annotated; portrait] ∧
    proposals self = Some [[[1; 2; 3; 4]%Q]; [[5; 6; 7; 8]%Q]] ∧
    let valid_inds := _filter_imgs loaded 32 in
    length (img_infos self) = length valid_inds ∧
    (∀ i, i ∈ valid_inds ↔
          ∃ info, img_infos loaded !! i = Some info ∧
                  (32 ≤ width info)%Z ∧ (32 ≤ height info)%Z) ∧
    (∀ k1 k2 i1 i2, k1 < k2 → valid_inds !! k1 = Some i1 →
                    valid_inds !! k2 = Some i2 → i1 < i2) ∧
    (∀ k i, valid_inds !! k = Some i →
       img_infos self !! k = img_infos loaded !! i ∧
       match proposals loaded with
       | Some all => ∃ ps, proposals self = Some ps ∧ ps !! k = all !! i
       | None => proposals self = None
       end) ∧
    (∀ k info, img_infos self !! k = Some info →
       (32 ≤ width info)%Z ∧ (32 ≤ height info)%Z).
Proof.
  eexists. split; [vm_compute; reflexivity|]. split; [reflexivity|].
  split; [reflexivity|].
  apply (init_keeps_large_images loaded (inl (1333, 800)) "value");
    [reflexivity|vm_compute; reflexivity].
Defined.


Lemma rand_another_same_group_witness :
  ∃ idx' rng',
    _rand_another (frames 5) 1 [0; 7; 1] = (Ok idx', rng') ∧
    idx' < length (flag (frames 5)) ∧
    flag (frames 5) !! idx' = flag (frames 5) !! 1.
Proof.
  apply (proj1 (rand_another_same_group (frames 5) 1 [0; 7; 1]
                  choice_in_pool)).
  cbn. lia.
Defined.

Lemma getitem_same_group_witness :
  ∃ data,
    __getitem__ 2 (frames 5) 1 [0; 7; 1] = Some (Ok (Train data), []) ∧
    ∃ idx' rng0,
      flag (frames 5) !! idx' = flag (frames 5) !! 1 ∧
      prepare_train_img (frames 5) idx' rng0 = (Ok (Some data), []).
Proof.
  eexists. split; [vm_compute; reflexivity|].
  apply (getitem_same_group 2 (frames 5) 1 [0; 7; 1] _ [] choice_in_pool);
    [reflexivity|vm_compute; reflexivity].
Defined.

Lemma extra_aug_yields_no_sample_witness :
  prepare_train_img augmented 0 [7; 1] = (Raise ValueError, [7; 1]) ∧
  __getitem__ 3 augmented 0 [7; 1] = Some (Raise ValueError, [7; 1]) ∧
  (prepare_train_img augmented 0 [7; 1]).2 = [7; 1] ∧
  (∀ data, (prepare_train_img augmented 0 [7; 1]).1 ≠ Ok (Some data)) ∧
  (__getitem__ 3 augmented 0 [7; 1] = None ∨
   ∃ e rng', __getitem__ 3 augmented 0 [7; 1] = Some (Raise e, rng')).
Proof.
  split; [vm_compute; reflexivity|]. split; [vm_compute; reflexivity|].
  apply (extra_aug_yields_no_sample 3 augmented 0 [7; 1] tt); reflexivity.
Defined.

Lemma prepare_test_img_block_witness :
  ∃ data,
    prepare_test_img testing 0 = Ok data ∧
    t_img data =
      [[Resized (File "data/000010.jpg") (1333, 800) false true;
        Resized (File "data/000015.jpg") (1333, 800) false true;
        Resized (File "data/000020.jpg") (1333, 800) false true;
        Resized (File "data/000020.jpg") (1333, 800) false true;
        Resized (File "data/000030.jpg") (1333, 800) false true]] ∧
    ∃ info fidx img_list scale stacked m,
      img_infos testing !! 0 = Some info ∧
      let img_name := join (img_prefix testing) (filename info) in
      let dname := dirname img_name in
      let fname := (splitext (basename img_name)).1 in
      let ext := (splitext (basename img_name)).2 in
      let file j :=
        join dname (fmt_06d (fidx + j * block_gap testing) +:+ ext) in
      (if isdigit fname then fidx = int fname
       else int_other fname = Ok fidx) ∧
      img_scales testing = [scale] ∧
      length img_list = Z.to_nat (2 * hf_size testing + 1) ∧
      (∀ i, (- hf_size testing ≤ i ≤ hf_size testing)%Z →
         ∃ j im,
           (0 ≤ j ≤ i ∨ i ≤ j ≤ 0)%Z ∧
           exists_ (file j) = true ∧
           (∀ j', (j < j' ≤ i ∨ i ≤ j' < j)%Z → exists_ (file j') = false) ∧
           imread (file j) = Ok im ∧
           img_list !! Z.to_nat (hf_size testing + i) = Some im) ∧
      torch_stack
        ((fun im => (img_transform testing im scale false
                       (resize_keep_ratio testing)).1.1.1) <$> img_list)
        = Ok stacked ∧
      t_img data = [stacked] ∧
      t_img_meta data = [m] ∧
      flip m = false ∧
      ori_shape m = (height info, width info, 3%Z).
Proof.
  eexists. split; [vm_compute; reflexivity|]. split; [reflexivity|].
  apply (prepare_test_img_block testing 0). vm_compute. reflexivity.
Defined.

Lemma prepare_test_img_needs_padded_name_witness :
  prepare_test_img testing 1 = Raise AssertionError.
Proof.
  apply (prepare_test_img_needs_padded_name testing 1 missing);
    [reflexivity|vm_compute; reflexivity|vm_compute; discriminate
    |vm_compute; reflexivity].
Defined.


Lemma prepare_train_img_skips_witness :
  [0; 7; 1] = [0; 7; 1] ∧
  ∃ info names img_list,
    img_infos (frames 5) !! 1 = Some info ∧
    img_name_list (frames 5) info = Ok names ∧
    for_each imread_entry names = Ok img_list ∧
    ((∃ all p, proposals (frames 5) = Some all ∧ all !! 1 = Some p ∧
               take (num_max_proposals (frames 5)) p = []) ∨
     (bboxes (ann info) = [] ∧ skip_img_without_anno (frames 5) = true)).
Proof.
  apply (prepare_train_img_skips (frames 5) 1 [0; 7; 1] [0; 7; 1]).
  vm_compute. reflexivity.
Defined.

Lemma prepare_train_img_sample_keys_witness :
  ∃ data info,
    prepare_train_img (frames 5) 0 [7; 1] = (Ok (Some data), []) ∧
    img_infos (frames 5) !! 0 = Some info ∧
    extra_aug (frames 5) = None ∧
    gt_labels data = Some (ann_labels (ann info)) ∧
    (is_Some (s_proposals data) ↔ is_Some (proposals (frames 5))) ∧
    (is_Some (gt_masks data) ↔ with_mask (frames 5) = true) ∧
    ori_shape (img_meta data) = (height info, width info, 3%Z).
Proof.
  destruct (prepare_train_img (frames 5) 0 [7; 1]) as [[[data|]|] rng']
    eqn:Hcall; try (vm_compute in Hcall; discriminate).
  assert (rng' = []) as -> by (vm_compute in Hcall; congruence).
  destruct (prepare_train_img_sample_keys _ _ _ _ _ Hcall)
    as (info & Hinfo & Haug & _ & Hprops & _ & Hlabels & _ & Hmasks & _ & _
        & _ & Hshape & _).
  exists data, info. split; [reflexivity|]. split; [exact Hinfo|].
  split; [exact Haug|]. split; [exact Hlabels|]. split; [exact Hprops|].
  split; [exact Hmasks|exact Hshape].
Defined.

End more_block_examples.

(* ===================================================================== *)
(** * More on the necks *)
(* ===================================================================== *)

Section single_map_props.
Import bfp.
Context {Tensor : Type} `{!Framework Tensor}.
#[local] Abbreviation BFP := (BFP Tensor).
#[local] Abbreviation FRCNBFP := (FRCNBFP Tensor).
Implicit Types (x : Tensor) (inputs feats : list Tensor)
  (mods : list (Tensor → Tensor)).

(** The gathered features of a pyramid with one map per level. *)
Lemma gather_loop_lookup rl gs inputs :
  ∃ feats,
    gather_loop rl gs inputs 0 (length inputs) [] = Ok feats ∧
    length feats = length inputs ∧
    ∀ i x, inputs !! i = Some x → feats !! i = Some (gather rl gs i x).
Proof.
  eexists. split; [apply gather_loop_spec; reflexivity|].
  rewrite drop_0. cbn [app]. split; [apply length_imap|].
  intros i x Hi. rewrite list_lookup_imap, Hi. reflexivity.
Qed.

(** The loop over the context modules, when there is one per feature. *)
Lemma context_loop_Ok mods : ∀ n i feats,
  i + n = length feats → length feats ≤ length mods →
  ∃ out,
    context_loop mods i n feats = Ok out ∧
    length out = length feats ∧
    (∀ j, j < i → out !! j = feats !! j) ∧
    (∀ j m f, i ≤ j → mods !! j = Some m → feats !! j = Some f →
       out !! j = Some (m f)).
Proof.
  induction n as [|n IH]; intros i feats Hn Hle.
  - exists feats. split; [reflexivity|]. split; [reflexivity|].
    split; [reflexivity|]. intros j m f Hj _ Hf.
    apply lookup_lt_Some in Hf. lia.
  - destruct (lookup_lt_is_Some_2 mods i) as [m Hm]; [lia|].
    destruct (lookup_lt_is_Some_2 feats i) as [f Hf]; [lia|].
    cbn [context_loop].
    rewrite (getitem_Ok _ _ _ Hm). py_step.
    rewrite (getitem_Ok _ _ _ Hf). py_step.
    destruct (IH (S i) (<[i := m f]> feats))
      as (out & Hrun & Hlen & Hlow & Hhigh);
      [rewrite length_insert; lia|rewrite length_insert; lia|].
    rewrite length_insert in Hlen.
    exists out. split; [exact Hrun|]. split; [exact Hlen|]. split.
    + intros j Hj. rewrite Hlow by lia. apply list_lookup_insert_ne. lia.
    + intros j m' f' Hj Hm' Hf'. destruct (decide (j = i)) as [->|Hne].
      * rewrite Hlow by lia.
        assert (m' = m) as -> by congruence.
        assert (f' = f) as -> by congruence.
        apply list_lookup_insert_eq. eapply lookup_lt_Some, Hf.
      * apply Hhigh; [lia|exact Hm'|].
        rewrite list_lookup_insert_ne by lia. exact Hf'.
Qed.

(** With fewer modules than features the loop runs out of modules. *)
Lemma context_loop_short mods : ∀ n i feats,
  i + n = length feats → i ≤ length mods → length mods < length feats →
  context_loop mods i n feats = Raise IndexError.
Proof.
  induction n as [|n IH]; intros i feats Hn Hi Hlt; [lia|].
  cbn [context_loop].
  destruct (decide (i = length mods)) as [->|Hne].
  - assert (Hout : getitem mods (length mods) = Raise IndexError).
    { unfold getitem. rewrite lookup_ge_None_2 by lia. reflexivity. }
    rewrite Hout. reflexivity.
  - destruct (lookup_lt_is_Some_2 mods i) as [m Hm]; [lia|].
    destruct (lookup_lt_is_Some_2 feats i) as [f Hf]; [lia|].
    rewrite (getitem_Ok _ _ _ Hm). py_step.
    rewrite (getitem_Ok _ _ _ Hf). py_step.
    apply IH; rewrite ?length_insert; lia.
Qed.

(** X16.  [BFP] with [output_single_lvl].  [__init__] accepts it only with
    a list of channel numbers and an [out_channels], and always builds a
    convolution from their sum to [out_channels].  [forward] rejects a
    pyramid of another size than [num_levels] with [AssertionError];
    otherwise it gathers the levels at the size of the refine level and
    concatenates them along the channels.  Without [refine_type] it
    returns the list of that one map, and the convolution stays unused;
    with a [refine_type] it returns a list holding the list of the
    convolved map. *)
Theorem BFP_forward_single_level ch nl rl rt oc (self : BFP) inputs :
  BFP_init ch nl rl rt true oc = Ok self →
  ∃ cs cout,
    ch = Chans cs ∧ oc = Some cout ∧
    refine self = Some (ConvModule (foldl Nat.add 0 cs) cout 3 1) ∧
    (length inputs ≠ nl → BFP_forward self inputs = Raise AssertionError) ∧
    (length inputs = nl →
     ∃ x_ref feats,
       inputs !! rl = Some x_ref ∧
       length feats = nl ∧
       (∀ i x, inputs !! i = Some x →
          feats !! i =
            Some (if i <? rl then adaptive_max_pool2d x (spatial x_ref)
                  else interpolate x (spatial x_ref))) ∧
       BFP_forward self inputs =
         Ok (match rt with
             | None => OList [cat feats 1]
             | Some _ =>
                 ONested [[ConvModule (foldl Nat.add 0 cs) cout 3 1
                             (cat feats 1)]]
             end)).
Proof.
  unfold BFP_init. intros H.
  apply bind_Ok_inv in H as ([] & Hlt & H).
  apply assert_Ok_inv, Nat.ltb_lt in Hlt.
  apply bind_Ok_inv in H as (layer & Hl & [= <-]).
  apply bind_Ok_inv in Hl as (cin & Hcin & Hl).
  destruct ch as [c|cs]; [discriminate|]. injection Hcin as <-.
  destruct oc as [cout|]; [|discriminate]. injection Hl as <-.
  exists cs, cout. split; [reflexivity|]. split; [reflexivity|].
  split; [reflexivity|]. unfold BFP_forward.
  cbn [num_levels refine_level output_single_lvl refine_type negb].
  split.
  - intros Hne. apply Nat.eqb_neq in Hne. rewrite Hne. reflexivity.
  - intros <-. rewrite Nat.eqb_refl. py_step.
    destruct (lookup_lt_is_Some_2 inputs rl Hlt) as [x_ref Hx].
    rewrite (getitem_Ok _ _ _ Hx). py_step.
    destruct (gather_loop_lookup rl (spatial x_ref) inputs)
      as (feats & -> & Hlen & Hfeats).
    py_step. exists x_ref, feats. split; [exact Hx|]. split; [exact Hlen|].
    split; [intros i x Hi; apply Hfeats, Hi|].
    destruct rt; reflexivity.
Qed.

(** X17.  [FRCNBFP.forward], for a module [__init__] built from the list
    [cs] of channel numbers.  A pyramid of another size than [num_levels]
    is rejected with [AssertionError]; with fewer channel numbers than
    levels there is no context module for the last levels and the call
    raises [IndexError]; otherwise it returns a list of one map, the
    concatenation along the channels of the gathered levels, level [i]
    passed through its own context module (two convolutions, of kernels
    [k x 1] and [1 x k], to [(i + 1) * 49 * channel_expansion]
    channels). *)
Theorem FRCNBFP_forward_outcome cs nl rl c_mid k ce (self : FRCNBFP) inputs :
  FRCNBFP_init (Chans cs) nl rl c_mid k ce = Ok self →
  (length inputs ≠ nl →
   FRCNBFP_forward self inputs = Raise AssertionError) ∧
  (length inputs = nl → length cs < nl →
   FRCNBFP_forward self inputs = Raise IndexError) ∧
  (length inputs = nl → nl ≤ length cs →
   ∃ x_ref feats,
     inputs !! rl = Some x_ref ∧
     length feats = nl ∧
     (∀ i x cin, inputs !! i = Some x → cs !! i = Some cin →
        feats !! i =
          Some (context_module c_mid k ce i cin
                  (if i <? rl then adaptive_max_pool2d x (spatial x_ref)
                   else interpolate x (spatial x_ref)))) ∧
     FRCNBFP_forward self inputs = Ok (OList [cat feats 1])).
Proof.
  unfold FRCNBFP_init. intros H.
  apply bind_Ok_inv in H as ([] & Hlt & [= <-]).
  apply assert_Ok_inv, Nat.ltb_lt in Hlt.
  unfold FRCNBFP_forward.
  cbn [f_num_levels f_refine_level ContextModuleList].
  split; [|split].
  - intros Hne. apply Nat.eqb_neq in Hne. rewrite Hne. reflexivity.
  - intros <- Hshort. rewrite Nat.eqb_refl. py_step.
    destruct (lookup_lt_is_Some_2 inputs rl Hlt) as [x_ref Hx].
    rewrite (getitem_Ok _ _ _ Hx). py_step.
    destruct (gather_loop_lookup rl (spatial x_ref) inputs)
      as (feats & -> & Hlen & _).
    py_step. rewrite context_loop_short; [reflexivity|lia|lia|].
    rewrite length_imap. lia.
  - intros <- Hle. rewrite Nat.eqb_refl. py_step.
    destruct (lookup_lt_is_Some_2 inputs rl Hlt) as [x_ref Hx].
    rewrite (getitem_Ok _ _ _ Hx). py_step.
    destruct (gather_loop_lookup rl (spatial x_ref) inputs)
      as (feats & -> & Hlen & Hfeats).
    py_step.
    destruct (context_loop_Ok
                (imap (context_module c_mid k ce) cs) (length feats) 0 feats)
      as (out & -> & Hlen' & _ & Hout);
      [lia|rewrite length_imap; lia|].
    py_step. exists x_ref, out. split; [exact Hx|]. split; [lia|].
    split; [|reflexivity].
    intros i x cin Hi Hc.
    apply (Hout i); [lia| |apply Hfeats, Hi].
    rewrite list_lookup_imap, Hc. reflexivity.
Qed.

End single_map_props.

Section more_bfp_examples.
Import bfp symbolic.

Lemma BFP_forward_single_level_witness :
  ∃ self cs cout,
    BFP_init (Chans [8; 8; 8]) 3 1 (Some conv) true (Some 256) = Ok self ∧
    BFP_forward self pyramid =
      Ok (ONested [[Conv 24 256 (3, 3) (1, 1)
                      (Concat [Pool c2 [16; 16]; Nearest c3 [16; 16];
                               Nearest c4 [16; 16]] 1)]]) ∧
    Chans [8; 8; 8] = Chans cs ∧ Some 256 = Some cout ∧
    refine self = Some (ConvModule (foldl Nat.add 0 cs) cout 3 1) ∧
    (length pyramid ≠ 3 → BFP_forward self pyramid = Raise AssertionError) ∧
    (length pyramid = 3 →
     ∃ x_ref feats,
       pyramid !! 1 = Some x_ref ∧
       length feats = 3 ∧
       (∀ i x, pyramid !! i = Some x →
          feats !! i =
            Some (if i <? 1 then adaptive_max_pool2d x (spatial x_ref)
                  else interpolate x (spatial x_ref))) ∧
       BFP_forward self pyramid =
         Ok (ONested [[ConvModule (foldl Nat.add 0 cs) cout 3 1
                         (cat feats 1)]])).
Proof.
  destruct (BFP_init (Chans [8; 8; 8]) 3 1 (Some conv) true (Some 256))
    as [self|] eqn:Hinit; [|discriminate].
  destruct (BFP_forward_single_level _ _ _ _ _ self pyramid Hinit)
    as (cs & cout & H).
  exists self, cs, cout. split; [reflexivity|].
  split; [|exact H].
  injection Hinit as <-. reflexivity.
Defined.

Lemma FRCNBFP_forward_outcome_witness :
  ∃ self,
    FRCNBFP_init (Chans [8; 8]) 3 1 64 15 1 = Ok self ∧
    FRCNBFP_forward self pyramid = Raise IndexError.
Proof.
  destruct (FRCNBFP_init (Chans [8; 8]) 3 1 64 15 1) as [self|] eqn:Hinit;
    [|discriminate].
  exists self. split; [reflexivity|].
  apply (FRCNBFP_forward_outcome [8; 8] 3 1 64 15 1 self pyramid Hinit);
    [reflexivity|cbn; lia].
Defined.

End more_bfp_examples.

(* ===================================================================== *)
(** * More on the base detector *)
(* ===================================================================== *)

Section drawing_props.
Import base.
Context {Image : Type} `{!Plot Image}.
Implicit Types (im : Image) (bboxes : list (list Q)) (row : list Q)
  (labels : list Z) (class_names : list string) (thresh : Q) (clr : string)
  (made new : list (call Image)) (per_row : list (list (call Image))).

(** A label that names a class, counted from the front or from the end. *)
#[local] Abbreviation names_class class_names l :=
  (- Z.of_nat (length class_names) ≤ l < Z.of_nat (length class_names))%Z.

(** What is drawn for a row with its label: nothing, or the rectangle of
    its first four columns followed by its class name and score. *)
#[local] Set Warnings "-inconsistent-scopes".
#[local] Abbreviation drawn_for class_names thresh clr row l new :=
  (∃ b0 b1 b2 b3 score name,
     row !! 0 = Some b0 ∧ row !! 1 = Some b1 ∧
     row !! 2 = Some b2 ∧ row !! 3 = Some b3 ∧
     last row = Some score ∧ index class_names l = Ok name ∧
     new = if negb (Qle_bool score thresh)
           then [add_patch (b0, b1) (b2 - b0)%Q (b3 - b1)%Q clr;
                 text b0 (b1 + 11)%Q (name +:+ " " +:+ fmt_2f score) clr]
           else []).

Lemma index_Ok {A : Type} (l : list A) (k : Z) :
  (- Z.of_nat (length l) ≤ k < Z.of_nat (length l))%Z →
  ∃ a, index l k = Ok a.
Proof.
  intros Hk. unfold index. destruct (Z.leb_spec 0 k).
  - destruct (lookup_lt_is_Some_2 l (Z.to_nat k)) as [a Ha]; [lia|].
    exists a. apply getitem_Ok, Ha.
  - destruct (Z.leb_spec (- Z.of_nat (length l)) k); [|lia].
    destruct (lookup_lt_is_Some_2 l (Z.to_nat (Z.of_nat (length l) + k)))
      as [a Ha]; [lia|].
    exists a. apply getitem_Ok, Ha.
Qed.

Lemma index_Raise {A : Type} (l : list A) (k : Z) :
  (k < - Z.of_nat (length l) ∨ Z.of_nat (length l) ≤ k)%Z →
  index l k = Raise IndexError.
Proof.
  intros Hk. unfold index, getitem. destruct (Z.leb_spec 0 k).
  - rewrite lookup_ge_None_2 by lia. reflexivity.
  - destruct (Z.leb_spec (- Z.of_nat (length l)) k); [lia|reflexivity].
Qed.

Lemma index_last {A : Type} (l : list A) :
  l ≠ [] → ∃ a, last l = Some a ∧ index l (-1) = Ok a.
Proof.
  intros Hne. unfold index.
  assert (Hlen : 0 < length l) by (destruct l; [done|cbn; lia]).
  destruct (Z.leb_spec 0 (-1)); [lia|].
  destruct (Z.leb_spec (- Z.of_nat (length l)) (-1)); [|lia].
  rewrite last_lookup.
  replace (Z.to_nat (Z.of_nat (length l) + -1)) with (pred (length l)) by lia.
  destruct (lookup_lt_is_Some_2 l (pred (length l))) as [a Ha]; [lia|].
  exists a. split; [exact Ha|]. apply getitem_Ok, Ha.
Qed.

Lemma row_calls_good bboxes labels class_names thresh clr i row l :
  bboxes !! i = Some row → 4 ≤ length row → labels !! i = Some l →
  names_class class_names l →
  ∃ new, row_calls bboxes labels class_names thresh clr i = Ok new ∧
         drawn_for class_names thresh clr row l new.
Proof.
  intros Hrow Hlen Hl Hname. unfold row_calls.
  rewrite (getitem_Ok _ _ _ Hrow). py_step.
  destruct (index_last row) as (score & Hlast & ->);
    [destruct row; [cbn in Hlen; lia|done]|].
  py_step. rewrite (getitem_Ok _ _ _ Hl). py_step.
  destruct (index_Ok class_names l Hname) as [name Hn]. rewrite Hn. py_step.
  destruct (lookup_lt_is_Some_2 row 0) as [b0 H0]; [lia|].
  destruct (lookup_lt_is_Some_2 row 1) as [b1 H1]; [lia|].
  destruct (lookup_lt_is_Some_2 row 2) as [b2 H2]; [lia|].
  destruct (lookup_lt_is_Some_2 row 3) as [b3 H3]; [lia|].
  rewrite (getitem_Ok _ _ _ H0), (getitem_Ok _ _ _ H1),
    (getitem_Ok _ _ _ H2), (getitem_Ok _ _ _ H3).
  destruct (negb (Qle_bool score thresh)) eqn:Hs; py_step;
    (eexists; split; [reflexivity|]);
    exists b0, b1, b2, b3, score, name; rewrite Hs; done.
Qed.

Lemma row_calls_no_name bboxes labels class_names thresh clr i row l :
  bboxes !! i = Some row → row ≠ [] → labels !! i = Some l →
  (l < - Z.of_nat (length class_names) ∨
   Z.of_nat (length class_names) ≤ l)%Z →
  row_calls bboxes labels class_names thresh clr i = Raise IndexError.
Proof.
  intros Hrow Hne Hl Hname. unfold row_calls.
  rewrite (getitem_Ok _ _ _ Hrow). py_step.
  destruct (index_last row Hne) as (score & _ & ->). py_step.
  rewrite (getitem_Ok _ _ _ Hl). py_step.
  rewrite (index_Raise _ _ Hname). reflexivity.
Qed.

(** The loop over rows that all have four columns and a class name. *)
Lemma draw_loop_good bboxes labels class_names thresh clr n : ∀ i made,
  (∀ j row, bboxes !! j = Some row → 4 ≤ length row) →
  i + n ≤ length bboxes → i + n ≤ length labels →
  (∀ j l, i ≤ j < i + n → labels !! j = Some l → names_class class_names l) →
  ∃ per_row,
    length per_row = n ∧
    (∀ k row l new, bboxes !! (i + k) = Some row →
       labels !! (i + k) = Some l → per_row !! k = Some new →
       drawn_for class_names thresh clr row l new) ∧
    draw_loop bboxes labels class_names thresh clr i n made
      = draw_loop bboxes labels class_names thresh clr (i + n) 0
          (made ++ concat per_row).
Proof.
  induction n as [|n IH]; intros i made Hcols Hb Hl Hnames.
  - exists []. split; [reflexivity|]. split; [intros k ? ? ? _ _ [=]|].
    rewrite Nat.add_0_r. cbn. rewrite app_nil_r. reflexivity.
  - destruct (lookup_lt_is_Some_2 bboxes i) as [row Hrow]; [lia|].
    destruct (lookup_lt_is_Some_2 labels i) as [l Hlab]; [lia|].
    destruct (row_calls_good bboxes labels class_names thresh clr i row l)
      as (new & Hrun & Hnew);
      [exact Hrow|eapply Hcols, Hrow|exact Hlab
      |apply (Hnames i); [lia|exact Hlab]|].
    destruct (IH (S i) (made ++ new)) as (rest & Hlen & Hspec & Hloop);
      [exact Hcols|lia|lia|intros j l' Hj; apply Hnames; lia|].
    exists (new :: rest). split; [cbn; lia|]. split.
    + intros [|k] row' l' new' Hr Hl' Hk.
      * rewrite Nat.add_0_r in Hr, Hl'. cbn in Hk.
        assert (row' = row) as -> by congruence.
        assert (l' = l) as -> by congruence.
        injection Hk as <-. exact Hnew.
      * cbn in Hk. apply (Hspec k); [| |exact Hk].
        -- replace (S i + k) with (i + S k) by lia. exact Hr.
        -- replace (S i + k) with (i + S k) by lia. exact Hl'.
    + cbn [draw_loop]. rewrite Hrun, Hloop. cbn [concat].
      rewrite app_assoc. replace (S i + n) with (i + S n) by lia.
      reflexivity.
Qed.

(** X18.  What [vis_detections] draws, for detections of at least four
    columns.  If every label names a class, the method shows the image
    and then, row by row, draws for each detection whose score (the last
    column) is above [thresh] the rectangle of its first four columns
    and, next to it, the class name and the score; a score equal to
    [thresh] is not drawn.  The class name is looked up before the score
    is compared: at the first row whose label names no class the method
    raises [IndexError], whatever the score of that row, and what was
    drawn for the rows before it stays on the axes. *)
Theorem vis_detections_outcome im bboxes labels class_names thresh clr :
  (∀ j row, bboxes !! j = Some row → 4 ≤ length row) →
  (length bboxes ≤ length labels →
   (∀ j l, j < length bboxes → labels !! j = Some l →
           names_class class_names l) →
   ∃ per_row,
     length per_row = length bboxes ∧
     (∀ k row l new, bboxes !! k = Some row → labels !! k = Some l →
        per_row !! k = Some new →
        drawn_for class_names thresh clr row l new) ∧
     vis_detections im bboxes labels class_names thresh clr
       = (Ok tt, imshow (swap_channels im) :: concat per_row)) ∧
  (∀ i l, i < length bboxes → labels !! i = Some l →
     (l < - Z.of_nat (length class_names) ∨
      Z.of_nat (length class_names) ≤ l)%Z →
     (∀ j l', j < i → labels !! j = Some l' → names_class class_names l') →
     ∃ per_row,
       length per_row = i ∧
       (∀ k row l' new, bboxes !! k = Some row → labels !! k = Some l' →
          per_row !! k = Some new →
          drawn_for class_names thresh clr row l' new) ∧
       vis_detections im bboxes labels class_names thresh clr
         = (Raise IndexError, imshow (swap_channels im) :: concat per_row)).
Proof.
  intros Hcols. unfold vis_detections. cbv zeta. split.
  - intros Hlen Hnames.
    destruct (draw_loop_good bboxes labels class_names thresh clr
                (length bboxes) 0 [imshow (swap_channels im)])
      as (per_row & Hl & Hspec & Hloop);
      [exact Hcols|lia|lia|intros j l Hj; apply Hnames; lia|].
    exists per_row. split; [exact Hl|]. split; [exact Hspec|].
    rewrite Hloop. reflexivity.
  - intros i l Hi Hl Hbad Hnames.
    destruct (draw_loop_good bboxes labels class_names thresh clr
                i 0 [imshow (swap_channels im)])
      as (per_row & Hlen & Hspec & Hloop);
      [exact Hcols|lia|apply lookup_lt_Some in Hl; lia
      |intros j l' Hj; apply Hnames; lia|].
    exists per_row. split; [exact Hlen|]. split; [exact Hspec|].
    destruct (lookup_lt_is_Some_2 bboxes i Hi) as [row Hrow].
    assert (Hstep : ∀ n made,
      draw_loop bboxes labels class_names thresh clr i (S n) made
        = (Raise IndexError, made)).
    { intros n made. cbn [draw_loop].
      rewrite (row_calls_no_name bboxes labels class_names thresh clr i row l);
        [reflexivity|exact Hrow| |exact Hl|exact Hbad].
      specialize (Hcols i row Hrow). destruct row; [cbn in Hcols; lia|done]. }
    assert (Hsplit : ∀ n m start made,
      draw_loop bboxes labels class_names thresh clr start (n + m) made
        = match draw_loop bboxes labels class_names thresh clr start n made
          with
          | (Ok _, made') =>
              draw_loop bboxes labels class_names thresh clr (start + n) m
                made'
          | r => r
          end).
    { induction n as [|n IHn]; intros m start made.
      - cbn. rewrite Nat.add_0_r. reflexivity.
      - cbn [draw_loop Nat.add].
        destruct (row_calls bboxes labels class_names thresh clr start);
          [|reflexivity].
        rewrite IHn. replace (S start + n) with (start + S n) by lia.
        reflexivity. }
    replace (length bboxes) with (i + S (length bboxes - S i)) by lia.
    assert (Hzero : ∀ start made,
      draw_loop bboxes labels class_names thresh clr start 0 made
        = (Ok tt, made)) by reflexivity.
    rewrite Hsplit, Hloop, Hzero. cbn [Nat.add]. apply Hstep.
Qed.

End drawing_props.

Section more_base_examples.
Import base toy_detector.

Lemma detections_columns :
  ∀ j row, detections !! j = Some row → 4 ≤ length row.
Proof. intros [|[|[|j]]] row [= <-]; cbn; lia. Qed.

Lemma vis_detections_outcome_witness :
  vis_detections "frame" detections [0; 1; -1]%Z names (1 # 2) "g"
    = (Ok tt,
       [imshow "frame[rgb]";
        add_patch (0, 0)%Q 10 10 "g"; text 0 11 "car 90" "g";
        add_patch (1, 2)%Q 7 7 "g"; text 1 13 "bus 70" "g"]) ∧
  ∃ per_row,
    length per_row = 1 ∧
    vis_detections "frame" detections [0; 5; 0]%Z names (1 # 2) "g"
      = (Raise IndexError, imshow (swap_channels "frame") :: concat per_row).
Proof.
  split; [vm_compute; reflexivity|].
  destruct (proj2 (vis_detections_outcome "frame" detections [0; 5; 0]%Z
                     names (1 # 2) "g" detections_columns) 1 5%Z)
    as (per_row & Hlen & _ & Hrun).
  - cbn. lia.
  - reflexivity.
  - cbn. lia.
  - intros [|j] l' Hj Hl; [|lia].
    cbn in Hl. injection Hl as <-. cbn. lia.
  - exists per_row. split; [exact Hlen|exact Hrun].
Defined.

End more_base_examples.
